(** * ZeroMailPanthom: dispatch and tracking engine

    A shallow embedding of the parts of the repository that the
    specification's testable properties talk about:

    - [email_campaign/email_tracking.py]  (module [Tracking])
    - [email_campaign/email_sender.py]    (modules [Template], [Sender],
                                           [Message])
    - [email_campaign/tor_handler.py]     (module [Tor])
    - [email_campaign/main.py]            (module [Campaign])

    Python [str] values are modelled by their UTF-8 byte sequence
    ([list ascii]): [s.encode()] is then the identity, [str.replace] and the
    regular expression of [generate_tracking_links] act on bytes exactly as
    they act on code points, because every pattern involved is ASCII.
    Library code the repository calls (hashlib, urllib, base64) is modelled
    in the first modules, tables of the SQLite store are lists of records,
    and effects (sleeping, network traffic) are recorded in event traces. *)

From Stdlib Require Import DecimalString.
From Stdlib Require Import Ascii String ZArith QArith Lia Bool Arith List.
Import ListNotations.

Set Implicit Arguments.

Close Scope Q_scope.
Open Scope string_scope.
Open Scope list_scope.

(** ** Strings *)

Definition str := list ascii.

Definition lit (s : string) : str := list_ascii_of_string s.

Module Str.

Fixpoint eqb (a b : str) : bool :=
  match a, b with
  | [], [] => true
  | x :: a', y :: b' => Ascii.eqb x y && eqb a' b'
  | _, _ => false
  end.

(** [s.startswith(p)] *)
Fixpoint startswith (p s : str) : bool :=
  match p, s with
  | [], _ => true
  | x :: p', y :: s' => Ascii.eqb x y && startswith p' s'
  | _ :: _, [] => false
  end.

(** [p in s] *)
Fixpoint contains (p s : str) : bool :=
  startswith p s ||
  match s with
  | [] => false
  | _ :: s' => contains p s'
  end.

(** [str.replace(old, new)] for a non-empty [old]: the text is scanned from
    the left, every match is replaced and the scan resumes behind it.  The
    counter [skip] holds how many characters of the last match are still to
    be dropped, which keeps the recursion structural. *)
Fixpoint replace_from (old new : str) (skip : nat) (s : str) : str :=
  match s with
  | [] => []
  | c :: s' =>
      match skip with
      | S k => replace_from old new k s'
      | O =>
          if startswith old s
          then new ++ replace_from old new (length old - 1) s'
          else c :: replace_from old new 0 s'
      end
  end.

(** [s.replace(old, new)].  For an empty [old] Python inserts [new] before
    every character and at the end. *)
Definition replace (old new s : str) : str :=
  match old with
  | [] => new ++ flat_map (fun c => c :: new) s
  | _ :: _ => replace_from old new 0 s
  end.

(** [sep.join(parts)] *)
Fixpoint join (sep : str) (parts : list str) : str :=
  match parts with
  | [] => []
  | [p] => p
  | p :: rest => p ++ sep ++ join sep rest
  end.

(** [s.split(sep)] for a one-character separator. *)
Fixpoint split_on (sep : ascii) (s : str) : list str :=
  match s with
  | [] => [[]]
  | c :: s' =>
      if Ascii.eqb c sep then [] :: split_on sep s'
      else match split_on sep s' with
           | [] => [[c]]
           | p :: ps => (c :: p) :: ps
           end
  end.

Definition lower_char (c : ascii) : ascii :=
  let n := nat_of_ascii c in
  if (65 <=? n)%nat && (n <=? 90)%nat then ascii_of_nat (n + 32) else c.

Definition is_byte (n : nat) (c : ascii) : bool := (nat_of_ascii c =? n)%nat.

(** [s.lower()], as far as ASCII letters go: the ASCII capitals, and the
    two characters outside ASCII whose lower case holds an ASCII letter,
    U+0130 (bytes C4 B0, lowered to [i] and U+0307) and U+212A (bytes
    E2 84 AA, lowered to [k]).  The lower case of every other character
    lies outside ASCII and is left as it is here: the code only asks
    whether ASCII words occur in the result, which no byte outside ASCII
    bears on. *)
Fixpoint lower (s : str) : str :=
  match s with
  | [] => []
  | a :: s1 =>
      match s1 with
      | [] => [lower_char a]
      | b :: s2 =>
          if is_byte 196 a && is_byte 176 b
          then "i"%char :: ascii_of_nat 204 :: ascii_of_nat 135 :: lower s2
          else
            match s2 with
            | c :: s3 =>
                if is_byte 226 a && is_byte 132 b && is_byte 170 c
                then "k"%char :: lower s3
                else lower_char a :: lower s1
            | [] => lower_char a :: lower s1
            end
      end
  end.

(** Lexicographic order on bytes, the order SQLite's BINARY collation and
    Python's [<] on ASCII text use. *)
Fixpoint ltb (a b : str) : bool :=
  match a, b with
  | [], [] => false
  | [], _ :: _ => true
  | _ :: _, [] => false
  | x :: a', y :: b' =>
      let nx := nat_of_ascii x in
      let ny := nat_of_ascii y in
      if (nx <? ny)%nat then true
      else if (ny <? nx)%nat then false
      else ltb a' b'
  end.

Definition leb (a b : str) : bool := negb (ltb b a).

End Str.

(** ** hashlib.sha256

    SHA-256 as in FIPS 180-4, on 32-bit words held in [Z]. *)

Module SHA256.
Local Open Scope Z_scope.

(** The first [n] primes, by trial division. *)
Definition is_prime (p : Z) : bool :=
  forallb (fun d => negb (p mod d =? 0))
          (map Z.of_nat (seq 2 (Z.to_nat p - 2))).

Definition primes (n : nat) : list Z :=
  firstn n (filter is_prime (map Z.of_nat (seq 2 400))).

(** The integer cube root, one bit at a time. *)
Definition cube_root (x : Z) : Z :=
  fold_left (fun r i => let c := r + 2 ^ Z.of_nat i in
                        if c * c * c <=? x then c else r)
            (rev (seq 0 40)) 0.

(** The round constants: the first 32 bits of the fractional parts of the
    cube roots of the first 64 primes. *)
Definition K : list Z :=
  Eval vm_compute in
    map (fun p => cube_root (p * 2 ^ 96) mod 2 ^ 32) (primes 64).

Record state := mkState { ha : Z; hb : Z; hc : Z; hd : Z;
                          he : Z; hf : Z; hg : Z; hh : Z }.

(** The initial hash value: the first 32 bits of the fractional parts of
    the square roots of the first 8 primes. *)
Definition H0 : state :=
  Eval vm_compute in
    let h i := Z.sqrt (nth i (primes 8) 0 * 2 ^ 64) mod 2 ^ 32 in
    mkState (h 0%nat) (h 1%nat) (h 2%nat) (h 3%nat)
            (h 4%nat) (h 5%nat) (h 6%nat) (h 7%nat).

Definition w32 (x : Z) : Z := x mod 2 ^ 32.
Definition add32 (x y : Z) : Z := w32 (x + y).
Definition rotr (n x : Z) : Z :=
  Z.lor (Z.shiftr x n) (w32 (Z.shiftl x (32 - n))).
Definition Ch (x y z : Z) : Z :=
  Z.lxor (Z.land x y) (Z.land (Z.lxor x 0xffffffff) z).
Definition Maj (x y z : Z) : Z :=
  Z.lxor (Z.lxor (Z.land x y) (Z.land x z)) (Z.land y z).
Definition Sigma0 (x : Z) : Z :=
  Z.lxor (Z.lxor (rotr 2 x) (rotr 13 x)) (rotr 22 x).
Definition Sigma1 (x : Z) : Z :=
  Z.lxor (Z.lxor (rotr 6 x) (rotr 11 x)) (rotr 25 x).
Definition sigma0 (x : Z) : Z :=
  Z.lxor (Z.lxor (rotr 7 x) (rotr 18 x)) (Z.shiftr x 3).
Definition sigma1 (x : Z) : Z :=
  Z.lxor (Z.lxor (rotr 17 x) (rotr 19 x)) (Z.shiftr x 10).

(** The padded message: a [0x80] byte, zeros up to 56 modulo 64, and the bit
    length on eight bytes, most significant first. *)
Definition be_bytes (n : nat) (x : Z) : list Z :=
  map (fun i => Z.shiftr x (8 * Z.of_nat i) mod 256) (rev (seq 0 n)).

Definition pad (msg : list Z) : list Z :=
  let len := Z.of_nat (length msg) in
  let zeros := Z.to_nat ((55 - len) mod 64) in
  msg ++ [0x80] ++ repeat 0 zeros ++ be_bytes 8 (8 * len).

Definition be_word (bs : list Z) : Z :=
  fold_left (fun acc b => acc * 256 + b) bs 0.

(** Sixteen big-endian words of one 64-byte block. *)
Fixpoint words (n : nat) (bs : list Z) : list Z :=
  match n with
  | O => []
  | S n' => be_word (firstn 4 bs) :: words n' (skipn 4 bs)
  end.

(** The message schedule: [w] holds the words computed so far, newest
    first. *)
Fixpoint schedule (n : nat) (w : list Z) : list Z :=
  match n with
  | O => rev w
  | S n' =>
      let x := add32 (add32 (sigma1 (nth 1 w 0)) (nth 6 w 0))
                     (add32 (sigma0 (nth 14 w 0)) (nth 15 w 0)) in
      schedule n' (x :: w)
  end.

Definition round (s : state) (kw : Z * Z) : state :=
  let t1 := add32 (add32 (add32 (hh s) (Sigma1 (he s)))
                         (add32 (Ch (he s) (hf s) (hg s)) (fst kw)))
                  (snd kw) in
  let t2 := add32 (Sigma0 (ha s)) (Maj (ha s) (hb s) (hc s)) in
  mkState (add32 t1 t2) (ha s) (hb s) (hc s)
          (add32 (hd s) t1) (he s) (hf s) (hg s).

Definition compress (s : state) (block : list Z) : state :=
  let w := schedule 48 (rev (words 16 block)) in
  let r := fold_left round (combine K w) s in
  mkState (add32 (ha s) (ha r)) (add32 (hb s) (hb r))
          (add32 (hc s) (hc r)) (add32 (hd s) (hd r))
          (add32 (he s) (he r)) (add32 (hf s) (hf r))
          (add32 (hg s) (hg r)) (add32 (hh s) (hh r)).

Fixpoint blocks (n : nat) (s : state) (bs : list Z) : state :=
  match n with
  | O => s
  | S n' => blocks n' (compress s (firstn 64 bs)) (skipn 64 bs)
  end.

Definition digest_words (msg : list Z) : state :=
  let p := pad msg in
  blocks (length p / 64) H0 p.

Definition hex_digit (d : Z) : ascii :=
  if d <? 10 then ascii_of_nat (48 + Z.to_nat d)
  else ascii_of_nat (87 + Z.to_nat d).

(** Eight lower-case hexadecimal digits of a 32-bit word. *)
Definition hex_word (x : Z) : str :=
  map (fun i => hex_digit (Z.shiftr x (4 * Z.of_nat i) mod 16))
      (rev (seq 0 8)).

(** [hashlib.sha256(data).hexdigest()] *)
Definition hexdigest (data : str) : str :=
  let s := digest_words (map (fun c => Z.of_nat (nat_of_ascii c)) data) in
  hex_word (ha s) ++ hex_word (hb s) ++ hex_word (hc s) ++ hex_word (hd s) ++
  hex_word (he s) ++ hex_word (hf s) ++ hex_word (hg s) ++ hex_word (hh s).

End SHA256.

(** ** Exceptions and results *)

Inductive exn : Type :=
| RuntimeError (msg : str)          (* the wrappers of [EmailTracker] *)
| FileNotFoundError (msg : str)     (* [_validate_attachments] *)
| ValueError (msg : str)
| BinasciiError                     (* [base64.b64decode] *)
| UnicodeDecodeError                (* [bytes.decode] *)
| IntegrityError                    (* a PRIMARY KEY or UNIQUE violation *)
| ZeroDivisionError
| TransportError (msg : str)        (* smtplib and requests faults *)
| AttributeError (msg : str).

Inductive result (A : Type) : Type :=
| Ok (a : A)
| Raise (e : exn).

Arguments Ok {A} a.
Arguments Raise {A} e.

Definition bind {A B} (r : result A) (k : A -> result B) : result B :=
  match r with
  | Ok a => k a
  | Raise e => Raise e
  end.

Notation "x <- r ;; k" := (bind r (fun x => k))
  (at level 61, r at next level, right associativity).

(** [try: body except Exception as e: raise RuntimeError(msg)]; the message
    of the source also quotes the cause and a traceback. *)
Definition wrap_runtime {A} (msg : string) (r : result A) : result A :=
  match r with
  | Ok a => Ok a
  | Raise _ => Raise (RuntimeError (lit msg))
  end.

(** What [time.sleep] raises for a negative length; [time.sleep d] returns
    when [Qle_bool 0 d] holds. *)
Definition negative_sleep : exn :=
  ValueError (lit "sleep length must be non-negative").

(** ** urllib.parse *)

Module Urllib.

Definition between (lo hi : nat) (c : ascii) : bool :=
  let n := nat_of_ascii c in (lo <=? n)%nat && (n <=? hi)%nat.

(** The characters [quote] never escapes: letters, digits and [_.-~]. *)
Definition always_safe (c : ascii) : bool :=
  between 65 90 c || between 97 122 c || between 48 57 c ||
  existsb (Ascii.eqb c) (lit "_.-~").

Definition hex_upper (d : nat) : ascii :=
  if (d <? 10)%nat then ascii_of_nat (48 + d) else ascii_of_nat (55 + d).

Definition quote_byte (c : ascii) : str :=
  if always_safe c then [c]
  else if Ascii.eqb c " " then ["+"%char]
  else let n := nat_of_ascii c in
       ["%"%char; hex_upper (n / 16); hex_upper (n mod 16)].

(** [quote_plus(s)]: every byte of the UTF-8 text is kept, turned into
    [+] (a space) or percent-escaped. *)
Definition quote_plus (s : str) : str := flat_map quote_byte s.

(** [urlencode(params)] for a dictionary of strings, in insertion order. *)
Definition urlencode (params : list (str * str)) : str :=
  Str.join (lit "&")
    (map (fun kv => quote_plus (fst kv) ++ lit "=" ++ quote_plus (snd kv))
         params).

Definition hex_value (c : ascii) : option nat :=
  let n := nat_of_ascii c in
  if between 48 57 c then Some (n - 48)
  else if between 65 70 c then Some (n - 55)
  else if between 97 102 c then Some (n - 87)
  else None.

(** [unquote_plus], the decoding the redirect endpoint applies to a query
    value. *)
Fixpoint unquote_plus (s : str) : str :=
  match s with
  | [] => []
  | c :: s' =>
      if Ascii.eqb c "+" then " "%char :: unquote_plus s'
      else if Ascii.eqb c "%" then
        match s' with
        | h :: l :: rest =>
            match hex_value h, hex_value l with
            | Some a, Some b => ascii_of_nat (16 * a + b) :: unquote_plus rest
            | _, _ => c :: unquote_plus s'
            end
        | _ => c :: unquote_plus s'
        end
      else c :: unquote_plus s'
  end.

End Urllib.

(** ** base64.b64decode and bytes.decode *)

Module Base64.

Definition b64_value (c : ascii) : option nat :=
  let n := nat_of_ascii c in
  if Urllib.between 65 90 c then Some (n - 65)
  else if Urllib.between 97 122 c then Some (n - 71)
  else if Urllib.between 48 57 c then Some (n + 4)
  else if Ascii.eqb c "+" then Some 62
  else if Ascii.eqb c "/" then Some 63
  else None.

Definition emit (b : nat) (r : result str) : result str :=
  match r with
  | Ok out => Ok (ascii_of_nat (b mod 256) :: out)
  | Raise e => Raise e
  end.

(** [binascii.a2b_base64] in its default, non-strict mode: characters
    outside the alphabet are skipped, a complete pad sequence ends the
    input, and data that stops inside a quad is an error. *)
Fixpoint a2b_base64 (s : str) (quad_pos leftchar pads : nat) : result str :=
  match s with
  | [] => match quad_pos with
          | O => Ok []
          | _ => Raise BinasciiError
          end
  | c :: s' =>
      if Ascii.eqb c "=" then
        if (2 <=? quad_pos)%nat
        then if (4 <=? quad_pos + (pads + 1))%nat then Ok []
             else a2b_base64 s' quad_pos leftchar (pads + 1)
        else a2b_base64 s' quad_pos leftchar pads
      else
        match b64_value c with
        | None => a2b_base64 s' quad_pos leftchar pads
        | Some v =>
            match quad_pos with
            | 0 => a2b_base64 s' 1 v 0
            | 1 => emit (leftchar * 4 + v / 16) (a2b_base64 s' 2 (v mod 16) 0)
            | 2 => emit (leftchar * 16 + v / 4) (a2b_base64 s' 3 (v mod 4) 0)
            | _ => emit (leftchar * 64 + v) (a2b_base64 s' 0 0 0)
            end
        end
  end.

(** [base64.b64decode(s)] for a [str] argument, which has to be ASCII. *)
Definition b64decode (s : str) : result str :=
  if forallb (fun c => (nat_of_ascii c <? 128)%nat) s
  then a2b_base64 s 0 0 0
  else Raise (ValueError
                (lit "string argument should contain only ASCII characters")).

(** Strict UTF-8: [need] continuation bytes are still expected, the next
    one within [lo..hi]. *)
Fixpoint utf8_valid (need lo hi : nat) (s : str) : bool :=
  match s with
  | [] => (need =? 0)%nat
  | c :: s' =>
      let n := nat_of_ascii c in
      match need with
      | S k => (lo <=? n)%nat && (n <=? hi)%nat && utf8_valid k 128 191 s'
      | O =>
          if (n <? 128)%nat then utf8_valid 0 128 191 s'
          else if Urllib.between 194 223 c then utf8_valid 1 128 191 s'
          else if (n =? 224)%nat then utf8_valid 2 160 191 s'
          else if Urllib.between 225 236 c || Urllib.between 238 239 c
               then utf8_valid 2 128 191 s'
          else if (n =? 237)%nat then utf8_valid 2 128 159 s'
          else if (n =? 240)%nat then utf8_valid 3 144 191 s'
          else if Urllib.between 241 243 c then utf8_valid 3 128 191 s'
          else if (n =? 244)%nat then utf8_valid 3 128 143 s'
          else false
      end
  end.

(** [data.decode('utf-8')] *)
Definition decode_utf8 (data : str) : result str :=
  if utf8_valid 0 128 191 data then Ok data else Raise UnicodeDecodeError.

End Base64.

Definition str_eq_dec : forall a b : str, {a = b} + {a <> b} :=
  list_eq_dec ascii_dec.

(** [COUNT(DISTINCT col)] over the non-NULL values of a column. *)
Definition count_distinct (col : list str) : nat :=
  length (nodup str_eq_dec col).

(** Python truthiness of an [Optional[str]]. *)
Definition truthy (s : option str) : bool :=
  match s with
  | Some (_ :: _) => true
  | _ => false
  end.

(** ** email_tracking.py *)

Module Tracking.

Record email_row := mkEmail {
  email_id : str;
  campaign_id : str;
  recipient_email : str;
  template_name : str;
  sent_time : str;
  status : str;
  tracking_pixel_id : option str;
  bounce_info : option str;
  metadata : option str }.

Record open_row := mkOpen {
  open_id : str;
  o_email_id : str;
  open_time : str;
  o_user_agent : option str;
  o_ip_address : option str;
  o_country : option str;
  o_device_type : str;
  client_info : str }.

Record click_row := mkClick {
  click_id : str;
  c_email_id : str;
  link_url : str;
  click_time : str;
  c_user_agent : option str;
  c_ip_address : option str;
  c_country : option str;
  c_device_type : str }.

Record bounce_row := mkBounce {
  bounce_id : str;
  b_email_id : str;
  bounce_time : str;
  bounce_type : str;
  bounce_reason : str;
  description : option str }.

(** The database file: four tables, rows in insertion order. *)
Record db := mkDb {
  emails : list email_row;
  opens : list open_row;
  clicks : list click_row;
  bounces : list bounce_row }.

(** [_init_database]: [DROP TABLE IF EXISTS] for the four tables, then
    [CREATE TABLE] for each of them.  Whatever the file held before, the
    four tables exist and are empty afterwards. *)
Definition _init_database (old : db) : result db :=
  (* DROP TABLE IF EXISTS clicks, opens, bounces, emails *)
  let d1 := mkDb (emails old) (opens old) [] (bounces old) in
  let d2 := mkDb (emails d1) [] (clicks d1) (bounces d1) in
  let d3 := mkDb (emails d2) (opens d2) (clicks d2) [] in
  let d4 := mkDb [] (opens d3) (clicks d3) (bounces d3) in
  (* CREATE TABLE emails, opens, clicks, bounces; the indexes *)
  Ok d4.

(** [EmailTracker(db_path)], run against the file found at [db_path]. *)
Definition EmailTracker (file : db) : result db :=
  wrap_runtime "Failed to initialize tracking database" (_init_database file).

Definition has_key {R} (key : R -> str) (k : str) (t : list R) : bool :=
  existsb (fun r => Str.eqb (key r) k) t.

(** [INSERT] into a table whose primary key is the column [key]. *)
Definition insert {R} (key : R -> str) (r : R) (t : list R) : result (list R) :=
  if has_key key (key r) t then Raise IntegrityError else Ok (t ++ [r]).

(** [track_email_send]; [uuid] is the value [uuid.uuid4()] returns, [now]
    the clock reading, [meta] the JSON text of a non-empty metadata. *)
Definition track_email_send (d : db) (recipient template campaign : str)
    (meta : option str) (uuid now : str) : result (db * str) :=
  wrap_runtime "Failed to track email send"
    (es <- insert email_id
             (mkEmail uuid campaign recipient template now (lit "sent")
                      None None meta) (emails d) ;;
     Ok (mkDb es (opens d) (clicks d) (bounces d), uuid)).

Fixpoint pixels (t : list email_row) : list str :=
  match t with
  | [] => []
  | e :: t' =>
      match tracking_pixel_id e with
      | Some p => p :: pixels t'
      | None => pixels t'
      end
  end.

Fixpoint distinct (l : list str) : bool :=
  match l with
  | [] => true
  | x :: l' => negb (existsb (Str.eqb x) l') && distinct l'
  end.

Definition set_pixel (p : str) (e : email_row) : email_row :=
  mkEmail (email_id e) (campaign_id e) (recipient_email e) (template_name e)
          (sent_time e) (status e) (Some p) (bounce_info e) (metadata e).

(** [create_tracking_pixel]: the [UPDATE] fails when it would break the
    [UNIQUE] constraint on [tracking_pixel_id]. *)
Definition create_tracking_pixel (d : db) (eid : str) (uuid : str)
  : result (db * str) :=
  wrap_runtime "Failed to create tracking pixel"
    (let es := map (fun e => if Str.eqb (email_id e) eid
                             then set_pixel uuid e else e) (emails d) in
     if distinct (pixels es)
     then Ok (mkDb es (opens d) (clicks d) (bounces d), uuid)
     else Raise IntegrityError).

(** [_hash_ip] *)
Definition _hash_ip (ip_address : option str) : option str :=
  match ip_address with
  | Some (c :: ip) => Some (SHA256.hexdigest (c :: ip))
  | _ => None
  end.

Definition has (word : string) (s : str) : bool := Str.contains (lit word) s.

(** [_detect_device_type] *)
Definition _detect_device_type (user_agent : option str) : str :=
  match user_agent with
  | Some (c :: ua') =>
      let ua := Str.lower (c :: ua') in
      if has "mobile" ua || has "android" ua || has "iphone" ua
      then lit "mobile"
      else if has "tablet" ua || has "ipad" ua then lit "tablet"
      else lit "desktop"
  | _ => lit "unknown"
  end.

(** [_detect_browser] *)
Definition _detect_browser (user_agent : option str) : str :=
  match user_agent with
  | Some (c :: ua') =>
      let ua := Str.lower (c :: ua') in
      if has "chrome" ua && negb (has "chromium" ua) then lit "chrome"
      else if has "firefox" ua then lit "firefox"
      else if has "safari" ua && negb (has "chrome" ua) then lit "safari"
      else if has "edge" ua then lit "edge"
      else if has "opera" ua then lit "opera"
      else lit "unknown"
  | _ => lit "unknown"
  end.

(** [_detect_os] *)
Definition _detect_os (user_agent : option str) : str :=
  match user_agent with
  | Some (c :: ua') =>
      let ua := Str.lower (c :: ua') in
      if has "windows" ua then lit "windows"
      else if has "mac os" ua || has "macos" ua then lit "macos"
      else if has "linux" ua then lit "linux"
      else if has "android" ua then lit "android"
      else if has "ios" ua || has "iphone" ua || has "ipad" ua then lit "ios"
      else lit "unknown"
  | _ => lit "unknown"
  end.

Definition quote : str := ["034"%char].

(** [_parse_client_info]: the text [json.dumps] gives for the small
    dictionary of the source. *)
Definition _parse_client_info (user_agent : option str) : str :=
  let field k v := quote ++ lit k ++ quote ++ lit ": " ++ quote ++ v ++ quote in
  if truthy user_agent
  then lit "{" ++ field "type" (_detect_device_type user_agent) ++ lit ", "
       ++ field "browser" (_detect_browser user_agent) ++ lit ", "
       ++ field "os" (_detect_os user_agent) ++ lit "}"
  else lit "{" ++ field "type" (lit "unknown") ++ lit "}".

(** [cursor.fetchone()] of
    [SELECT email_id FROM emails WHERE tracking_pixel_id = ?]. *)
Definition email_of_pixel (d : db) (pixel_id : str) : option str :=
  match filter (fun e => match tracking_pixel_id e with
                         | Some p => Str.eqb p pixel_id
                         | None => false
                         end) (emails d) with
  | e :: _ => Some (email_id e)
  | [] => None
  end.

(** [track_open] *)
Definition track_open (d : db) (pixel_id : str)
    (user_agent ip_address country : option str) (uuid now : str)
  : result db :=
  wrap_runtime "Failed to track email open"
    (match email_of_pixel d pixel_id with
     | Some eid =>
         os <- insert open_id
                 (mkOpen uuid eid now user_agent
                         (if truthy ip_address then _hash_ip ip_address
                          else None)
                         country
                         (_detect_device_type user_agent)
                         (_parse_client_info user_agent)) (opens d) ;;
         Ok (mkDb (emails d) os (clicks d) (bounces d))
     | None => Ok d
     end).

(** [track_click] *)
Definition track_click (d : db) (eid url : str)
    (user_agent ip_address country : option str) (uuid now : str)
  : result db :=
  wrap_runtime "Failed to track link click"
    (cs <- insert click_id
             (mkClick uuid eid url now user_agent
                      (if truthy ip_address then _hash_ip ip_address
                       else None)
                      country
                      (_detect_device_type user_agent)) (clicks d) ;;
     Ok (mkDb (emails d) (opens d) cs (bounces d))).

Definition set_bounced (reason : str) (e : email_row) : email_row :=
  mkEmail (email_id e) (campaign_id e) (recipient_email e) (template_name e)
          (sent_time e) (lit "bounced") (tracking_pixel_id e) (Some reason)
          (metadata e).

(** [track_bounce] *)
Definition track_bounce (d : db) (eid btype reason : str)
    (descr : option str) (uuid now : str) : result db :=
  wrap_runtime "Failed to track bounce"
    (bs <- insert bounce_id (mkBounce uuid eid now btype reason descr)
             (bounces d) ;;
     let es := map (fun e => if Str.eqb (email_id e) eid
                             then set_bounced reason e else e) (emails d) in
     Ok (mkDb es (opens d) (clicks d) bs)).

(** [cleanup_old_data]; [cutoff] is the ISO text of [now - days].  The three
    dependent tables are purged first, through the sub-select on [emails],
    and [emails] last. *)
Definition old_ids (d : db) (cutoff : str) : list str :=
  map email_id (filter (fun e => Str.ltb (sent_time e) cutoff) (emails d)).

Definition cleanup_old_data (d : db) (cutoff : str) : result db :=
  wrap_runtime "Failed to clean up old data"
    (let stale k := existsb (Str.eqb k) (old_ids d cutoff) in
     let d1 := mkDb (emails d) (filter (fun o => negb (stale (o_email_id o)))
                                       (opens d)) (clicks d) (bounces d) in
     let d2 := mkDb (emails d1) (opens d1)
                    (filter (fun c => negb (stale (c_email_id c))) (clicks d1))
                    (bounces d1) in
     let d3 := mkDb (emails d2) (opens d2) (clicks d2)
                    (filter (fun b => negb (stale (b_email_id b)))
                            (bounces d2)) in
     Ok (mkDb (filter (fun e => negb (Str.ltb (sent_time e) cutoff))
                      (emails d3))
              (opens d3) (clicks d3) (bounces d3))).

(** *** Analytics *)

(** [FROM emails e LEFT JOIN t x ON e.email_id = x.email_id]: every email
    row is kept; one without a partner is paired with NULLs. *)
Definition left_join {R} (fk : R -> str) (es : list email_row) (t : list R)
  : list (email_row * option R) :=
  flat_map (fun e =>
    match filter (fun x => Str.eqb (email_id e) (fk x)) t with
    | [] => [(e, None)]
    | m => map (fun x => (e, Some x)) m
    end) es.

(** [FROM emails e JOIN t x ON e.email_id = x.email_id] *)
Definition inner_join {R} (fk : R -> str) (es : list email_row) (t : list R)
  : list (email_row * R) :=
  flat_map (fun e =>
    map (fun x => (e, x)) (filter (fun x => Str.eqb (email_id e) (fk x)) t))
    es.

(** The [WHERE] clause shared by the five queries:
    [campaign_id = ?], and [sent_time BETWEEN ? AND ?] when both dates are
    given. *)
Definition selected (campaign : str) (start_date end_date : option str)
    (e : email_row) : bool :=
  Str.eqb (campaign_id e) campaign &&
  match start_date, end_date with
  | Some a, Some b => Str.leb a (sent_time e) && Str.leb (sent_time e) b
  | _, _ => true
  end.

(** [COUNT(x.id)]: the joined rows whose right side is not NULL. *)
Definition count_some {A B} (rows : list (A * option B)) : nat :=
  length (filter (fun r => match snd r with Some _ => true | None => false end)
                 rows).

(** [GROUP BY key] with one aggregate per group, groups in order of first
    appearance. *)
Fixpoint group_by {R} (key : R -> str) (agg : list R -> nat) (rows : list R)
    (fuel : nat) : list (str * nat) :=
  match fuel, rows with
  | S fuel', r :: _ =>
      (key r, agg (filter (fun x => Str.eqb (key x) (key r)) rows))
      :: group_by key agg
           (filter (fun x => negb (Str.eqb (key x) (key r))) rows) fuel'
  | _, _ => []
  end.

(** Python's [a / b] on integers. *)
Definition truediv (a b : nat) : result Q :=
  match b with
  | O => Raise ZeroDivisionError
  | S _ => Ok (inject_Z (Z.of_nat a) / inject_Z (Z.of_nat b))%Q
  end.

(** [(a / b * 100) if b > 0 else 0] *)
Definition rate (a b : nat) : result Q :=
  if (0 <? b)%nat then (q <- truediv a b ;; Ok (q * 100)%Q) else Ok 0%Q.

Record stats := mkStats {
  st_campaign_id : str;
  period_start : option str;
  period_end : option str;
  total_sent : nat;
  unique_recipients : nat;
  st_bounces : nat;
  bounce_details : list (str * nat);
  bounce_rate : Q;
  unique_opens : nat;
  total_opens : nat;
  unique_clicks : nat;
  total_clicks : nat;
  open_rate : Q;
  click_rate : Q;
  click_to_open_rate : Q;
  devices : list (str * nat);
  timestamp : str }.

(** The loop over the bounce groups: the last count of a type wins in the
    dictionary, every count is added to the total. *)
Definition sum_counts (groups : list (str * nat)) : nat :=
  fold_left (fun acc g => acc + snd g) groups 0.

(** [get_campaign_stats] *)
Definition get_campaign_stats (d : db) (campaign : str)
    (start_date end_date : option str) (now : str) : result stats :=
  wrap_runtime "Failed to get campaign stats"
    (let sel := selected campaign start_date end_date in
     (* total emails sent *)
     let sent := filter sel (emails d) in
     let total_sent := length sent in
     let unique_recipients := count_distinct (map recipient_email sent) in
     (* unique opens *)
     let jo := filter (fun r => sel (fst r))
                      (left_join o_email_id (emails d) (opens d)) in
     let unique_opens := count_distinct (map (fun r => email_id (fst r)) jo) in
     let total_opens := count_some jo in
     (* unique clicks *)
     let jc := filter (fun r => sel (fst r))
                      (left_join c_email_id (emails d) (clicks d)) in
     let unique_clicks :=
       count_distinct (map (fun r => email_id (fst r)) jc) in
     let total_clicks := count_some jc in
     (* device breakdown *)
     let jd := filter (fun r => sel (fst r))
                      (inner_join o_email_id (emails d) (opens d)) in
     let device_breakdown :=
       group_by (fun r => o_device_type (snd r))
                (fun g => count_distinct (map (fun r => email_id (fst r)) g))
                jd (length jd) in
     (* bounces *)
     let jb := filter (fun r => sel (fst r))
                      (inner_join b_email_id (emails d) (bounces d)) in
     let bounce_details :=
       group_by (fun r => bounce_type (snd r)) (@length _) jb (length jb) in
     let total_bounces := sum_counts bounce_details in
     (* rates *)
     bounce_rate <- rate total_bounces total_sent ;;
     open_rate <- rate unique_opens total_sent ;;
     click_rate <- rate unique_clicks total_sent ;;
     click_to_open_rate <- rate unique_clicks unique_opens ;;
     Ok (mkStats campaign start_date end_date
                 total_sent unique_recipients total_bounces bounce_details
                 bounce_rate
                 unique_opens total_opens unique_clicks total_clicks
                 open_rate click_rate click_to_open_rate
                 device_breakdown now)).

(** *** What the specification says, for comparison *)

(** A derived rate in the words of the specification: numerator over
    denominator, as a percentage, and [0] when the denominator is [0]. *)
Definition percentage (a b : nat) : Q :=
  match b with
  | O => 0%Q
  | S _ => (inject_Z (Z.of_nat a) / inject_Z (Z.of_nat b) * 100)%Q
  end.

(** What may be kept of a client address [raw]: nothing when there is none,
    else the SHA-256 hex digest, which differs from any address that is not
    itself 64 characters long. *)
Definition digest_of (raw stored : option str) : Prop :=
  match raw with
  | Some (c :: r) =>
      stored = Some (SHA256.hexdigest (c :: r)) /\
      (length (c :: r) <> 64 -> stored <> Some (c :: r))
  | _ => stored = None
  end.

(** *** The operations of the store, as a caller sees them *)

Inductive call :=
| Construct
| TrackEmailSend (recipient template campaign : str) (meta : option str)
                 (uuid now : str)
| CreateTrackingPixel (eid uuid : str)
| TrackOpen (pixel_id : str) (user_agent ip_address country : option str)
            (uuid now : str)
| TrackClick (eid url : str) (user_agent ip_address country : option str)
             (uuid now : str)
| TrackBounce (eid btype reason : str) (descr : option str) (uuid now : str)
| CleanupOldData (cutoff : str).

(** What [track_open] and [track_click] store of the client address. *)
Definition stored_address (ip_address : option str) : option str :=
  if truthy ip_address then _hash_ip ip_address else None.

(** The call [c] made with the client address [ip_address]; the calls
    other than [TrackOpen] and [TrackClick] take no client address. *)
Definition with_address (ip_address : option str) (c : call) : call :=
  match c with
  | TrackOpen p ua _ co u n => TrackOpen p ua ip_address co u n
  | TrackClick e url ua _ co u n => TrackClick e url ua ip_address co u n
  | _ => c
  end.

Definition run (c : call) (d : db) : result db :=
  match c with
  | Construct => EmailTracker d
  | TrackEmailSend r t c m u n =>
      x <- track_email_send d r t c m u n ;; Ok (fst x)
  | CreateTrackingPixel e u => x <- create_tracking_pixel d e u ;; Ok (fst x)
  | TrackOpen p ua ip co u n => track_open d p ua ip co u n
  | TrackClick e url ua ip co u n => track_click d e url ua ip co u n
  | TrackBounce e t r de u n => track_bounce d e t r de u n
  | CleanupOldData cutoff => cleanup_old_data d cutoff
  end.

(** A run of calls; a call that raises leaves the store as it was. *)
Fixpoint run_all (cs : list call) (d : db) : db :=
  match cs with
  | [] => d
  | c :: cs' =>
      match run c d with
      | Ok d' => run_all cs' d'
      | Raise _ => run_all cs' d
      end
  end.

(** *** Content instrumentation *)

Definition href_open : str := lit "href=" ++ quote.

(** The longest prefix without a double quote, and what follows it. *)
Fixpoint span_unquoted (s : str) : str * str :=
  match s with
  | [] => ([], [])
  | c :: s' =>
      if Ascii.eqb c "034" then ([], s)
      else let (u, rest) := span_unquoted s' in (c :: u, rest)
  end.

(** The pattern of [generate_tracking_links] (the text [href=], a double
    quote, a group of one or more characters other than a double quote, and
    a closing double quote) tried at the start of [s]: the group, when it
    matches.  The group is greedy and must be followed by a quote, so it is
    the whole run up to the next quote. *)
Definition match_href (s : str) : option str :=
  if Str.startswith href_open s then
    match span_unquoted (skipn (length href_open) s) with
    | ((_ :: _) as u, _ :: _) => Some u
    | _ => None
    end
  else None.

(** [re.sub(pattern, repl, s)] for that pattern: leftmost matches, none
    overlapping.  [skip] counts the characters of the last match that are
    still to be passed over. *)
Fixpoint re_sub (repl : str -> str) (skip : nat) (s : str) : str :=
  match s with
  | [] => []
  | c :: s' =>
      match skip with
      | S k => re_sub repl k s'
      | O =>
          match match_href s with
          | Some u => repl u ++ re_sub repl (length href_open + length u) s'
          | None => c :: re_sub repl 0 s'
          end
      end
  end.

(** The groups of the successive matches, as [re.findall] lists them. *)
Fixpoint re_findall (skip : nat) (s : str) : list str :=
  match s with
  | [] => []
  | c :: s' =>
      match skip with
      | S k => re_findall k s'
      | O =>
          match match_href s with
          | Some u => u :: re_findall (length href_open + length u) s'
          | None => re_findall 0 s'
          end
      end
  end.

(** The integrity tag: [sha256(f"{email_id}:{url}".encode()).hexdigest()[:12]] *)
Definition tid (eid original_url : str) : str :=
  firstn 12 (SHA256.hexdigest (eid ++ lit ":" ++ original_url)).

Definition tracking_url (eid tracking_domain original_url : str) : str :=
  lit "https://" ++ tracking_domain ++ lit "/click?" ++
  Urllib.urlencode [ (lit "eid", eid);
                     (lit "url", original_url);
                     (lit "tid", tid eid original_url) ].

(** [replace_link], applied to the group of a match. *)
Definition replace_link (eid tracking_domain original_url : str) : str :=
  href_open ++ tracking_url eid tracking_domain original_url ++ quote.

(** [generate_tracking_links] *)
Definition generate_tracking_links (content eid tracking_domain : str)
  : result str :=
  wrap_runtime "Failed to generate tracking links"
    (Ok (re_sub (replace_link eid tracking_domain) 0 content)).

(** *** The content as the specification reads it, for comparison *)

(** A text is a sequence of plain characters and of links, the occurrences
    of the pattern. *)
Inductive segment :=
| Text (c : ascii)
| Link (url : str).

Fixpoint segments (skip : nat) (s : str) : list segment :=
  match s with
  | [] => []
  | c :: s' =>
      match skip with
      | S k => segments k s'
      | O =>
          match match_href s with
          | Some u => Link u :: segments (length href_open + length u) s'
          | None => Text c :: segments 0 s'
          end
      end
  end.

(** A segment written out, with [f] applied to the address of a link. *)
Definition render (f : str -> str) (seg : segment) : str :=
  match seg with
  | Text c => [c]
  | Link u => href_open ++ f u ++ quote
  end.

Definition links (segs : list segment) : list str :=
  flat_map (fun seg => match seg with
                       | Link u => [u]
                       | Text _ => []
                       end) segs.

(** The same text with [f] applied to the address of every link. *)
Definition retarget (f : str -> str) (seg : segment) : segment :=
  match seg with
  | Text c => Text c
  | Link u => Link (f u)
  end.

Definition unquoted (s : str) : Prop := Forall (fun c => c <> "034"%char) s.

Definition is_hex (c : ascii) : bool :=
  Urllib.between 48 57 c || Urllib.between 97 102 c.

(** *** The beacon *)

Definition spaces (n : nat) : str := repeat " "%char n.

(** The fragment [generate_tracking_pixel] returns, with the line breaks
    and the indentation of the source. *)
Definition pixel_html (tracking_domain pixel_id : str) : str :=
  ["010"%char] ++ spaces 16 ++ lit "<img src=" ++ quote ++ lit "https://"
  ++ tracking_domain ++ lit "/pixel/" ++ pixel_id ++ quote
  ++ ["010"%char] ++ spaces 21 ++ lit "width=" ++ quote ++ lit "1" ++ quote
  ++ lit " height=" ++ quote ++ lit "1" ++ quote
  ++ lit " alt=" ++ quote ++ quote
  ++ lit " style=" ++ quote ++ lit "display:none;" ++ quote ++ lit " />"
  ++ ["010"%char] ++ spaces 12.

(** [generate_tracking_pixel] *)
Definition generate_tracking_pixel (d : db) (eid tracking_domain uuid : str)
  : result (db * str) :=
  wrap_runtime "Failed to generate tracking pixel"
    (x <- create_tracking_pixel d eid uuid ;;
     Ok (fst x, pixel_html tracking_domain (snd x))).

(** *** Properties of a store, for the statements below *)

(** The store a constructor leaves. *)
Definition fresh : db := mkDb [] [] [] [].

(** The primary keys of the four tables and the beacon tokens are each
    pairwise different. *)
Definition keys_unique (d : db) : Prop :=
  NoDup (map email_id (emails d)) /\
  NoDup (pixels (emails d)) /\
  NoDup (map open_id (opens d)) /\
  NoDup (map click_id (clicks d)) /\
  NoDup (map bounce_id (bounces d)).

(** Every open row names a message of the store. *)
Definition opens_attached (d : db) : Prop :=
  forall o, In o (opens d) -> In (o_email_id o) (map email_id (emails d)).

End Tracking.

(** ** email_sender.py: EmailTemplate *)

Module Template.

Definition byte_in (lo hi : nat) (c : ascii) : bool := Urllib.between lo hi c.
Definition byte_is (n : nat) (c : ascii) : bool := (nat_of_ascii c =? n)%nat.

(** Length in bytes of the white-space character [s] starts with, [0] when
    it starts with none.  These are the characters [str.strip()] removes:
    U+0009..U+000D, U+001C..U+0020, U+0085, U+00A0, U+1680, U+2000..U+200A,
    U+2028, U+2029, U+202F, U+205F and U+3000. *)
Definition ws_prefix (s : str) : nat :=
  match s with
  | [] => 0
  | c :: r =>
      if byte_in 9 13 c || byte_in 28 32 c then 1
      else
        match r with
        | d :: r' =>
            if byte_is 194 c && (byte_is 133 d || byte_is 160 d) then 2
            else
              match r' with
              | e :: _ =>
                  if byte_is 225 c && byte_is 154 d && byte_is 128 e then 3
                  else if byte_is 226 c && byte_is 128 d &&
                          (byte_in 128 138 e || byte_in 168 169 e ||
                           byte_is 175 e) then 3
                  else if byte_is 226 c && byte_is 129 d && byte_is 159 e
                  then 3
                  else if byte_is 227 c && byte_is 128 d && byte_is 128 e
                  then 3
                  else 0
              | [] => 0
              end
        | [] => 0
        end
  end.

(** The same test on a reversed text, for the right end. *)
Definition ws_suffix_rev (s : str) : nat :=
  match s with
  | [] => 0
  | e :: r =>
      if byte_in 9 13 e || byte_in 28 32 e then 1
      else
        match r with
        | d :: r' =>
            if byte_is 194 d && (byte_is 133 e || byte_is 160 e) then 2
            else
              match r' with
              | c :: _ => if (ws_prefix [c; d; e] =? 3)%nat then 3 else 0
              | [] => 0
              end
        | [] => 0
        end
  end.

Fixpoint strip_with (ws : str -> nat) (fuel : nat) (s : str) : str :=
  match fuel with
  | O => s
  | S fuel' =>
      match ws s with
      | O => s
      | k => strip_with ws fuel' (skipn k s)
      end
  end.

(** [s.strip()] *)
Definition strip (s : str) : str :=
  let l := strip_with ws_prefix (length s) s in
  rev (strip_with ws_suffix_rev (length l) (rev l)).

Record template := mkTemplate {
  template_path : str;
  attachment_dir : str;
  subject : str;
  content : str;
  is_html : bool;
  is_base64 : bool;
  attachments : list str }.

(** [os.path.join(a, b)] *)
Definition path_join (a b : str) : str :=
  if Str.startswith (lit "/") b then b
  else match rev a with
       | [] => b
       | c :: _ => if Ascii.eqb c "/" then a ++ b else a ++ lit "/" ++ b
       end.

(** [_validate_attachments]; [exists_] is [os.path.exists] on the file
    system of the run. *)
Definition missing_attachments (exists_ : str -> bool) (dir : str)
    (names : list str) : list str :=
  filter (fun a => negb (exists_ (path_join dir a))) names.

Definition missing_message (missing : list str) (dir : str) : str :=
  lit "Missing attachments: " ++ Str.join (lit ", ") missing ++
  lit " in directory " ++ dir.

Definition _validate_attachments (exists_ : str -> bool) (t : template)
  : result unit :=
  match attachments t with
  | [] => Ok tt
  | _ :: _ =>
      match missing_attachments exists_ (attachment_dir t) (attachments t) with
      | [] => Ok tt
      | missing =>
          Raise (FileNotFoundError (missing_message missing (attachment_dir t)))
      end
  end.

(** The state of the header loop of [_load_template]. *)
Record parse_state := mkParse {
  p_subject : str;
  p_is_html : bool;
  p_is_base64 : bool;
  p_attachments : list str;
  in_headers : bool;
  content_lines : list str }.

Definition parse_line (st : parse_state) (raw : str) : parse_state :=
  let line := strip raw in
  if in_headers st then
    if Str.startswith (lit "Subject:") line then
      mkParse (strip (Str.replace (lit "Subject:") [] line))
              (p_is_html st) (p_is_base64 st) (p_attachments st)
              true (content_lines st)
    else if Str.startswith (lit "Content-Type:") line then
      mkParse (p_subject st) (Str.contains (lit "html") (Str.lower line))
              (p_is_base64 st) (p_attachments st) true (content_lines st)
    else if Str.startswith (lit "Encoding:") line then
      mkParse (p_subject st) (p_is_html st)
              (Str.contains (lit "base64") (Str.lower line))
              (p_attachments st) true (content_lines st)
    else if Str.startswith (lit "Attachments:") line then
      match strip (Str.replace (lit "Attachments:") [] line) with
      | [] => st
      | names =>
          mkParse (p_subject st) (p_is_html st) (p_is_base64 st)
                  (map strip (Str.split_on "," names))
                  true (content_lines st)
      end
    else match line with
         | [] => mkParse (p_subject st) (p_is_html st) (p_is_base64 st)
                         (p_attachments st) false (content_lines st)
         | _ :: _ => st
         end
  else match line with
       | [] => st
       | _ :: _ => mkParse (p_subject st) (p_is_html st) (p_is_base64 st)
                           (p_attachments st) false (content_lines st ++ [line])
       end.

Definition parse_lines (lines : list str) : parse_state :=
  fold_left parse_line lines (mkParse [] false false [] true []).

Definition newline : str := ["010"%char].

(** [_load_template], run by the constructor of [EmailTemplate]: [lines]
    is what [readlines()] returns for the template file.  Base64 bodies are
    decoded first, the attachments are checked last. *)
Definition _load_template (exists_ : str -> bool) (path dir : str)
    (lines : list str) : result template :=
  let st := parse_lines lines in
  let joined := Str.join newline (content_lines st) in
  body <- (if p_is_base64 st
           then (raw <- Base64.b64decode joined ;; Base64.decode_utf8 raw)
           else Ok joined) ;;
  let t := mkTemplate path dir (p_subject st) body (p_is_html st)
                      (p_is_base64 st) (p_attachments st) in
  _ <- _validate_attachments exists_ t ;;
  Ok t.

Definition placeholder (key : str) : str := lit "{{." ++ key ++ lit "}}".

(** [replace_placeholders]; the dictionary is given by its items, in
    insertion order. *)
Definition replace_placeholders (t : template) (replacements : list (str * str))
  : str * str :=
  fold_left
    (fun sc kv =>
       (Str.replace (placeholder (fst kv)) (snd kv) (fst sc),
        Str.replace (placeholder (fst kv)) (snd kv) (snd sc)))
    replacements (subject t, content t).

(** [if line:] *)
Definition nonempty (l : str) : bool :=
  match l with
  | [] => false
  | _ :: _ => true
  end.

(** [get_attachment_paths] *)
Definition get_attachment_paths (t : template) : list str :=
  map (path_join (attachment_dir t)) (attachments t).

(** *** A template as the specification reads it, for comparison *)

(** A text is a sequence of plain characters and of placeholders. *)
Inductive piece :=
| Chr (c : ascii)
| Hole (name : str).

Definition text_of_piece (p : piece) : str :=
  match p with
  | Chr c => [c]
  | Hole name => placeholder name
  end.

Definition text_of (ps : list piece) : str := flat_map text_of_piece ps.

Fixpoint lookup (key : str) (m : list (str * str)) : option str :=
  match m with
  | [] => None
  | (k, v) :: m' => if Str.eqb k key then Some v else lookup key m'
  end.

(** Every placeholder whose name is a key gives way to the value of the
    key; everything else stays. *)
Definition fill (m : list (str * str)) (p : piece) : str :=
  match p with
  | Chr c => [c]
  | Hole name =>
      match lookup name m with
      | Some v => v
      | None => placeholder name
      end
  end.

Definition substitute (m : list (str * str)) (ps : list piece) : str :=
  flat_map (fill m) ps.

Definition without (c : ascii) (s : str) : Prop := Forall (fun x => x <> c) s.

(** The text of the pieces starts with an opening brace. *)
Definition starts_brace (ps : list piece) : Prop :=
  match ps with
  | [] => False
  | Chr c :: _ => c = "{"%char
  | Hole _ :: _ => True
  end.

(** Two opening braces in a row occur in the text only where a placeholder
    starts (a single brace may stand anywhere else), and the names of the
    placeholders hold no brace. *)
Fixpoint well_formed (ps : list piece) : Prop :=
  match ps with
  | [] => True
  | Chr c :: rest =>
      (c = "{"%char -> ~ starts_brace rest) /\ well_formed rest
  | Hole name :: rest =>
      without "{" name /\ without "}" name /\ well_formed rest
  end.

(** One entry of the dictionary applied to a text read in pieces. *)
Definition subst1 (key value : str) (ps : list piece) : list piece :=
  flat_map (fun p => match p with
                     | Chr _ => [p]
                     | Hole name =>
                         if Str.eqb name key then map Chr value else [p]
                     end) ps.

End Template.

(** ** email_sender.py: EmailSender *)

Module Sender.

(** What one pass through the transport code of an attempt ends in:
    the message is accepted, the session is dropped
    ([smtplib.SMTPServerDisconnected]), or any other exception. *)
Inductive outcome := Delivered | Disconnected | Faulted.

(** What the Tor control port does when a refresh is requested. *)
Inductive control := ControlOk | NoControlPort | AuthFails | SignalFails.

Inductive event :=
| Authenticate                (* [controller.authenticate()] succeeded *)
| SignalNewnym                (* [controller.signal(Signal.NEWNYM)] sent *)
| Settle (seconds : Q)        (* [time.sleep(circuit_build_timeout)] *)
| RetryWait (seconds : Q)     (* [time.sleep(retry_delay)] *)
| Attempt (o : outcome).      (* one run of the transport code *)

(** The part of [EmailConfig] the send path reads. *)
Record config := mkConfig {
  max_retries : Z;
  retry_delay : Q;
  force_tor : bool;
  circuit_build_timeout : Q }.

(** The surroundings of one [Send]: the outcome of the [i]-th transport
    attempt and of the [i]-th refresh request, counted from [0]. *)
Record world := mkWorld {
  transport : nat -> outcome;
  controller : nat -> control }.

(** What a send changes: the [use_tor] flag of the configuration, the
    numbers of transport attempts and refresh requests made so far, and
    the effects in the order they happened. *)
Record state := mkState {
  use_tor : bool;
  attempts : nat;
  refreshes : nat;
  trace : list event }.

Definition log (st : state) (evs : list event) : state :=
  mkState (use_tor st) (attempts st) (refreshes st) (trace st ++ evs).

Definition set_use_tor (b : bool) (st : state) : state :=
  mkState b (attempts st) (refreshes st) (trace st).

Definition refresh_failed : exn :=
  RuntimeError (lit "Failed to refresh Tor circuit").

(** [refresh_tor_circuit]: nothing in it looks at the time of an earlier
    refresh.  A settle wait that raises is a failed refresh like any
    other. *)
Definition refresh_tor_circuit (cfg : config) (w : world) (st : state)
  : result unit * state :=
  if negb (use_tor st) then (Ok tt, st)
  else
    let st' := mkState (use_tor st) (attempts st) (S (refreshes st))
                       (trace st) in
    let failed := if force_tor cfg then Raise refresh_failed else Ok tt in
    match controller w (refreshes st) with
    | ControlOk =>
        if Qle_bool 0 (circuit_build_timeout cfg)
        then (Ok tt, log st' [Authenticate; SignalNewnym;
                              Settle (circuit_build_timeout cfg)])
        else (failed, log st' [Authenticate; SignalNewnym])
    | NoControlPort => (failed, st')
    | AuthFails => (failed, st')
    | SignalFails => (failed, log st' [Authenticate])
    end.

Definition attempt (w : world) (st : state) : outcome * state :=
  let o := transport w (attempts st) in
  (o, mkState (use_tor st) (S (attempts st)) (refreshes st)
              (trace st ++ [Attempt o])).

(** Stands for the exception the transport code raised. *)
Definition delivery_failed : exn := TransportError (lit "delivery failed").

(** What [socket.socket = socket._socketobject] raises: the module
    [socket] of Python 3 has no such attribute. *)
Definition reset_failed : exn :=
  AttributeError (lit "module 'socket' has no attribute '_socketobject'").

(** The loop of [_send_via_smtp].  [remaining] is
    [max_retries - retry_count]: the loop runs while it is positive, and
    [retry_count < max_retries] after the increment reads [remaining' > 0].
    Falling out of the loop returns [None], like a delivery.  The retry
    wait and the socket reset are made inside the exception handlers, so
    what they raise leaves the function: the reset raises before
    [use_tor] is cleared. *)
Fixpoint smtp_loop (cfg : config) (w : world) (remaining : nat) (st : state)
  : result unit * state :=
  match remaining with
  | O => (Ok tt, st)
  | S remaining' =>
      let st1 :=
        if use_tor st then
          match refresh_tor_circuit cfg w st with
          | (Ok _, s) => s
          | (Raise _, s) =>
              if negb (force_tor cfg) then set_use_tor false s else s
          end
        else st in
      match attempt w st1 with
      | (Delivered, st2) => (Ok tt, st2)
      | (Disconnected, st2) =>
          match remaining' with
          | S _ =>
              if Qle_bool 0 (retry_delay cfg) then
                let st3 := log st2 [RetryWait (retry_delay cfg)] in
                if use_tor st3 then (Raise reset_failed, st3)
                else smtp_loop cfg w remaining' st3
              else (Raise negative_sleep, st2)
          | O => (Raise delivery_failed, st2)
          end
      | (Faulted, st2) =>
          match remaining' with
          | S _ =>
              if Qle_bool 0 (retry_delay cfg)
              then smtp_loop cfg w remaining'
                             (log st2 [RetryWait (retry_delay cfg)])
              else (Raise negative_sleep, st2)
          | O => (Raise delivery_failed, st2)
          end
      end
  end.

(** [_send_via_smtp] *)
Definition _send_via_smtp (cfg : config) (w : world) (st : state)
  : result unit * state :=
  smtp_loop cfg w (Z.to_nat (max_retries cfg)) st.

(** The loop of [_send_via_api]: here a refresh that raises is caught by
    the handler of the attempt and uses up a retry; after the last try the
    exception caught last is raised again. *)
Fixpoint api_loop (cfg : config) (w : world) (remaining : nat) (st : state)
  : result unit * state :=
  match remaining with
  | O => (Ok tt, st)
  | S remaining' =>
      let retry (e : exn) (s : state) :=
        match remaining' with
        | S _ =>
            if Qle_bool 0 (retry_delay cfg)
            then api_loop cfg w remaining'
                          (log s [RetryWait (retry_delay cfg)])
            else (Raise negative_sleep, s)
        | O => (Raise e, s)
        end in
      match (if use_tor st then refresh_tor_circuit cfg w st
             else (Ok tt, st)) with
      | (Raise e, st1) => retry e st1
      | (Ok _, st1) =>
          match attempt w st1 with
          | (Delivered, st2) => (Ok tt, st2)
          | (_, st2) => retry delivery_failed st2
          end
      end
  end.

(** [_send_via_api] *)
Definition _send_via_api (cfg : config) (w : world) (st : state)
  : result unit * state :=
  api_loop cfg w (Z.to_nat (max_retries cfg)) st.

(** *** What the specification says, for comparison *)

(** The transport attempts and the waits between them, out of a trace. *)
Definition pacing (tr : list event) : list event :=
  filter (fun e => match e with
                   | Attempt _ | RetryWait _ => true
                   | _ => false
                   end) tr.




Definition start (tor : bool) : state := mkState tor 0 0 [].

(** From [st] to [st'] routing ended up off, no refresh was requested and
    nothing happened but transport attempts and retry waits. *)
Definition unrouted_step (st st' : state) : Prop :=
  use_tor st' = false /\ refreshes st' = refreshes st /\
  exists evs, trace st' = trace st ++ evs /\ pacing evs = evs.

End Sender.

(** ** tor_handler.py *)

Module Tor.

Inductive event :=
| ProbeIp                     (* [_get_current_ip] *)
| Authenticate
| SignalNewnym
| Sleep (seconds : Q).

Record handler := mkHandler {
  enabled : bool;
  control_password : option str;
  refresh_interval : Q;
  circuit_timeout : Q;
  force_tor : bool;
  last_refresh : Q;
  current_ip : option str }.

(** What the network answers during one [refresh_circuit]: the address
    seen before and after ([None] when the probe fails) and the behaviour
    of the control port. *)
Record world := mkWorld {
  old_ip : option str;
  new_ip : option str;
  control : Sender.control }.

Definition opt_eqb (a b : option str) : bool :=
  match a, b with
  | Some x, Some y => Str.eqb x y
  | None, None => true
  | _, _ => false
  end.

Definition refresh_failed : exn :=
  RuntimeError (lit "Failed to refresh Tor circuit").

(** [refresh_circuit], called when [time.time()] reads [now]. *)
Definition refresh_circuit (h : handler) (now : Q) (w : world)
  : result bool * handler * list event :=
  if negb (enabled h) then (Ok false, h, [])
  else if Qlt_le_dec (now - last_refresh h) (refresh_interval h)
  then (Ok false, h, [])
  else
    let failed := if force_tor h then Raise refresh_failed else Ok false in
    match control w with
    | Sender.NoControlPort => (failed, h, [ProbeIp])
    | Sender.AuthFails => (failed, h, [ProbeIp])
    | Sender.SignalFails => (failed, h, [ProbeIp; Authenticate])
    | Sender.ControlOk =>
        let h1 := mkHandler (enabled h) (control_password h)
                            (refresh_interval h) (circuit_timeout h)
                            (force_tor h) now (current_ip h) in
        let evs := [ProbeIp; Authenticate; SignalNewnym;
                    Sleep (circuit_timeout h); ProbeIp] in
        if truthy (new_ip w) && negb (opt_eqb (new_ip w) (old_ip w))
        then (Ok true,
              mkHandler (enabled h) (control_password h) (refresh_interval h)
                        (circuit_timeout h) (force_tor h) now (new_ip w),
              evs)
        else (Ok false, h1, evs)
    end.

(** *** Verifying the connection *)

(** What the identity-checking endpoint answers to one probe: the traffic
    is routed through Tor, it is not, or the request fails. *)
Inductive answer := IsTor | NotTor | NoAnswer.

Inductive check_event :=
| Probe (a : answer)          (* one request to the checking endpoint *)
| Wait (seconds : Q).         (* [time.sleep(self.retry_delay)] *)

(** The fields of the handler [_test_tor_connection] reads. *)
Record probing := mkProbing {
  max_retries : Z;
  retry_delay : Q }.

(** [str(n)] for an integer. *)
Definition decimal (n : Z) : str := lit (NilZero.string_of_int (Z.to_int n)).

Definition not_verified (p : probing) : exn :=
  RuntimeError (lit "Failed to verify Tor connection after "
                ++ decimal (max_retries p) ++ lit " attempts").

(** The loop of [_test_tor_connection]; [remaining] is
    [max_retries - retry_count], [answers i] the outcome of the [i]-th
    probe and [n] the number of probes made so far.  The function returns
    [True] after a confirming probe; falling out of the loop returns
    [None].  The wait is made inside the exception handler, so what it
    raises leaves the function. *)
Fixpoint test_loop (p : probing) (answers : nat -> answer) (remaining n : nat)
  : result (option bool) * nat * list check_event :=
  match remaining with
  | O => (Ok None, n, [])
  | S remaining' =>
      match answers n with
      | IsTor => (Ok (Some true), S n, [Probe IsTor])
      | a =>
          match remaining' with
          | S _ =>
              if Qle_bool 0 (retry_delay p) then
                let '(r, n', evs) := test_loop p answers remaining' (S n) in
                (r, n', Probe a :: Wait (retry_delay p) :: evs)
              else (Raise negative_sleep, S n,
                    [Probe a; Wait (retry_delay p)])
          | O => (Raise (not_verified p), S n, [Probe a])
          end
      end
  end.

(** [_test_tor_connection] *)
Definition _test_tor_connection (p : probing) (answers : nat -> answer)
  : result (option bool) * nat * list check_event :=
  test_loop p answers (Z.to_nat (max_retries p)) 0.

(** The message of the source also quotes the cause. *)
Definition verification_failed : exn :=
  RuntimeError (lit "Tor connection verification failed").

(** [verify_connection]: [original_ip] is the address the direct request
    reports ([None] when that request fails), [tor_ip] what
    [_get_current_ip] returns, [now] the clock reading [refresh_circuit]
    takes. *)
Definition verify_connection (h : handler) (p : probing)
    (answers : nat -> answer) (original_ip tor_ip : option str) (now : Q)
    (w : world) : result bool * handler :=
  let failed := if force_tor h then Raise verification_failed
                else Ok false in
  match _test_tor_connection p answers with
  | (Raise _, _, _) => (failed, h)
  | (Ok _, _, _) =>
      match original_ip with
      | None => (failed, h)
      | Some ip =>
          if opt_eqb (Some ip) tor_ip then (failed, h)
          else
            match refresh_circuit h now w with
            | (Ok true, h', _) => (Ok true, h')
            | (_, h', _) => (failed, h')
            end
      end
  end.

End Tor.

(** ** main.py: the dispatch loop of send_campaign *)

Module Campaign.

Inductive event :=
| LoadTemplate (name : str)                 (* [EmailTemplate(...)] built *)
| Send (template recipient : str) (ok : bool)  (* [send_email] returned or raised *)
| DelayEmail (seconds : Q)                  (* [delay_between_emails] *)
| DelayBatch (seconds : Q).                 (* [delay_between_batches] *)

Record settings := mkSettings {
  batch_size : Z;
  delay_between_emails : Q;
  delay_between_batches : Q }.

(** The surroundings of a run: whether a template file loads, and whether
    the [n]-th call of [send_email] returns. *)
Record world := mkWorld {
  loads : str -> bool;
  send_email : nat -> str -> str -> bool }.

(** [for recipient in batch]: a send that raises is logged and the loop
    goes on; the pause follows a send that returned, and a pause that
    raises is caught and logged like a send that raised.  [n] counts the
    calls of [send_email]. *)
Fixpoint send_batch (cfg : settings) (w : world) (template : str)
    (batch : list str) (n : nat) : list event * nat :=
  match batch with
  | [] => ([], n)
  | recipient :: rest =>
      let ok := send_email w n template recipient in
      let evs := if ok then [Send template recipient true;
                             DelayEmail (delay_between_emails cfg)]
                 else [Send template recipient false] in
      let (evs', n') := send_batch cfg w template rest (S n) in
      (evs ++ evs', n')
  end.

(** [for i in range(0, len(recipients), batch_size)] for a positive step:
    [i] is the start of the batch, [fuel] bounds the number of batches.
    The pause between batches is made outside the handler of the sends:
    what it raises ends the run. *)
Fixpoint send_batches (cfg : settings) (w : world) (template : str)
    (recipients : list str) (fuel : nat) (i : Z) (n : nat)
  : result unit * list event * nat :=
  match fuel with
  | O => (Ok tt, [], n)
  | S fuel' =>
      if (i <? Z.of_nat (length recipients))%Z then
        let batch := firstn (Z.to_nat (batch_size cfg))
                            (skipn (Z.to_nat i) recipients) in
        let (evs, n1) := send_batch cfg w template batch n in
        let more := (i + batch_size cfg <? Z.of_nat (length recipients))%Z in
        if more && negb (Qle_bool 0 (delay_between_batches cfg))
        then (Raise negative_sleep, evs, n1)
        else
          let pause :=
            if more then [DelayBatch (delay_between_batches cfg)] else [] in
          let '(r, evs', n2) :=
            send_batches cfg w template recipients fuel'
                         (i + batch_size cfg)%Z n1 in
          (r, evs ++ pause ++ evs', n2)
      else (Ok tt, [], n)
  end.

Definition range_step_zero : exn :=
  ValueError (lit "range() arg 3 must not be zero").
Definition template_failed : exn :=
  FileNotFoundError (lit "template could not be loaded").

(** [for template_name in templates]: the body of the loop of
    [send_campaign].  A template that fails to load and a zero batch size
    raise out of the loop; a negative batch size gives an empty range. *)
Fixpoint send_templates (cfg : settings) (w : world) (templates : list str)
    (recipients : list str) (n : nat) : result unit * list event :=
  match templates with
  | [] => (Ok tt, [])
  | name :: rest =>
      if negb (loads w name) then (Raise template_failed, [])
      else if (batch_size cfg =? 0)%Z
      then (Raise range_step_zero, [LoadTemplate name])
      else
        let '(sent, evs, n') :=
          if (0 <? batch_size cfg)%Z
          then send_batches cfg w name recipients (length recipients) 0%Z n
          else (Ok tt, [], n) in
        match sent with
        | Raise e => (Raise e, LoadTemplate name :: evs)
        | Ok _ =>
            let (r, evs') := send_templates cfg w rest recipients n' in
            (r, LoadTemplate name :: evs ++ evs')
        end
  end.

(** *** Recipients *)

(** A JSON object of the recipients file as [json.load] returns it: a
    dictionary from keys to texts, given by its items. *)
Definition record := list (str * str).

Definition has_field (r : record) (field : str) : bool :=
  existsb (fun kv => Str.eqb (fst kv) field) r.

(** [r.get(field, default)] *)
Fixpoint get (r : record) (field default : str) : str :=
  match r with
  | [] => default
  | (k, v) :: r' => if Str.eqb k field then v else get r' field default
  end.

Definition required_fields : list str :=
  [lit "email"; lit "first_name"; lit "last_name"].

(** The text Python prints for a list of these field names. *)
Definition repr_fields (fields : list str) : str :=
  lit "[" ++ Str.join (lit ", ") (map (fun f => lit "'" ++ f ++ lit "'") fields)
  ++ lit "]".

Definition missing_fields (r : record) : list str :=
  filter (fun f => negb (has_field r f)) required_fields.

(** The loop of [load_recipients] over the targets. *)
Fixpoint check_targets (targets : list record) : result unit :=
  match targets with
  | [] => Ok tt
  | r :: rest =>
      match missing_fields r with
      | [] => check_targets rest
      | missing =>
          Raise (ValueError
                   (lit "Recipient " ++ get r (lit "email") (lit "unknown")
                    ++ lit " missing required fields: " ++ repr_fields missing))
      end
  end.

(** [load_recipients] for a file that, when it exists, holds a JSON
    object: [file] is [None] when the path does not exist, else the list of
    objects found under the key [targets], if any. *)
Definition load_recipients (recipients_path : str)
    (file : option (option (list record))) : result (list record) :=
  match file with
  | None =>
      Raise (FileNotFoundError
               (lit "Recipients file not found: " ++ recipients_path))
  | Some None =>
      Raise (ValueError
               (lit "Recipients configuration must contain 'targets' key"))
  | Some (Some targets) => _ <- check_targets targets ;; Ok targets
  end.

(** [send_campaign] from the test-mode cut to the end of the loop: in test
    mode only the first recipient is kept. *)
Definition dispatch (cfg : settings) (w : world) (test_mode : bool)
    (templates recipients : list str) : result unit * list event :=
  let recipients := if test_mode then firstn 1 recipients else recipients in
  send_templates cfg w templates recipients 0.

(** *** What the specification says, for comparison *)

(** The order of work in a trace: templates loaded, messages handed to
    [send_email] (whatever the result) and waits between batches. *)
Inductive step :=
| Load (name : str)
| Deliver (template recipient : str)
| BatchPause (seconds : Q).

Definition skeleton (tr : list event) : list step :=
  flat_map (fun e => match e with
                     | LoadTemplate t => [Load t]
                     | Send t r _ => [Deliver t r]
                     | DelayEmail _ => []
                     | DelayBatch d => [BatchPause d]
                     end) tr.

(** The recipient list cut into batches of [size]. *)
Fixpoint chunks (fuel size : nat) (l : list str) : list (list str) :=
  match fuel, l with
  | S fuel', _ :: _ => firstn size l :: chunks fuel' size (skipn size l)
  | _, _ => []
  end.

(** The batches one after the other, with [pause] between two consecutive
    ones and nothing after the last. *)
Fixpoint between_batches (pause : list step) (batches : list (list step))
  : list step :=
  match batches with
  | [] => []
  | [b] => b
  | b :: rest => b ++ pause ++ between_batches pause rest
  end.

Definition template_steps (cfg : settings) (recipients : list str)
    (template : str) : list step :=
  Load template ::
  between_batches [BatchPause (delay_between_batches cfg)]
    (map (map (Deliver template))
         (chunks (length recipients) (Z.to_nat (batch_size cfg)) recipients)).

(** The templates up to the first that fails to load. *)
Fixpoint loaded (w : world) (templates : list str) : list str :=
  match templates with
  | [] => []
  | t :: rest => if loads w t then t :: loaded w rest else []
  end.

(** The sends that returned and the pauses after a message, in a trace. *)
Definition returned (tr : list event) : nat :=
  length (filter (fun e => match e with
                           | Send _ _ true => true
                           | _ => false
                           end) tr).

Definition email_pauses (tr : list event) : nat :=
  length (filter (fun e => match e with
                           | DelayEmail _ => true
                           | _ => false
                           end) tr).


End Campaign.

(** ** Concrete stores and inputs used in the examples below *)

(** ** email_sender.py: what [send_email] puts into a message *)

Module Message.

(** A recipient that [load_recipients] let through: the three keys
    [send_email] reads, all present. *)
Record recipient := mkRecipient {
  email : str;
  first_name : str;
  last_name : str }.

(** [x or default] *)
Definition or_else (x : option str) (default : str) : str :=
  match x with
  | Some (c :: s) => c :: s
  | _ => default
  end.

(** The dictionary of replacements, by its items in insertion order;
    [landing_page] is [self.config.urls.get('landing_page', '')]. *)
Definition replacements (r : recipient) (url tracking_url : option str)
    (landing_page : str) : list (str * str) :=
  [ (lit "FirstName", first_name r);
    (lit "LastName", last_name r);
    (lit "Email", email r);
    (lit "URL", or_else url landing_page);
    (lit "TrackingURL", or_else tracking_url []) ].

Definition body_close : str := lit "</body>".

(** What [send_email] has prepared when it starts to build the MIME
    message. *)
Record prepared := mkPrepared {
  store : Tracking.db;
  email_id : option str;
  m_subject : str;
  m_content : str }.

(** [send_email] up to the creation of the message.  [tracker] tells
    whether [self.tracker] is set, [d] is the tracking store, [uuid_email]
    and [uuid_pixel] are the values the two calls of [uuid.uuid4()] return
    and [now] is the clock reading. *)
Definition prepare (tracker : bool) (d : Tracking.db) (t : Template.template)
    (r : recipient) (url tracking_url campaign_id : option str)
    (landing_page uuid_email uuid_pixel now : str) : result prepared :=
  sent <- (match campaign_id with
           | Some (c :: campaign) =>
               if tracker then
                 x <- Tracking.track_email_send d (email r)
                        (Template.template_path t) (c :: campaign) None
                        uuid_email now ;;
                 Ok (fst x, Some (snd x))
               else Ok (d, None)
           | _ => Ok (d, None)
           end) ;;
  let d1 := fst sent in
  let eid := snd sent in
  let sc := Template.replace_placeholders t
              (replacements r url tracking_url landing_page) in
  match eid, tracking_url with
  | Some (e :: id), Some (u :: dom) =>
      if tracker then
        content <- Tracking.generate_tracking_links (snd sc) (e :: id)
                     (u :: dom) ;;
        px <- Tracking.generate_tracking_pixel d1 (e :: id) (u :: dom)
                uuid_pixel ;;
        Ok (mkPrepared (fst px) eid (fst sc)
              (if Template.is_html t
               then Str.replace body_close (snd px ++ body_close) content
               else content))
      else Ok (mkPrepared d1 eid (fst sc) (snd sc))
  | _, _ => Ok (mkPrepared d1 eid (fst sc) (snd sc))
  end.

End Message.

Module Sample.

Definition mail1 : Tracking.email_row :=
  Tracking.mkEmail (lit "m1") (lit "c1") (lit "ann@example.org")
                   (lit "templates/hello.html")
                   (lit "2024-05-01T10:00:00.000000") (lit "sent")
                   (Some (lit "p1")) None None.

Definition mail2 : Tracking.email_row :=
  Tracking.mkEmail (lit "m2") (lit "c1") (lit "bob@example.org")
                   (lit "templates/hello.html")
                   (lit "2024-05-01T10:00:01.000000") (lit "sent")
                   (Some (lit "p2")) None None.

(** A store in which two messages of campaign [c1] were recorded and
    nothing was opened yet. *)
Definition store : Tracking.db := Tracking.mkDb [mail1; mail2] [] [] [].

Definition agent : option str := Some (lit "Mozilla/5.0 (iPhone)").
Definition address : option str := Some (lit "10.0.0.7").

Definition first_open : Tracking.call :=
  Tracking.TrackOpen (lit "p1") agent address None (lit "o1")
                     (lit "2024-05-01T11:00:00.000000").

Definition second_open : Tracking.call :=
  Tracking.TrackOpen (lit "p1") agent address None (lit "o2")
                     (lit "2024-05-01T12:00:00.000000").

Definition a_click : Tracking.call :=
  Tracking.TrackClick (lit "m1") (lit "http://example.org/") agent address
                      None (lit "k1") (lit "2024-05-01T11:30:00.000000").

Definition opened_once : Tracking.db := Tracking.run_all [first_open] store.

Definition stats_of (d : Tracking.db) : result Tracking.stats :=
  Tracking.get_campaign_stats d (lit "c1") None None
                              (lit "2024-05-02T00:00:00.000000").

(** A send configuration with three tries, five seconds apart. *)
Definition three_tries : Sender.config := Sender.mkConfig 3 5 false 10.

(** A transport that fails once and then delivers, one that never delivers,
    one that always delivers; a control port that cooperates and one that
    is closed. *)
Definition second_time : Sender.world :=
  Sender.mkWorld (fun i => match i with
                           | O => Sender.Faulted
                           | _ => Sender.Delivered
                           end)
                 (fun _ => Sender.ControlOk).

(** A rotator refreshed at second 1000, asked again 30 seconds later. *)
Definition rotator : Tor.handler :=
  Tor.mkHandler true None 600 10 false 1000 (Some (lit "185.220.101.1")).
Definition exit_changes : Tor.world :=
  Tor.mkWorld (Some (lit "185.220.101.1")) (Some (lit "185.220.101.2"))
              Sender.ControlOk.

(** The scenario of the specification: two templates, three recipients,
    batches of two; the second send of the run fails. *)
Definition scenario : Campaign.settings := Campaign.mkSettings 2 1 5.
Definition two_templates : list str := [lit "t1.html"; lit "t2.txt"].
Definition three_recipients : list str :=
  [lit "ann@example.org"; lit "bob@example.org"; lit "cy@example.org"].
Definition second_send_fails : Campaign.world :=
  Campaign.mkWorld (fun _ => true)
                   (fun n _ _ => negb (Nat.eqb n 1)).

(** A template file with a base64 body that does not decode and an
    attachment, in a directory where no file exists; and one whose body is
    plain. *)
Definition file_lines (lines : list string) : list str :=
  map (fun l => lit l ++ ["010"%char]) lines.
Definition broken_body : list str :=
  file_lines [ "Subject: Invoice"; "Encoding: base64";
               "Attachments: a.pdf, b.pdf"; ""; "QQ" ].
Definition plain_body : list str :=
  file_lines [ "Subject: Invoice"; "Attachments: a.pdf, b.pdf"; "";
               "Dear {{.FirstName}}," ].
Definition empty_directory : str -> bool := fun _ => false.
Definition only_b : str -> bool :=
  fun path => Str.eqb path (lit "attachments/b.pdf").

(** A greeting, and a recipient whose first name is itself a placeholder. *)
Definition greeting : Template.template :=
  Template.mkTemplate (lit "t.txt") (lit "attachments")
                      (lit "Hi {{.FirstName}}")
                      (lit "Dear {{.FirstName}} {{.LastName}} {{.Nick}}")
                      false false [].
Definition greeting_subject : list Template.piece :=
  map Template.Chr (lit "Hi ") ++ [Template.Hole (lit "FirstName")].
Definition greeting_content : list Template.piece :=
  map Template.Chr (lit "Dear ") ++ [Template.Hole (lit "FirstName")]
  ++ [Template.Chr " "] ++ [Template.Hole (lit "LastName")]
  ++ [Template.Chr " "] ++ [Template.Hole (lit "Nick")].
Definition honest : list (str * str) :=
  [(lit "FirstName", lit "Ann"); (lit "LastName", lit "Lee")].
Definition crafted : list (str * str) :=
  [(lit "FirstName", lit "{{.LastName}}"); (lit "LastName", lit "Lee")].

(** A bounce of the first message, a click for an identifier of no
    message, and the store [opened_once] purged of what was sent before
    half a second past ten. *)
Definition a_bounce : Tracking.call :=
  Tracking.TrackBounce (lit "m1") (lit "hard") (lit "mailbox full") None
                       (lit "b1") (lit "2024-05-01T13:00:00.000000").
Definition bounced_once : Tracking.db := Tracking.run_all [a_bounce] store.
Definition stray_click : Tracking.db :=
  Tracking.run_all
    [Tracking.TrackClick (lit "m9") (lit "http://example.org/") agent address
                         None (lit "k1") (lit "2024-05-01T11:30:00.000000")]
    store.
Definition purged : Tracking.db := Tracking.mkDb [mail2] [] [] [].

(** A message recorded without a beacon, before and after one is minted. *)
Definition mail3 : Tracking.email_row :=
  Tracking.mkEmail (lit "m3") (lit "c2") (lit "cy@example.org")
                   (lit "templates/hello.html")
                   (lit "2024-05-01T10:00:02.000000") (lit "sent")
                   None None None.
Definition untracked : Tracking.db := Tracking.mkDb [mail3] [] [] [].
Definition tracked : Tracking.db :=
  Tracking.mkDb [Tracking.set_pixel (lit "p3") mail3] [] [] [].

(** A handler that probes at most three times, five seconds apart; an
    endpoint that confirms at the third probe. *)
Definition three_probes : Tor.probing := Tor.mkProbing 3 5.
Definition third_confirms : nat -> Tor.answer :=
  fun i => match i with
           | 0 => Tor.NoAnswer
           | 1 => Tor.NotTor
           | _ => Tor.IsTor
           end.

(** A handler whose interval has run out, and a control port that is
    closed. *)
Definition due : Tor.handler :=
  Tor.mkHandler true None 600 10 false 100 (Some (lit "185.220.101.1")).
Definition same_exit : Tor.world :=
  Tor.mkWorld (Some (lit "185.220.101.1")) (Some (lit "185.220.101.1"))
              Sender.ControlOk.
Definition port_open : Tor.world :=
  Tor.mkWorld (Some (lit "185.220.101.1")) (Some (lit "185.220.101.2"))
              Sender.ControlOk.
Definition port_closed : Tor.world :=
  Tor.mkWorld (Some (lit "185.220.101.1")) (Some (lit "185.220.101.2"))
              Sender.NoControlPort.

Definition direct_address : option str := Some (lit "203.0.113.9").


(** Batches of a size that is no size. *)
Definition no_batches : Campaign.settings := Campaign.mkSettings 0 1 5.
Definition backwards : Campaign.settings := Campaign.mkSettings (-2) 1 5.
Definition all_fine : Campaign.world :=
  Campaign.mkWorld (fun _ => true) (fun _ _ _ => true).

(** Recipients: one complete, one without a last name. *)
Definition ann : Campaign.record :=
  [(lit "email", lit "ann@example.org"); (lit "first_name", lit "Ann");
   (lit "last_name", lit "Lee")].
Definition bob : Campaign.record :=
  [(lit "email", lit "bob@example.org"); (lit "first_name", lit "Bob")].

(** A template file whose body repeats a header line. *)
Definition header_in_body : list str :=
  file_lines [ "Subject: Invoice"; ""; "Subject: Hello"; "Encoding: base64" ].
Definition everything_there : str -> bool := fun _ => true.

(** A message to Ann from a plain-text template and from an HTML template
    without a closing body tag. *)
Definition to_ann : Message.recipient :=
  Message.mkRecipient (lit "ann@example.org") (lit "Ann") (lit "Lee").
Definition plain_mail : Template.template :=
  Template.mkTemplate (lit "templates/hello.txt") (lit "attachments")
                      (lit "Hi {{.FirstName}}")
                      (lit "Dear {{.FirstName}}, see {{.URL}}")
                      false false [].
Definition html_fragment : Template.template :=
  Template.mkTemplate (lit "templates/hello.html") (lit "attachments")
                      (lit "Hi {{.FirstName}}")
                      (lit "<p>Dear {{.FirstName}}</p>")
                      true false [].

Definition hasty_batches : Campaign.settings := Campaign.mkSettings 2 1 (-5).

(** A page with a style sheet, whose braces are no placeholders. *)
Definition styled : Template.template :=
  Template.mkTemplate (lit "t.html") (lit "attachments")
                      (lit "Hi {{.FirstName}}")
                      (lit "<style>p{color:red}</style>Dear {{.FirstName}}")
                      true false [].
Definition styled_content : list Template.piece :=
  map Template.Chr (lit "<style>p{color:red}</style>Dear ")
  ++ [Template.Hole (lit "FirstName")].

(** A page with one link. *)
Definition one_link : str :=
  lit "<a " ++ Tracking.href_open ++ lit "http://example.org/a?b=1"
  ++ Tracking.quote ++ lit ">here</a>".

End Sample.

(** * Properties *)

(** ** Library models against known values *)

Example sha256_abc :
  SHA256.hexdigest (lit "abc")
  = lit "ba7816bf8f01cfea414140de5dae2223b00361a396177a9cb410ff61f20015ad".
Proof. vm_compute. reflexivity. Qed.

Example sha256_empty :
  SHA256.hexdigest []
  = lit "e3b0c44298fc1c149afbf4c8996fb92427ae41e4649b934ca495991b7852b855".
Proof. vm_compute. reflexivity. Qed.

Example sha256_two_blocks :
  SHA256.hexdigest (repeat "a"%char 56)
  = lit "b35439a4ac6f0948b6d6f9e3c6af0f5f590ce20f1bde7090ef7970686ec6738a".
Proof. vm_compute. reflexivity. Qed.

Example strip_ascii :
  Template.strip (lit "  a xy ") = lit "a xy".
Proof. reflexivity. Qed.

Example strip_no_break_space :
  Template.strip (["194"; "160"; "a"; " "; "b"; "226"; "128"; "137"]%char)
  = lit "a b".
Proof. reflexivity. Qed.

Example b64decode_hello :
  Base64.b64decode (lit "SGVsbG8=") = Ok (lit "Hello").
Proof. reflexivity. Qed.

Example b64decode_incomplete :
  Base64.b64decode (lit "QQ") = Raise BinasciiError.
Proof. reflexivity. Qed.

Arguments SHA256.hexdigest : simpl never.

Lemma hexdigest_length data : length (SHA256.hexdigest data) = 64.
Proof.
  unfold SHA256.hexdigest, SHA256.hex_word.
  repeat rewrite length_app. repeat rewrite length_map. reflexivity.
Qed.

(** ** Strings *)

Lemma str_eqb_eq (a b : str) : Str.eqb a b = true <-> a = b.
Proof.
  revert b. induction a as [|x a IH]; intros [|y b]; simpl;
    try (split; congruence).
  rewrite andb_true_iff, Ascii.eqb_eq, IH. split.
  - intros [-> ->]. reflexivity.
  - intros H. injection H as -> ->. split; reflexivity.
Qed.

Lemma str_eqb_refl (a : str) : Str.eqb a a = true.
Proof. apply str_eqb_eq. reflexivity. Qed.

Lemma str_eqb_neq (a b : str) : Str.eqb a b = false <-> a <> b.
Proof.
  rewrite <- str_eqb_eq. destruct (Str.eqb a b); split; congruence.
Qed.

Lemma str_eqb_sym_aux (a b : str) : Str.eqb a b = Str.eqb b a.
Proof.
  destruct (Str.eqb a b) eqn:E.
  - apply str_eqb_eq in E. subst. symmetry. apply str_eqb_refl.
  - symmetry. apply str_eqb_neq. apply str_eqb_neq in E. congruence.
Qed.

(** ** The tracking store *)

Section TrackingFacts.
Import Tracking.

Lemma count_distinct_ext (l1 l2 : list str) :
  (forall x, In x l1 <-> In x l2) -> count_distinct l1 = count_distinct l2.
Proof.
  intros H. unfold count_distinct. apply Nat.le_antisymm;
    apply NoDup_incl_length; try apply NoDup_nodup;
    intros x Hx; apply nodup_In; apply nodup_In in Hx; apply H; exact Hx.
Qed.

(** The left side of a left join holds the left table's rows, whatever the
    right table is. *)
Lemma left_join_ids {R} (fk : R -> str) (sel : email_row -> bool)
    (es : list email_row) (t : list R) (x : str) :
  In x (map (fun r => email_id (fst r))
            (filter (fun r => sel (fst r)) (left_join fk es t)))
  <-> In x (map email_id (filter sel es)).
Proof.
  unfold left_join. induction es as [|e es IH]; simpl; [tauto|].
  rewrite filter_app, map_app, in_app_iff, IH. clear IH.
  destruct (filter (fun y => Str.eqb (email_id e) (fk y)) t) as [|y m];
    simpl.
  - destruct (sel e); simpl; intuition congruence.
  - destruct (sel e) eqn:E; simpl.
    + split; [intros [[H|H]|H]|intros [H|H]]; auto.
      apply in_map_iff in H as [[e' o] [Hx Hin]].
      apply filter_In in Hin as [Hin _].
      apply in_map_iff in Hin as [z [Hz _]]. inversion Hz; subst. auto.
    + split; [intros [H|H]|intros H]; auto.
      apply in_map_iff in H as [[e' o] [Hx Hin]].
      apply filter_In in Hin as [Hin Hs].
      apply in_map_iff in Hin as [z [Hz _]]. inversion Hz; subst.
      simpl in Hs. congruence.
Qed.

Lemma rate_ok (a b : nat) : exists q, rate a b = Ok q.
Proof.
  unfold rate, truediv. destruct b; simpl; eauto.
Qed.

Lemma rate_zero (a : nat) : rate a 0 = Ok 0%Q.
Proof. reflexivity. Qed.

(** [get_campaign_stats] never raises, and its [unique_opens] is the
    number of selected messages: the opens table plays no part in it. *)
Lemma stats_total (d : db) campaign start_date end_date now :
  exists st, get_campaign_stats d campaign start_date end_date now = Ok st.
Proof.
  unfold get_campaign_stats.
  repeat match goal with
  | |- context [rate ?a ?b] =>
      let q := fresh "q" in let E := fresh "E" in
      destruct (rate_ok a b) as [q E]; rewrite E; clear E; simpl
  end.
  eauto.
Qed.

Lemma unique_opens_ignores_opens (d : db) campaign start_date end_date now st :
  get_campaign_stats d campaign start_date end_date now = Ok st ->
  unique_opens st
  = count_distinct
      (map email_id (filter (selected campaign start_date end_date) (emails d))).
Proof.
  unfold get_campaign_stats.
  repeat match goal with
  | |- context [rate ?a ?b] =>
      let q := fresh "q" in let E := fresh "E" in
      destruct (rate_ok a b) as [q E]; rewrite E; clear E; simpl
  end.
  intros H. inversion H; subst; clear H. simpl.
  apply count_distinct_ext. intros x. apply left_join_ids.
Qed.

Lemma rate_percentage (a b : nat) : rate a b = Ok (percentage a b).
Proof. destruct b; reflexivity. Qed.

Lemma stats_fields (d : db) campaign start_date end_date now st :
  get_campaign_stats d campaign start_date end_date now = Ok st ->
  bounce_rate st = percentage (st_bounces st) (total_sent st) /\
  open_rate st = percentage (unique_opens st) (total_sent st) /\
  click_rate st = percentage (unique_clicks st) (total_sent st) /\
  click_to_open_rate st = percentage (unique_clicks st) (unique_opens st) /\
  total_sent st
  = length (filter (selected campaign start_date end_date) (emails d)).
Proof.
  unfold get_campaign_stats. rewrite !rate_percentage. simpl.
  intros H. inversion H; subst; clear H. simpl. repeat split.
Qed.

(** A successful insert appends exactly the new row. *)
Lemma insert_ok {R} (key : R -> str) (r : R) (t t' : list R) :
  insert key r t = Ok t' -> t' = t ++ [r].
Proof.
  unfold insert. destruct (has_key key (key r) t); congruence.
Qed.

Lemma wrap_runtime_ok {A} msg (r : result A) (a : A) :
  wrap_runtime msg r = Ok a -> r = Ok a.
Proof. destruct r; simpl; congruence. Qed.

Lemma hash_ip_digest (ip : option str) :
  digest_of ip (if truthy ip then _hash_ip ip else None).
Proof.
  destruct ip as [[|c r]|]; try reflexivity.
  cbn [truthy _hash_ip digest_of]. split; [reflexivity|].
  intros Hlen H. apply Hlen.
  assert (E : SHA256.hexdigest (c :: r) = c :: r) by congruence.
  rewrite <- E at 1. apply hexdigest_length.
Qed.

(** Which rows a successful call adds to the two event tables. *)
Lemma run_new_events (c : call) (d d' : db) :
  run c d = Ok d' ->
  (forall o, In o (opens d') ->
     In o (opens d) \/
     exists p ua ip co u n,
       c = TrackOpen p ua ip co u n /\ digest_of ip (o_ip_address o)) /\
  (forall k, In k (clicks d') ->
     In k (clicks d) \/
     exists e url ua ip co u n,
       c = TrackClick e url ua ip co u n /\ digest_of ip (c_ip_address k)).
Proof.
  destruct c; simpl; intros H.
  - inversion H; subst. simpl. split; intros ? [].
  - unfold track_email_send in H.
    destruct (insert _ _ _); simpl in H; inversion H; subst; simpl; auto.
  - unfold create_tracking_pixel in H.
    destruct (distinct _); simpl in H; inversion H; subst; simpl; auto.
  - unfold track_open in H. apply wrap_runtime_ok in H.
    destruct (email_of_pixel d pixel_id) as [eid|];
      [|inversion H; subst; auto].
    destruct (insert _ _ _) as [os|] eqn:E; simpl in H; inversion H; subst.
    apply insert_ok in E. subst os. simpl. split; auto.
    intros o Ho. apply in_app_iff in Ho as [Ho|[<-|[]]]; auto.
    right. repeat eexists. simpl. apply hash_ip_digest.
  - unfold track_click in H. apply wrap_runtime_ok in H.
    destruct (insert _ _ _) as [cs|] eqn:E; simpl in H; inversion H; subst.
    apply insert_ok in E. subst cs. simpl. split; auto.
    intros k Hk. apply in_app_iff in Hk as [Hk|[<-|[]]]; auto.
    right. repeat eexists. simpl. apply hash_ip_digest.
  - unfold track_bounce in H.
    destruct (insert _ _ _); simpl in H; inversion H; subst; simpl; auto.
  - unfold cleanup_old_data in H. simpl in H. inversion H; subst; simpl.
    split; intros x Hx; left; apply filter_In in Hx; tauto.
Qed.

(** The row [track_open] adds, column by column. *)
Lemma open_row_known (d d' : db) p ua ip co u n :
  run (TrackOpen p ua ip co u n) d = Ok d' ->
  emails d' = emails d /\ clicks d' = clicks d /\ bounces d' = bounces d /\
  (opens d' = opens d \/
   exists eid,
     opens d' = opens d ++ [mkOpen u eid n ua (stored_address ip) co
                              (_detect_device_type ua)
                              (_parse_client_info ua)]).
Proof.
  cbn [run]. intros H. unfold track_open in H. apply wrap_runtime_ok in H.
  destruct (email_of_pixel d p) as [eid|];
    [|inversion H; subst; auto].
  destruct (insert _ _ _) as [os|] eqn:E; simpl in H; inversion H; subst.
  apply insert_ok in E. subst os. cbn [emails opens clicks bounces].
  repeat (split; [reflexivity|]). right. exists eid. reflexivity.
Qed.

Lemma click_row_known (d d' : db) e url ua ip co u n :
  run (TrackClick e url ua ip co u n) d = Ok d' ->
  emails d' = emails d /\ opens d' = opens d /\ bounces d' = bounces d /\
  clicks d' = clicks d ++ [mkClick u e url n ua (stored_address ip) co
                             (_detect_device_type ua)].
Proof.
  cbn [run]. intros H. unfold track_click in H. apply wrap_runtime_ok in H.
  destruct (insert _ _ _) as [cs|] eqn:E; simpl in H; inversion H; subst.
  apply insert_ok in E. subst cs. cbn [emails opens clicks bounces].
  repeat split.
Qed.

(** What a call does is a function of the digest of the client address. *)
Lemma address_through_digest (c : call) (d : db) :
  exists f : option str -> result db,
    forall ip, run (with_address ip c) d = f (stored_address ip).
Proof.
  destruct c as [| | |p ua ip0 co u n|e url ua ip0 co u n| |];
    try (match goal with
         | |- exists f, forall ip, run (with_address ip ?c) d = _ =>
             exists (fun _ => run c d); intros ip; reflexivity
         end).
  - exists (fun h =>
      wrap_runtime "Failed to track email open"
        (match email_of_pixel d p with
         | Some eid =>
             os <- insert open_id
                     (mkOpen u eid n ua h co (_detect_device_type ua)
                             (_parse_client_info ua)) (opens d) ;;
             Ok (mkDb (emails d) os (clicks d) (bounces d))
         | None => Ok d
         end)).
    intros ip. reflexivity.
  - exists (fun h =>
      wrap_runtime "Failed to track link click"
        (cs <- insert click_id
                 (mkClick u e url n ua h co (_detect_device_type ua))
                 (clicks d) ;;
         Ok (mkDb (emails d) (opens d) cs (bounces d)))).
    intros ip. reflexivity.
Qed.

(** Only the constructor and the purge remove message rows: after any other
    call every message is still there, under its identifier. *)
Lemma other_calls_keep_messages (c : call) (d d' : db) (eid : str) :
  run c d = Ok d' ->
  c <> Construct -> (forall cutoff, c <> CleanupOldData cutoff) ->
  In eid (map email_id (emails d)) -> In eid (map email_id (emails d')).
Proof.
  intros H Hc Hp Hin. destruct c; simpl in H; try congruence.
  - unfold track_email_send in H.
    destruct (insert _ _ _) as [es|] eqn:E; simpl in H; inversion H; subst.
    apply insert_ok in E. subst es. simpl.
    rewrite map_app, in_app_iff. auto.
  - unfold create_tracking_pixel in H.
    destruct (distinct _); simpl in H; inversion H; subst; simpl.
    rewrite map_map. erewrite map_ext; [exact Hin|].
    intros e. simpl. destruct (Str.eqb _ _); reflexivity.
  - unfold track_open in H. apply wrap_runtime_ok in H.
    destruct (email_of_pixel d pixel_id); [|inversion H; subst; auto].
    destruct (insert _ _ _); simpl in H; inversion H; subst; auto.
  - unfold track_click in H.
    destruct (insert _ _ _); simpl in H; inversion H; subst; auto.
  - unfold track_bounce in H.
    destruct (insert _ _ _); simpl in H; inversion H; subst; simpl.
    rewrite map_map. erewrite map_ext; [exact Hin|].
    intros e. simpl. destruct (Str.eqb _ _); reflexivity.
Qed.

(** The purge removes exactly the messages sent before the cut-off. *)
Lemma cleanup_keeps_recent (d d' : db) (cutoff : str) (e : email_row) :
  cleanup_old_data d cutoff = Ok d' ->
  (In e (emails d') <-> In e (emails d) /\ Str.ltb (sent_time e) cutoff = false).
Proof.
  unfold cleanup_old_data. simpl. intros H. inversion H; subst; clear H.
  simpl. rewrite filter_In, negb_true_iff. tauto.
Qed.

End TrackingFacts.

(** C1 (the code departs from it).  The claim: a first [RecordOpen] of a
    message raises the [unique_opens] of its campaign by one, a second by
    zero.  In the code [unique_opens] counts the distinct message
    identifiers of a LEFT JOIN, so it is the number of messages sent: in a
    store with two unopened messages it reads 2, and it still reads 2 after
    the first open of one of them, while [total_opens] goes from 0 to 1. *)
Theorem C1_first_open_not_counted :
  exists d1 s0 s1,
    Tracking.run Sample.first_open Sample.store = Ok d1 /\
    Sample.stats_of Sample.store = Ok s0 /\
    Sample.stats_of d1 = Ok s1 /\
    Tracking.opens Sample.store = [] /\
    length (Tracking.opens d1) = 1 /\
    Tracking.total_opens s0 = 0 /\ Tracking.total_opens s1 = 1 /\
    Tracking.unique_opens s0 = 2 /\ Tracking.unique_opens s1 = 2.
Proof.
  do 3 eexists.
  split; [vm_compute; reflexivity|].
  split; [vm_compute; reflexivity|].
  split; [vm_compute; reflexivity|].
  repeat split.
Qed.

(** C2 (the code departs from it).  The claim: only the age-based purge
    deletes message rows, and constructing the store leaves recorded rows
    in place.  In the code the constructor drops and recreates the four
    tables: whatever the file held, the store is empty afterwards. *)
Theorem C2_constructor_empties_store :
  forall d : Tracking.db,
    Tracking.run Tracking.Construct d = Ok (Tracking.mkDb [] [] [] []) /\
    Tracking.run Tracking.Construct Sample.store <> Ok Sample.store.
Proof.
  intros d. split; [reflexivity|]. vm_compute. discriminate.
Qed.

(** C8.  For every campaign and every store, [get_campaign_stats] returns
    (no division fault), each of the four rates is its numerator over its
    denominator as a percentage, and [0] when the denominator is [0]; with
    no message sent all four rates are [0]. *)
Theorem C8_rates_never_fault :
  forall (d : Tracking.db) (campaign : str) (start_date end_date : option str)
         (now : str),
  exists st,
    Tracking.get_campaign_stats d campaign start_date end_date now = Ok st /\
    Tracking.bounce_rate st
    = Tracking.percentage (Tracking.st_bounces st) (Tracking.total_sent st) /\
    Tracking.open_rate st
    = Tracking.percentage (Tracking.unique_opens st) (Tracking.total_sent st) /\
    Tracking.click_rate st
    = Tracking.percentage (Tracking.unique_clicks st) (Tracking.total_sent st) /\
    Tracking.click_to_open_rate st
    = Tracking.percentage (Tracking.unique_clicks st)
                          (Tracking.unique_opens st) /\
    (forall a, Tracking.percentage a 0 = 0%Q) /\
    (Tracking.total_sent st = 0 ->
     Tracking.bounce_rate st = 0%Q /\ Tracking.open_rate st = 0%Q /\
     Tracking.click_rate st = 0%Q /\ Tracking.click_to_open_rate st = 0%Q).
Proof.
  intros d campaign start_date end_date now.
  destruct (stats_total d campaign start_date end_date now) as [st E].
  exists st. split; [exact E|].
  pose proof (unique_opens_ignores_opens _ _ _ _ _ E) as Hu.
  destruct (stats_fields _ _ _ _ _ E) as (Hb & Ho & Hc & Hco & Ht).
  repeat (split; [assumption|]). split; [reflexivity|].
  intros Hz. rewrite Hb, Ho, Hc, Hco, Hz. repeat split.
  rewrite Ht in Hz. apply length_zero_iff_nil in Hz.
  rewrite Hu, Hz. reflexivity.
Qed.

(** C10.  Every row a call adds to the opens or clicks table comes from
    [track_open] or [track_click], and its [ip_address] column holds the
    SHA-256 hex digest of the client address the caller passed (nothing
    when no address was passed), not the address; no other call adds a row
    to these tables.  The row is known column by column: [track_open] and
    [track_click] change nothing but their own table, to which they add at
    most one row, made of the caller's other arguments, of what is read
    off the user agent and of the digest.  And whatever a call does, it
    does the same for every client address with the same digest: the
    address reaches the store through [_hash_ip] only. *)
Theorem C10_addresses_stored_hashed :
  forall (c : Tracking.call) (d d' : Tracking.db),
    Tracking.run c d = Ok d' ->
    (forall o, In o (Tracking.opens d') ->
       In o (Tracking.opens d) \/
       exists p ua ip co u n,
         c = Tracking.TrackOpen p ua ip co u n /\
         Tracking.digest_of ip (Tracking.o_ip_address o)) /\
    (forall k, In k (Tracking.clicks d') ->
       In k (Tracking.clicks d) \/
       exists e url ua ip co u n,
         c = Tracking.TrackClick e url ua ip co u n /\
         Tracking.digest_of ip (Tracking.c_ip_address k)) /\
    (forall p ua ip co u n,
       c = Tracking.TrackOpen p ua ip co u n ->
       Tracking.emails d' = Tracking.emails d /\
       Tracking.clicks d' = Tracking.clicks d /\
       Tracking.bounces d' = Tracking.bounces d /\
       (Tracking.opens d' = Tracking.opens d \/
        exists eid,
          Tracking.opens d'
          = Tracking.opens d
            ++ [Tracking.mkOpen u eid n ua (Tracking.stored_address ip) co
                  (Tracking._detect_device_type ua)
                  (Tracking._parse_client_info ua)])) /\
    (forall e url ua ip co u n,
       c = Tracking.TrackClick e url ua ip co u n ->
       Tracking.emails d' = Tracking.emails d /\
       Tracking.opens d' = Tracking.opens d /\
       Tracking.bounces d' = Tracking.bounces d /\
       Tracking.clicks d'
       = Tracking.clicks d
         ++ [Tracking.mkClick u e url n ua (Tracking.stored_address ip) co
               (Tracking._detect_device_type ua)]) /\
    (exists f : option str -> result Tracking.db,
       forall ip, Tracking.run (Tracking.with_address ip c) d
                  = f (Tracking.stored_address ip)) /\
    (forall ip, Tracking.digest_of ip (Tracking.stored_address ip)).
Proof.
  intros c d d' H.
  destruct (run_new_events _ _ H) as [Ho Hc].
  split; [exact Ho|]. split; [exact Hc|].
  split; [|split; [|split]].
  - intros p ua ip co u n ->. exact (open_row_known _ _ _ _ _ _ _ H).
  - intros e url ua ip co u n ->. exact (click_row_known _ _ _ _ _ _ _ _ H).
  - apply address_through_digest.
  - intros ip. apply hash_ip_digest.
Qed.

Lemma C10_witness :
  Tracking.run Sample.first_open Sample.store = Ok Sample.opened_once /\
  (forall o, In o (Tracking.opens Sample.opened_once) ->
     In o (Tracking.opens Sample.store) \/
     exists p ua ip co u n,
       Sample.first_open = Tracking.TrackOpen p ua ip co u n /\
       Tracking.digest_of ip (Tracking.o_ip_address o)) /\
  Tracking.opens Sample.opened_once
  = [Tracking.mkOpen (lit "o1") (lit "m1") (lit "2024-05-01T11:00:00.000000")
       Sample.agent
       (Some (lit "130e4daba9786013f48dc2fccf39f91a0b3ec2cfba74ff0b645acf95229df69e"))
       None (lit "mobile")
       (Tracking._parse_client_info Sample.agent)].
Proof.
  assert (H : Tracking.run Sample.first_open Sample.store
              = Ok Sample.opened_once) by (vm_compute; reflexivity).
  split; [exact H|].
  split; [exact (proj1 (C10_addresses_stored_hashed _ _ H))|].
  vm_compute. reflexivity.
Defined.

Example stored_address_is_digest :
  map Tracking.o_ip_address (Tracking.opens Sample.opened_once)
  = [Some (lit "130e4daba9786013f48dc2fccf39f91a0b3ec2cfba74ff0b645acf95229df69e")].
Proof. vm_compute. reflexivity. Qed.

(** ** Identity rotation *)

Section RotationFacts.
Import Sender.

Lemma pacing_app (a b : list event) : pacing (a ++ b) = pacing a ++ pacing b.
Proof. apply filter_app. Qed.



(** [TorHandler.refresh_circuit] inside its interval: not due. *)
Lemma handler_rate_limit (h : Tor.handler) (now : Q) (w : Tor.world) :
  (now - Tor.last_refresh h < Tor.refresh_interval h)%Q ->
  Tor.refresh_circuit h now w = (Ok false, h, []).
Proof.
  intros Hlt. unfold Tor.refresh_circuit.
  destruct (Tor.enabled h); simpl; [|reflexivity].
  destruct (Qlt_le_dec _ _) as [_|Hle]; [reflexivity|].
  exfalso. exact (Qlt_not_le _ _ Hlt Hle).
Qed.

(** [EmailSender.refresh_tor_circuit] reads no clock: with routing on, a
    control port that cooperates and a settle time that is not negative
    it signals a new circuit at every request. *)
Lemma send_path_always_signals (cfg : config) (w : world) (st : state) :
  use_tor st = true ->
  controller w (refreshes st) = ControlOk ->
  (0 <= circuit_build_timeout cfg)%Q ->
  exists st',
    refresh_tor_circuit cfg w st = (Ok tt, st') /\
    trace st' = trace st ++ [Authenticate; SignalNewnym;
                             Settle (circuit_build_timeout cfg)].
Proof.
  intros Hu Hc Ht. apply Qle_bool_iff in Ht. unfold refresh_tor_circuit.
  rewrite Hu, Hc, Ht. simpl. eexists. split; reflexivity.
Qed.

End RotationFacts.

(** C3 (the code departs from it).  The claim: a refresh requested inside
    the minimum interval since the last one is a no-op, also when the send
    path requests it.  [TorHandler.refresh_circuit] does that: asked 30
    seconds after a refresh, with an interval of 600, it returns [False]
    and does nothing.  [EmailSender.refresh_tor_circuit], which the send
    path calls before every attempt, reads no clock: a send whose first
    attempt fails signals a new circuit before each of its two attempts,
    15 seconds apart, and waits the settle time twice. *)
Theorem C3_send_path_ignores_interval :
  Tor.refresh_circuit Sample.rotator 1030 Sample.exit_changes
  = (Ok false, Sample.rotator, []) /\
  Sender.trace (snd (Sender._send_via_smtp Sample.three_tries
                       Sample.second_time (Sender.start true)))
  = [ Sender.Authenticate; Sender.SignalNewnym; Sender.Settle 10;
      Sender.Attempt Sender.Faulted; Sender.RetryWait 5;
      Sender.Authenticate; Sender.SignalNewnym; Sender.Settle 10;
      Sender.Attempt Sender.Delivered ] /\
  Sender.trace (snd (Sender._send_via_api Sample.three_tries
                       Sample.second_time (Sender.start true)))
  = [ Sender.Authenticate; Sender.SignalNewnym; Sender.Settle 10;
      Sender.Attempt Sender.Faulted; Sender.RetryWait 5;
      Sender.Authenticate; Sender.SignalNewnym; Sender.Settle 10;
      Sender.Attempt Sender.Delivered ].
Proof.
  split; [apply handler_rate_limit; vm_compute; reflexivity|].
  split; vm_compute; reflexivity.
Qed.

(** ** The retry policy *)

Section RetryFacts.
Import Sender.
Variable cfg : config.
Variable w : world.





Section NonNegativeDelay.
Hypothesis Hd : Qle_bool 0 (retry_delay cfg) = true.








End NonNegativeDelay.

End RetryFacts.




(** ** The dispatch loop *)

Section DispatchFacts.
Import Campaign.
Variable cfg : settings.
Variable w : world.

Lemma skeleton_app (a b : list event) :
  skeleton (a ++ b) = skeleton a ++ skeleton b.
Proof. apply flat_map_app. Qed.

(** Every recipient of a batch is handed to [send_email], in order,
    whether earlier sends returned or raised. *)
Lemma send_batch_skeleton (t : str) (batch : list str) :
  forall n, skeleton (fst (send_batch cfg w t batch n)) = map (Deliver t) batch.
Proof.
  induction batch as [|r batch IH]; intros n; [reflexivity|].
  cbn [send_batch].
  destruct (send_batch cfg w t batch (S n)) as [evs' n'] eqn:E.
  specialize (IH (S n)). rewrite E in IH. cbn [fst] in *.
  rewrite skeleton_app, IH.
  destruct (send_email w n t r); reflexivity.
Qed.

Lemma skipn_nil_iff (l : list str) (k : nat) :
  skipn k l = [] <-> length l <= k.
Proof.
  split; intros H.
  - rewrite <- (firstn_skipn k l) at 1. rewrite H, app_nil_r.
    apply firstn_le_length.
  - apply skipn_all2. exact H.
Qed.

Lemma send_batches_skeleton (t : str) (recipients : list str) (fuel : nat) :
  forall (i : Z) (n : nat),
    (0 < batch_size cfg)%Z -> (0 <= i)%Z ->
    length (skipn (Z.to_nat i) recipients) <= fuel ->
    (Qle_bool 0 (delay_between_batches cfg) = true \/
     (Z.of_nat (length recipients) <= i + batch_size cfg)%Z) ->
    fst (fst (send_batches cfg w t recipients fuel i n)) = Ok tt /\
    skeleton (snd (fst (send_batches cfg w t recipients fuel i n)))
    = between_batches [BatchPause (delay_between_batches cfg)]
        (map (map (Deliver t))
             (chunks fuel (Z.to_nat (batch_size cfg))
                     (skipn (Z.to_nat i) recipients))).
Proof.
  induction fuel as [|fuel IH]; intros i n Hb Hi Hfuel Hq.
  - split; reflexivity.
  - cbn [send_batches chunks].
    destruct (skipn (Z.to_nat i) recipients) as [|r l] eqn:El.
    + apply skipn_nil_iff in El.
      assert (E : (i <? Z.of_nat (length recipients))%Z = false)
        by (apply Z.ltb_ge; lia).
      rewrite E. split; reflexivity.
    + assert (Hlen : Z.to_nat i < length recipients).
      { destruct (Nat.lt_ge_cases (Z.to_nat i) (length recipients)) as [H|H];
          [exact H|].
        apply skipn_nil_iff in H. congruence. }
      assert (E : (i <? Z.of_nat (length recipients))%Z = true)
        by (apply Z.ltb_lt; lia).
      rewrite E, <- El.
      destruct (send_batch cfg w t _ n) as [evs n1] eqn:Eb.
      pose proof (send_batch_skeleton t
                    (firstn (Z.to_nat (batch_size cfg))
                            (skipn (Z.to_nat i) recipients)) n) as Hs.
      rewrite Eb in Hs. cbn [fst] in Hs.
      assert (Eno : ((i + batch_size cfg <? Z.of_nat (length recipients))%Z
                     && negb (Qle_bool 0 (delay_between_batches cfg)))
                    = false).
      { destruct Hq as [Hq|Hq]; [rewrite Hq; apply andb_false_r|].
        apply andb_false_iff. left. apply Z.ltb_ge. exact Hq. }
      rewrite Eno.
      destruct (send_batches cfg w t recipients fuel (i + batch_size cfg) n1)
        as [[sent evs'] n2] eqn:Er.
      specialize (IH (i + batch_size cfg)%Z n1 Hb ltac:(lia)).
      rewrite Er in IH. cbn [fst snd] in IH |- *.
      rewrite skipn_skipn.
      replace (Z.to_nat (batch_size cfg) + Z.to_nat i)
        with (Z.to_nat (i + batch_size cfg)) by lia.
      assert (Hrest : length (skipn (Z.to_nat (i + batch_size cfg)) recipients)
                      <= fuel).
      { assert (H1 : length (skipn (Z.to_nat i) recipients) = S (length l))
          by (rewrite El; reflexivity).
        rewrite length_skipn in H1 |- *. simpl in Hfuel. lia. }
      assert (Hq' : Qle_bool 0 (delay_between_batches cfg) = true \/
                    (Z.of_nat (length recipients)
                     <= i + batch_size cfg + batch_size cfg)%Z)
        by (destruct Hq as [Hq|Hq]; [left; exact Hq|right; lia]).
      destruct (IH Hrest Hq') as [IHr IHs]. split; [exact IHr|].
      rewrite !skeleton_app, Hs, IHs. cbn [map between_batches].
      destruct (skipn (Z.to_nat (i + batch_size cfg)) recipients)
        as [|r' l'] eqn:E2.
      * apply skipn_nil_iff in E2.
        assert (E3 : (i + batch_size cfg <? Z.of_nat (length recipients))%Z
                     = false) by (apply Z.ltb_ge; lia).
        rewrite E3. destruct fuel; simpl; rewrite app_nil_r; reflexivity.
      * assert (E3 : (i + batch_size cfg <? Z.of_nat (length recipients))%Z
                     = true).
        { apply Z.ltb_lt.
          destruct (Nat.lt_ge_cases (Z.to_nat (i + batch_size cfg))
                                    (length recipients)) as [H|H]; [lia|].
          apply skipn_nil_iff in H. congruence. }
        rewrite E3. destruct fuel as [|fuel']; [simpl in Hrest; lia|].
        reflexivity.
Qed.

Lemma send_templates_skeleton (recipients : list str) (templates : list str) :
  forall n,
    (0 < batch_size cfg)%Z ->
    (Qle_bool 0 (delay_between_batches cfg) = true \/
     (Z.of_nat (length recipients) <= batch_size cfg)%Z) ->
    skeleton (snd (send_templates cfg w templates recipients n))
    = flat_map (template_steps cfg recipients) (loaded w templates) /\
    (forallb (loads w) templates = true ->
     fst (send_templates cfg w templates recipients n) = Ok tt).
Proof.
  induction templates as [|t templates IH]; intros n Hb Hq;
    [split; reflexivity|].
  cbn [send_templates loaded forallb].
  destruct (loads w t); cbn [negb]; [|split; [reflexivity|discriminate]].
  assert (E0 : (batch_size cfg =? 0)%Z = false) by (apply Z.eqb_neq; lia).
  assert (E1 : (0 <? batch_size cfg)%Z = true) by (apply Z.ltb_lt; lia).
  rewrite E0, E1.
  destruct (send_batches cfg w t recipients (length recipients) 0 n)
    as [[sent evs] n'] eqn:Eb.
  pose proof (@send_batches_skeleton t recipients (length recipients) 0%Z n
                Hb ltac:(lia)) as Hs.
  rewrite Eb in Hs. cbn [fst snd Z.to_nat skipn] in Hs.
  destruct (Hs (Nat.le_refl _) Hq) as [-> Hs']. clear Hs.
  rename Hs' into Hs.
  destruct (send_templates cfg w templates recipients n') as [r evs'] eqn:Et.
  destruct (IH n' Hb Hq) as [IH1 IH2]. rewrite Et in IH1, IH2.
  cbn [fst snd flat_map] in *. split; [|exact IH2].
  change (skeleton (LoadTemplate t :: evs ++ evs'))
    with (Load t :: skeleton (evs ++ evs')).
  rewrite skeleton_app, Hs, IH1. reflexivity.
Qed.





End DispatchFacts.



(** A negative inter-batch delay is no delay at all: [time.sleep] raises
    after the first batch, outside the handler of the sends, and the run
    ends there. *)
Example negative_batch_delay_ends_run :
  Campaign.send_templates Sample.hasty_batches Sample.second_send_fails
    [lit "t1"] Sample.three_recipients 0
  = (Raise negative_sleep,
     [ Campaign.LoadTemplate (lit "t1");
       Campaign.Send (lit "t1") (lit "ann@example.org") true;
       Campaign.DelayEmail 1;
       Campaign.Send (lit "t1") (lit "bob@example.org") false ]).
Proof. reflexivity. Qed.

Example scenario_trace :
  snd (Campaign.send_templates Sample.scenario Sample.second_send_fails
         [lit "t1"] Sample.three_recipients 0)
  = [ Campaign.LoadTemplate (lit "t1");
      Campaign.Send (lit "t1") (lit "ann@example.org") true;
      Campaign.DelayEmail 1;
      Campaign.Send (lit "t1") (lit "bob@example.org") false;
      Campaign.DelayBatch 5;
      Campaign.Send (lit "t1") (lit "cy@example.org") true;
      Campaign.DelayEmail 1 ].
Proof. reflexivity. Qed.

(** ** Link instrumentation *)

Section LinkFacts.
Import Tracking.

Lemma startswith_app (p s : str) :
  Str.startswith p s = true -> s = p ++ skipn (length p) s.
Proof.
  revert s. induction p as [|x p IH]; intros s H; [reflexivity|].
  destruct s as [|y s]; [discriminate|]. simpl in H.
  apply andb_true_iff in H as [Hxy H]. apply Ascii.eqb_eq in Hxy. subst y.
  simpl. f_equal. apply IH. exact H.
Qed.

Lemma startswith_refl_app (p s : str) : Str.startswith p (p ++ s) = true.
Proof.
  induction p as [|x p IH]; [reflexivity|].
  simpl. rewrite Ascii.eqb_refl. exact IH.
Qed.

Lemma span_unquoted_app (s u r : str) :
  span_unquoted s = (u, r) ->
  s = u ++ r /\ Forall (fun c => c <> "034"%char) u /\
  (r = [] \/ exists r', r = "034"%char :: r').
Proof.
  revert u r. induction s as [|c s IH]; intros u r H; simpl in H.
  - inversion H; subst. auto.
  - destruct (Ascii.eqb c "034") eqn:E.
    + inversion H; subst. apply Ascii.eqb_eq in E. subst c.
      repeat split; eauto.
    + destruct (span_unquoted s) as [u' r'] eqn:Es.
      inversion H; subst. destruct (IH u' r eq_refl) as (-> & Hu & Hr).
      repeat split; auto. constructor; [|exact Hu].
      apply Ascii.eqb_neq. exact E.
Qed.

(** A match of the pattern at the start of [s] spells [href=], a quote, the
    non-empty quote-free group and a quote. *)
Lemma match_href_shape (s u : str) :
  match_href s = Some u ->
  exists rest,
    s = href_open ++ u ++ quote ++ rest /\ u <> [] /\
    Forall (fun c => c <> "034"%char) u.
Proof.
  unfold match_href. destruct (Str.startswith href_open s) eqn:E;
    [|discriminate].
  apply startswith_app in E.
  destruct (span_unquoted (skipn (length href_open) s)) as [g r] eqn:Es.
  apply span_unquoted_app in Es as (Hs & Hg & Hr).
  destruct g as [|c g]; [discriminate|].
  destruct r as [|q r]; [discriminate|].
  intros H. inversion H; subst u. clear H.
  destruct Hr as [Hr|[r' Hr]]; [discriminate|]. inversion Hr; subst q r'.
  exists r. split; [|split; [discriminate|exact Hg]].
  rewrite E at 1. rewrite Hs. reflexivity.
Qed.

Lemma re_sub_skip (f : str -> str) (pre rest : str) :
  re_sub f (length pre) (pre ++ rest) = re_sub f 0 rest.
Proof.
  induction pre as [|c pre IH]; [|exact IH].
  destruct rest; reflexivity.
Qed.

Lemma segments_skip (pre rest : str) :
  segments (length pre) (pre ++ rest) = segments 0 rest.
Proof.
  induction pre as [|c pre IH]; [|exact IH].
  destruct rest; reflexivity.
Qed.

Lemma re_findall_skip (pre rest : str) :
  re_findall (length pre) (pre ++ rest) = re_findall 0 rest.
Proof.
  induction pre as [|c pre IH]; [|exact IH].
  destruct rest; reflexivity.
Qed.

(** The tail of a matched text, cut where the scan resumes. *)
Lemma matched_tail (c : ascii) (s' u rest : str) :
  c :: s' = href_open ++ u ++ quote ++ rest ->
  exists pre, s' = pre ++ rest /\ length pre = length href_open + length u.
Proof.
  intros H. exists (tl href_open ++ u ++ quote). split.
  - change href_open with ("h"%char :: tl href_open) in H.
    simpl in H. inversion H. rewrite <- !app_assoc. reflexivity.
  - rewrite !length_app. simpl. lia.
Qed.

(** The scan of [re.sub] and the reading in segments go together. *)
Lemma re_sub_segments (f : str -> str) (fuel : nat) :
  forall s, length s <= fuel ->
    re_sub f 0 s
    = flat_map (fun seg => match seg with
                           | Text c => [c]
                           | Link u => f u
                           end) (segments 0 s) /\
    re_findall 0 s = links (segments 0 s).
Proof.
  induction fuel as [|fuel IH]; intros s Hl.
  - destruct s; [split; reflexivity|simpl in Hl; lia].
  - destruct s as [|c s']; [split; reflexivity|].
    cbn [re_sub segments re_findall].
    destruct (match_href (c :: s')) as [u|] eqn:M.
    + destruct (@match_href_shape _ _ M) as (rest & Hs & _).
      destruct (@matched_tail _ _ _ _ Hs) as (pre & -> & Hpre).
      rewrite <- Hpre, re_sub_skip, segments_skip, re_findall_skip.
      destruct (IH rest) as [IH1 IH2].
      { simpl in Hl. rewrite length_app in Hl. lia. }
      cbn [flat_map links]. rewrite IH1, IH2. split; reflexivity.
    + destruct (IH s') as [IH1 IH2]; [simpl in Hl; lia|].
      cbn [flat_map links]. rewrite IH1, IH2. split; reflexivity.
Qed.

(** Read in segments and written out again, a text is itself. *)
Lemma segments_render (fuel : nat) :
  forall s, length s <= fuel ->
    flat_map (render (fun u => u)) (segments 0 s) = s.
Proof.
  induction fuel as [|fuel IH]; intros s Hl.
  - destruct s; [reflexivity|simpl in Hl; lia].
  - destruct s as [|c s']; [reflexivity|].
    cbn [segments].
    destruct (match_href (c :: s')) as [u|] eqn:M.
    + destruct (@match_href_shape _ _ M) as (rest & Hs & _).
      destruct (@matched_tail _ _ _ _ Hs) as (pre & -> & Hpre).
      rewrite <- Hpre, segments_skip. cbn [flat_map render].
      rewrite IH; [|simpl in Hl; rewrite length_app in Hl; lia].
      rewrite Hs, <- !app_assoc. reflexivity.
    + cbn [flat_map render]. rewrite IH; [reflexivity|simpl in Hl; lia].
Qed.

(** Without a link nothing is rewritten. *)
Lemma no_links_render (f : str -> str) (segs : list segment) :
  links segs = [] ->
  flat_map (render f) segs = flat_map (render (fun u => u)) segs.
Proof.
  induction segs as [|[c|u] segs IH]; intros H; [reflexivity| |discriminate].
  cbn [flat_map render]. rewrite IH; [reflexivity|exact H].
Qed.

(** *** Reading the result again *)

Lemma span_unquoted_stop (g r : str) :
  unquoted g -> span_unquoted (g ++ quote ++ r) = (g, quote ++ r).
Proof.
  induction 1 as [|c g Hc Hg IH]; [reflexivity|].
  change ((c :: g) ++ quote ++ r) with (c :: g ++ quote ++ r).
  cbn [span_unquoted]. rewrite IH.
  destruct (Ascii.eqb c "034") eqn:E; [|reflexivity].
  apply Ascii.eqb_eq in E. congruence.
Qed.

Lemma span_unquoted_all (g : str) :
  unquoted g -> span_unquoted g = (g, []).
Proof.
  induction 1 as [|c g Hc Hg IH]; [reflexivity|].
  cbn [span_unquoted]. rewrite IH.
  destruct (Ascii.eqb c "034") eqn:E; [|reflexivity].
  apply Ascii.eqb_eq in E. congruence.
Qed.

(** The converse of [match_href_shape]. *)
Lemma match_href_complete (g r : str) :
  g <> [] -> unquoted g -> match_href (href_open ++ g ++ quote ++ r) = Some g.
Proof.
  intros Hne Hg. unfold match_href.
  rewrite startswith_refl_app, skipn_app, skipn_all, Nat.sub_diag.
  cbn [skipn app]. rewrite (span_unquoted_stop r Hg).
  destruct g; [congruence|reflexivity].
Qed.

(** The pattern matches at the start of a text exactly when the text
    spells [href=], a quote, a non-empty run without a quote, and a
    quote. *)
Lemma match_href_iff (s u : str) :
  match_href s = Some u <->
  exists rest, s = href_open ++ u ++ quote ++ rest /\ u <> [] /\ unquoted u.
Proof.
  split.
  - apply match_href_shape.
  - intros (rest & -> & Hne & Hu). apply match_href_complete; assumption.
Qed.

Lemma startswith_nth (p : str) :
  forall (s : str) (i : nat) (x : ascii),
    Str.startswith p s = true ->
    nth_error p i = Some x -> nth_error s i = Some x.
Proof.
  induction p as [|y p IH]; intros s i x H Hi; [destruct i; discriminate|].
  destruct s as [|z s]; [discriminate|]. cbn [Str.startswith] in H.
  apply andb_true_iff in H as [Hyz H]. apply Ascii.eqb_eq in Hyz. subst z.
  destruct i as [|i]; [exact Hi|]. exact (IH s i x H Hi).
Qed.

(** Inside a run without a quote that precedes a link, no match starts. *)
Lemma no_match_before (p rest : str) :
  p <> [] -> unquoted p -> match_href (p ++ href_open ++ rest) = None.
Proof.
  intros Hne Hp. unfold match_href.
  destruct (Str.startswith href_open (p ++ href_open ++ rest)) eqn:E;
    [exfalso|reflexivity].
  pose proof (@startswith_nth _ _ 5 "034"%char E eq_refl) as H.
  destruct p as [|a [|b [|c [|d [|e [|f p]]]]]];
    [congruence|discriminate H|discriminate H|discriminate H
    |discriminate H|discriminate H|].
  cbn in H. inversion H; subst f.
  unfold unquoted in Hp. rewrite Forall_forall in Hp.
  apply (Hp "034"%char); [|reflexivity].
  do 5 right. left. reflexivity.
Qed.

(** A link behind a run without a quote: the run is copied, the link is
    replaced, and the scan goes on behind the closing quote. *)
Lemma re_sub_link (f : str -> str) (pre u post : str) :
  unquoted pre -> u <> [] -> unquoted u ->
  re_sub f 0 (pre ++ href_open ++ u ++ quote ++ post)
  = pre ++ f u ++ re_sub f 0 post.
Proof.
  intros Hpre Hne Hu. induction Hpre as [|c pre Hc Hpre IH].
  - cbn [app].
    pose proof (match_href_complete post Hne Hu) as M.
    destruct (href_open ++ u ++ quote ++ post) as [|c s'] eqn:Es;
      [discriminate Es|].
    cbn [re_sub]. rewrite M.
    destruct (@matched_tail c s' u post (eq_sym Es)) as (pre' & -> & Hlen).
    rewrite <- Hlen, re_sub_skip. reflexivity.
  - change ((c :: pre) ++ href_open ++ u ++ quote ++ post)
      with (c :: pre ++ href_open ++ u ++ quote ++ post).
    cbn [re_sub].
    change (c :: pre ++ href_open ++ u ++ quote ++ post)
      with ((c :: pre) ++ href_open ++ (u ++ quote ++ post)).
    rewrite no_match_before;
      [|discriminate|constructor; [exact Hc|exact Hpre]].
    rewrite IH. reflexivity.
Qed.

(** A text without the letter h is seen at the start of a rendering
    whatever is done to the link addresses, and then the rendering starts
    with plain characters. *)
Lemma startswith_render (f g : str -> str) (p : str) :
  Forall (fun c => c <> "h"%char) p ->
  forall segs,
    Str.startswith p (flat_map (render f) segs)
    = Str.startswith p (flat_map (render g) segs).
Proof.
  induction 1 as [|x p Hx Hp IH]; intros segs; [reflexivity|].
  destruct segs as [|[c|u] segs]; [reflexivity| |].
  - cbn [flat_map render app Str.startswith]. rewrite IH. reflexivity.
  - cbn [flat_map render]. unfold href_open.
    cbn [lit list_ascii_of_string app Str.startswith].
    assert (E : Ascii.eqb x "h" = false) by (apply Ascii.eqb_neq; exact Hx).
    rewrite E. reflexivity.
Qed.

Lemma startswith_render_text (f : str -> str) (p : str) :
  Forall (fun c => c <> "h"%char) p ->
  forall segs,
    Str.startswith p (flat_map (render f) segs) = true ->
    exists rest, segs = map Text p ++ rest.
Proof.
  induction 1 as [|x p Hx Hp IH]; intros segs H; [exists segs; reflexivity|].
  destruct segs as [|[c|u] segs]; [discriminate| |].
  - cbn [flat_map render app Str.startswith] in H.
    apply andb_true_iff in H as [Hc H]. apply Ascii.eqb_eq in Hc. subst c.
    destruct (IH segs H) as [rest ->]. exists rest. reflexivity.
  - cbn [flat_map render] in H. unfold href_open in H.
    cbn [lit list_ascii_of_string app Str.startswith] in H.
    assert (E : Ascii.eqb x "h" = false) by (apply Ascii.eqb_neq; exact Hx).
    rewrite E in H. discriminate.
Qed.

Lemma render_text (f : str -> str) (p : str) (rest : list segment) :
  flat_map (render f) (map Text p ++ rest) = p ++ flat_map (render f) rest.
Proof.
  induction p as [|c p IH]; [reflexivity|].
  cbn [map app flat_map render]. rewrite IH. reflexivity.
Qed.

(** A rendering without a quote has no link. *)
Lemma unquoted_no_links (f : str -> str) (segs : list segment) :
  unquoted (flat_map (render f) segs) -> links segs = [].
Proof.
  induction segs as [|[c|u] segs IH]; intros H; [reflexivity| |].
  - cbn [flat_map render app] in H. inversion H; subst. apply IH. assumption.
  - exfalso. cbn [flat_map render] in H. unfold href_open in H.
    rewrite <- !app_assoc in H. apply Forall_app in H as [_ H].
    inversion H; subst. congruence.
Qed.

(** Where the pattern does not match before the links are rewritten, it
    does not match afterwards. *)
Lemma no_new_match (f : str -> str) (c : ascii) (segs : list segment) :
  match_href (c :: flat_map (render (fun u => u)) segs) = None ->
  match_href (c :: flat_map (render f) segs) = None.
Proof.
  assert (Hp : Forall (fun x => x <> "h"%char) (tl href_open))
    by (repeat constructor; discriminate).
  unfold match_href.
  change href_open with ("h"%char :: tl href_open).
  cbn [Str.startswith length skipn].
  rewrite (startswith_render f (fun u => u) Hp segs).
  destruct (Ascii.eqb "h" c); [|reflexivity]. cbn [andb].
  destruct (Str.startswith (tl href_open) (flat_map (render (fun u => u)) segs))
    eqn:E; [|reflexivity].
  destruct (startswith_render_text _ Hp _ E) as [rest ->].
  rewrite !render_text.
  change (length (tl href_open)) with 5.
  change (tl href_open) with (lit "ref=" ++ quote).
  cbn [lit list_ascii_of_string app quote skipn].
  destruct rest as [|[x|u] rest]; [reflexivity| |].
  - cbn [flat_map render app span_unquoted].
    destruct (Ascii.eqb x "034"); [reflexivity|].
    destruct (span_unquoted (flat_map (render (fun u => u)) rest))
      as [g r] eqn:Es.
    destruct r as [|q r]; [|discriminate].
    intros _. apply span_unquoted_app in Es as (Hs & Hg & _).
    rewrite app_nil_r in Hs. rewrite <- Hs in Hg.
    rewrite (no_links_render f rest (unquoted_no_links _ rest Hg)).
    rewrite (span_unquoted_all Hg). reflexivity.
  - cbn [flat_map render].
    change ((href_open ++ u ++ quote)
            ++ flat_map (render (fun u0 : str => u0)) rest)
      with (lit "href=" ++ quote
            ++ (u ++ quote) ++ flat_map (render (fun u0 : str => u0)) rest).
    rewrite span_unquoted_stop by (repeat constructor; discriminate).
    discriminate.
Qed.

Lemma segments_match (g rest : str) :
  g <> [] -> unquoted g ->
  segments 0 (href_open ++ g ++ quote ++ rest) = Link g :: segments 0 rest.
Proof.
  intros Hne Hg. pose proof (match_href_complete rest Hne Hg) as Hm.
  remember (href_open ++ g ++ quote ++ rest) as s eqn:Es.
  destruct s as [|c s']; [discriminate|].
  cbn [segments]. rewrite Hm. f_equal.
  destruct (@matched_tail _ _ _ _ Es) as (pre & -> & Hpre).
  rewrite <- Hpre. apply segments_skip.
Qed.

(** A text read in segments, rendered with new link addresses and read
    again keeps its segments, the addresses apart. *)
Lemma segments_retarget (f : str -> str) (fuel : nat) :
  (forall u, f u <> [] /\ unquoted (f u)) ->
  forall s, length s <= fuel ->
    segments 0 (flat_map (render f) (segments 0 s))
    = map (retarget f) (segments 0 s).
Proof.
  intros Hf. induction fuel as [|fuel IH]; intros s Hl.
  - destruct s; [reflexivity|simpl in Hl; lia].
  - destruct s as [|c s']; [reflexivity|].
    cbn [segments].
    destruct (match_href (c :: s')) as [u|] eqn:M.
    + destruct (@match_href_shape _ _ M) as (rest & Hs & _).
      destruct (@matched_tail _ _ _ _ Hs) as (pre & -> & Hpre).
      rewrite <- Hpre, segments_skip.
      cbn [flat_map map render retarget].
      destruct (Hf u) as [Hne Hq].
      rewrite <- !app_assoc, (segments_match _ Hne Hq). f_equal.
      apply IH. simpl in Hl. rewrite length_app in Hl. lia.
    + cbn [flat_map map render retarget app segments].
      assert (Hid : c :: s'
                    = c :: flat_map (render (fun u => u)) (segments 0 s')).
      { f_equal. symmetry. apply (@segments_render fuel).
        simpl in Hl. lia. }
      rewrite Hid in M. rewrite (no_new_match f _ _ M).
      f_equal. apply IH. simpl in Hl. lia.
Qed.

Lemma links_retarget (f : str -> str) (segs : list segment) :
  links (map (retarget f) segs) = map f (links segs).
Proof.
  induction segs as [|[c|u] segs IH]; [reflexivity|exact IH|].
  cbn [map retarget links flat_map app]. unfold links in IH.
  rewrite IH. reflexivity.
Qed.

(** *** The query string *)

Lemma unquote_quote_byte (c : ascii) (rest : str) :
  Urllib.unquote_plus (Urllib.quote_byte c ++ rest)
  = c :: Urllib.unquote_plus rest.
Proof.
  destruct c as [[] [] [] [] [] [] [] []]; reflexivity.
Qed.

Lemma unquote_quote_plus (s : str) :
  Urllib.unquote_plus (Urllib.quote_plus s) = s.
Proof.
  induction s as [|c s IH]; [reflexivity|].
  unfold Urllib.quote_plus in *. cbn [flat_map].
  rewrite unquote_quote_byte, IH. reflexivity.
Qed.

Lemma hex_is_safe (c : ascii) :
  is_hex c = true -> Urllib.quote_byte c = [c].
Proof.
  destruct c as [[] [] [] [] [] [] [] []]; intros H;
    try reflexivity; discriminate H.
Qed.

Lemma quote_plus_hex (s : str) :
  forallb is_hex s = true -> Urllib.quote_plus s = s.
Proof.
  induction s as [|c s IH]; intros H; [reflexivity|].
  simpl in H. apply andb_true_iff in H as [Hc Hs].
  unfold Urllib.quote_plus in *. cbn [flat_map].
  rewrite (@hex_is_safe _ Hc), IH by exact Hs. reflexivity.
Qed.

Lemma hex_digit_is_hex (d : Z) :
  (0 <= d < 16)%Z -> is_hex (SHA256.hex_digit d) = true.
Proof.
  intros H.
  assert (E : In d (map Z.of_nat (seq 0 16))).
  { apply in_map_iff. exists (Z.to_nat d). split; [lia|].
    apply in_seq. lia. }
  simpl in E.
  repeat (destruct E as [<-|E]; [reflexivity|]). destruct E.
Qed.

Lemma hexdigest_is_hex (data : str) :
  forallb is_hex (SHA256.hexdigest data) = true.
Proof.
  assert (Hw : forall x, forallb is_hex (SHA256.hex_word x) = true).
  { intros x. unfold SHA256.hex_word. apply forallb_forall.
    intros c Hc. apply in_map_iff in Hc as [i [<- _]].
    apply hex_digit_is_hex. apply Z.mod_pos_bound. lia. }
  unfold SHA256.hexdigest. rewrite !forallb_app, !Hw. reflexivity.
Qed.

Lemma tid_facts (eid u : str) :
  length (tid eid u) = 12 /\ forallb is_hex (tid eid u) = true.
Proof.
  unfold tid. split.
  - rewrite length_firstn, hexdigest_length. reflexivity.
  - apply forallb_forall. intros c Hc.
    pose proof (hexdigest_is_hex (eid ++ lit ":" ++ u)) as H.
    rewrite forallb_forall in H. apply H.
    rewrite <- (firstn_skipn 12 (SHA256.hexdigest _)).
    apply in_or_app. left. exact Hc.
Qed.

Lemma tracking_url_spelled (eid dom u : str) :
  tracking_url eid dom u
  = lit "https://" ++ dom ++ lit "/click?eid=" ++ Urllib.quote_plus eid
    ++ lit "&url=" ++ Urllib.quote_plus u ++ lit "&tid=" ++ tid eid u.
Proof.
  unfold tracking_url, Urllib.urlencode. cbn [map fst snd Str.join].
  rewrite (@quote_plus_hex _ (proj2 (tid_facts eid u))).
  change (Urllib.quote_plus (lit "eid")) with (lit "eid").
  change (Urllib.quote_plus (lit "url")) with (lit "url").
  change (Urllib.quote_plus (lit "tid")) with (lit "tid").
  rewrite <- !app_assoc. reflexivity.
Qed.

Lemma quote_byte_unquoted (c : ascii) : unquoted (Urllib.quote_byte c).
Proof.
  destruct c as [[] [] [] [] [] [] [] []];
    repeat (constructor; [discriminate|]); constructor.
Qed.

Lemma quote_plus_unquoted (s : str) : unquoted (Urllib.quote_plus s).
Proof.
  induction s as [|c s IH]; [constructor|].
  unfold Urllib.quote_plus. cbn [flat_map]. apply Forall_app.
  split; [apply quote_byte_unquoted|exact IH].
Qed.

Lemma unquoted_check (s : str) :
  forallb (fun c => negb (Ascii.eqb c "034")) s = true -> unquoted s.
Proof.
  intros H. apply Forall_forall. intros c Hc E.
  rewrite forallb_forall in H. specialize (H c Hc).
  subst c. discriminate H.
Qed.

Lemma hex_unquoted (s : str) : forallb is_hex s = true -> unquoted s.
Proof.
  intros H. apply Forall_forall. intros c Hc E.
  rewrite forallb_forall in H. specialize (H c Hc).
  subst c. discriminate H.
Qed.

(** With a host name free of quotes, a tracking URL is a non-empty text
    free of quotes. *)
Lemma tracking_url_unquoted (eid dom u : str) :
  unquoted dom ->
  tracking_url eid dom u <> [] /\ unquoted (tracking_url eid dom u).
Proof.
  intros Hd. rewrite tracking_url_spelled. split; [discriminate|].
  unfold unquoted.
  apply Forall_app; split; [apply unquoted_check; reflexivity|].
  apply Forall_app; split; [exact Hd|].
  apply Forall_app; split; [apply unquoted_check; reflexivity|].
  apply Forall_app; split; [apply quote_plus_unquoted|].
  apply Forall_app; split; [apply unquoted_check; reflexivity|].
  apply Forall_app; split; [apply quote_plus_unquoted|].
  apply Forall_app; split; [apply unquoted_check; reflexivity|].
  apply hex_unquoted. apply tid_facts.
Qed.

(** The links of the result are the tracking URLs of the links of the
    content, one for one. *)
Lemma findall_after_rewrite (content eid dom : str) :
  unquoted dom ->
  re_findall 0 (re_sub (replace_link eid dom) 0 content)
  = map (tracking_url eid dom) (re_findall 0 content).
Proof.
  intros Hd.
  destruct (@re_sub_segments (replace_link eid dom) _ content
              (Nat.le_refl (length content))) as [Hsub Hfind].
  rewrite Hfind, <- links_retarget.
  rewrite <- (@segments_retarget (tracking_url eid dom) _
                (fun u => tracking_url_unquoted eid u Hd) content
                (Nat.le_refl (length content))).
  set (out := re_sub (replace_link eid dom) 0 content) in *.
  destruct (@re_sub_segments (fun u => u) _ out (Nat.le_refl (length out)))
    as [_ Hfind'].
  rewrite Hfind', Hsub. reflexivity.
Qed.

End LinkFacts.

(** C6.  An occurrence is a match of the pattern: the text [href=], a
    quote, a non-empty run without a quote, and a quote.  Read as plain
    characters and [N] links (the occurrences, as [re.findall] lists them),
    a content comes back from [generate_tracking_links] with the same plain
    characters and, in place of each of the [N] link addresses, its
    tracking URL; with no link it comes back unchanged; when the tracking
    host holds no double quote the links of the result, read again, are
    exactly these [N] tracking URLs.  In particular a link behind a run
    without a quote is rewritten in place, the run copied and the rest of
    the content rewritten in turn.  The tracking URL of an address spells
    the host, the quoted message identifier, the quoted address (both
    recovered by [unquote_plus]) and the tag, the first 12 hex characters
    of the SHA-256 digest of the identifier, a colon and the address.  The
    page [<a href="http://example.org/a?b=1">here</a>] of message [m1]
    comes back with the one address rewritten, tag [34fc413e1ca7]. *)
Theorem C6_links_instrumented :
  (forall s u : str,
     Tracking.match_href s = Some u <->
     exists rest,
       s = Tracking.href_open ++ u ++ Tracking.quote ++ rest /\
       u <> [] /\ Tracking.unquoted u) /\
  (forall content eid tracking_domain : str,
    let segs := Tracking.segments 0 content in
    flat_map (Tracking.render (fun u => u)) segs = content /\
    Tracking.links segs = Tracking.re_findall 0 content /\
    Tracking.generate_tracking_links content eid tracking_domain
    = Ok (flat_map
            (Tracking.render (Tracking.tracking_url eid tracking_domain))
            segs) /\
    (Tracking.re_findall 0 content = [] ->
     Tracking.generate_tracking_links content eid tracking_domain
     = Ok content) /\
    (Tracking.unquoted tracking_domain ->
     exists result,
       Tracking.generate_tracking_links content eid tracking_domain
       = Ok result /\
       Tracking.re_findall 0 result
       = map (Tracking.tracking_url eid tracking_domain)
             (Tracking.re_findall 0 content)) /\
    (forall u,
       Tracking.tracking_url eid tracking_domain u
       = lit "https://" ++ tracking_domain ++ lit "/click?eid="
         ++ Urllib.quote_plus eid ++ lit "&url=" ++ Urllib.quote_plus u
         ++ lit "&tid=" ++ Tracking.tid eid u /\
       Urllib.unquote_plus (Urllib.quote_plus eid) = eid /\
       Urllib.unquote_plus (Urllib.quote_plus u) = u /\
       Tracking.tid eid u
       = firstn 12 (SHA256.hexdigest (eid ++ lit ":" ++ u)) /\
       length (Tracking.tid eid u) = 12 /\
       forallb Tracking.is_hex (Tracking.tid eid u) = true)) /\
  (forall pre u post eid tracking_domain : str,
     Tracking.unquoted pre -> u <> [] -> Tracking.unquoted u ->
     exists rest,
       Tracking.generate_tracking_links post eid tracking_domain = Ok rest /\
       Tracking.generate_tracking_links
         (pre ++ Tracking.href_open ++ u ++ Tracking.quote ++ post)
         eid tracking_domain
       = Ok (pre ++ Tracking.href_open
             ++ Tracking.tracking_url eid tracking_domain u
             ++ Tracking.quote ++ rest)) /\
  Tracking.re_findall 0 Sample.one_link = [lit "http://example.org/a?b=1"] /\
  Tracking.generate_tracking_links Sample.one_link (lit "m1")
                                   (lit "t.example.org")
  = Ok (lit "<a " ++ Tracking.href_open
        ++ lit "https://t.example.org/click?eid=m1&url=http%3A%2F%2Fexample.org%2Fa%3Fb%3D1&tid=34fc413e1ca7"
        ++ Tracking.quote ++ lit ">here</a>").
Proof.
  split; [exact match_href_iff|]. split.
  { intros content eid dom segs.
    destruct (@re_sub_segments (Tracking.replace_link eid dom) _ content
                (Nat.le_refl (length content))) as [Hsub Hfind].
    pose proof (@segments_render _ content (Nat.le_refl (length content)))
      as Hid.
    assert (Hgen : Tracking.generate_tracking_links content eid dom
                   = Ok (flat_map
                           (Tracking.render (Tracking.tracking_url eid dom))
                           segs)).
    { unfold Tracking.generate_tracking_links. simpl. rewrite Hsub.
      reflexivity. }
    split; [exact Hid|]. split; [symmetry; exact Hfind|].
    split; [exact Hgen|]. split.
    - intros Hnone. rewrite Hgen. f_equal.
      rewrite no_links_render; [exact Hid|].
      fold segs in Hfind. rewrite <- Hfind. exact Hnone.
    - split.
      { intros Hd. eexists. split; [reflexivity|].
        apply findall_after_rewrite. exact Hd. }
      intros u. split; [apply tracking_url_spelled|].
      split; [apply unquote_quote_plus|]. split; [apply unquote_quote_plus|].
      split; [reflexivity|]. apply tid_facts. }
  split.
  { intros pre u post eid dom Hpre Hne Hu.
    exists (Tracking.re_sub (Tracking.replace_link eid dom) 0 post).
    split; [reflexivity|].
    unfold Tracking.generate_tracking_links. cbn [wrap_runtime].
    rewrite (re_sub_link (Tracking.replace_link eid dom) post Hpre Hne Hu).
    unfold Tracking.replace_link. rewrite <- !app_assoc. reflexivity. }
  split; vm_compute; reflexivity.
Qed.

(** ** Templates *)

Section TemplateFacts.
Import Template.

Lemma startswith_weaken (p s y : str) :
  Str.startswith p s = true -> Str.startswith p (s ++ y) = true.
Proof.
  revert s. induction p as [|x p IH]; intros s H; [reflexivity|].
  destruct s as [|c s]; [discriminate|]. simpl in *.
  apply andb_true_iff in H as [-> H]. simpl. apply IH. exact H.
Qed.

Lemma contains_app_l (p s y : str) :
  Str.contains p s = true -> Str.contains p (s ++ y) = true.
Proof.
  induction s as [|c s IH]; intros H.
  - simpl in H. rewrite orb_false_r in H.
    destruct p; [|discriminate]. destruct y; reflexivity.
  - cbn [Str.contains] in H. apply orb_true_iff in H as [H|H].
    + change ((c :: s) ++ y) with (c :: s ++ y).
      cbn [Str.contains]. apply orb_true_iff. left.
      apply (@startswith_weaken p (c :: s) y H).
    + change ((c :: s) ++ y) with (c :: s ++ y).
      cbn [Str.contains]. apply orb_true_iff. right. apply IH. exact H.
Qed.

Lemma contains_app_r (p x s : str) :
  Str.contains p s = true -> Str.contains p (x ++ s) = true.
Proof.
  intros H. induction x as [|c x IH]; [exact H|].
  change ((c :: x) ++ s) with (c :: x ++ s).
  cbn [Str.contains]. apply orb_true_iff. right. exact IH.
Qed.

Lemma contains_self (p y : str) : Str.contains p (p ++ y) = true.
Proof.
  destruct p as [|c p]; [destruct y; reflexivity|].
  change ((c :: p) ++ y) with (c :: p ++ y). cbn [Str.contains].
  apply orb_true_iff. left. apply (startswith_refl_app (c :: p) y).
Qed.

Lemma join_in (sep a : str) (l : list str) :
  In a l -> exists x y, Str.join sep l = x ++ a ++ y.
Proof.
  induction l as [|b l IH]; intros H; [destruct H|].
  destruct H as [->|H].
  - destruct l as [|b' l].
    + exists [], []. simpl. rewrite app_nil_r. reflexivity.
    + exists [], (sep ++ Str.join sep (b' :: l)). reflexivity.
  - destruct (IH H) as (x & y & E). destruct l as [|b' l]; [destruct H|].
    exists (b ++ sep ++ x), y.
    change (Str.join sep (b :: b' :: l))
      with (b ++ sep ++ Str.join sep (b' :: l)).
    rewrite E, <- !app_assoc. reflexivity.
Qed.

(** Every absent file is named in the message. *)
Lemma message_names (a dir : str) (missing : list str) :
  In a missing -> Str.contains a (missing_message missing dir) = true.
Proof.
  intros H. destruct (join_in (lit ", ") a missing H) as (x & y & E).
  unfold missing_message. rewrite E.
  apply contains_app_r. rewrite <- !app_assoc. apply contains_app_r.
  apply contains_self.
Qed.

Lemma validate_reports (exists_ : str -> bool) (t : template) :
  missing_attachments exists_ (attachment_dir t) (attachments t) <> [] ->
  _validate_attachments exists_ t
  = Raise (FileNotFoundError
             (missing_message
                (missing_attachments exists_ (attachment_dir t) (attachments t))
                (attachment_dir t))).
Proof.
  unfold _validate_attachments. intros H.
  destruct (attachments t) as [|a l]; [exfalso; apply H; reflexivity|].
  destruct (missing_attachments exists_ (attachment_dir t) (a :: l));
    [exfalso; apply H; reflexivity|reflexivity].
Qed.

End TemplateFacts.

(** C7 (amended).  Loading a template whose body is plain, or is base64
    that decodes, checks the declared attachments right away: when at least
    one of them is absent the load fails with the missing-attachment error,
    and its message lists, in the order of declaration, every declared
    file that is absent, each by name. *)
Theorem C7_missing_attachments_reported :
  forall (exists_ : str -> bool) (path dir : str) (lines : list str),
    let st := Template.parse_lines lines in
    let joined := Str.join Template.newline (Template.content_lines st) in
    let missing :=
      Template.missing_attachments exists_ dir (Template.p_attachments st) in
    (Template.p_is_base64 st = false \/
     exists body,
       (raw <- Base64.b64decode joined ;; Base64.decode_utf8 raw) = Ok body) ->
    (exists a, In a (Template.p_attachments st) /\
               exists_ (Template.path_join dir a) = false) ->
    Template._load_template exists_ path dir lines
    = Raise (FileNotFoundError (Template.missing_message missing dir)) /\
    missing
    = filter (fun a => negb (exists_ (Template.path_join dir a)))
             (Template.p_attachments st) /\
    (forall a, In a (Template.p_attachments st) ->
               exists_ (Template.path_join dir a) = false ->
               In a missing /\
               Str.contains a (Template.missing_message missing dir) = true).
Proof.
  intros exists_ path dir lines st joined missing Hbody [a [Ha Hna]].
  assert (Hin : forall b, In b (Template.p_attachments st) ->
                          exists_ (Template.path_join dir b) = false ->
                          In b missing).
  { intros b Hb Hnb. apply filter_In. split; [exact Hb|].
    rewrite Hnb. reflexivity. }
  assert (Hne : missing <> []).
  { intros E. specialize (Hin a Ha Hna). rewrite E in Hin. destruct Hin. }
  split; [|split; [reflexivity|]].
  - unfold Template._load_template. fold st. fold joined.
    assert (Hb : exists body,
               (if Template.p_is_base64 st
                then (raw <- Base64.b64decode joined ;; Base64.decode_utf8 raw)
                else Ok joined) = Ok body).
    { destruct Hbody as [->|[body E]]; [eauto|].
      rewrite E. destruct (Template.p_is_base64 st); eauto. }
    destruct Hb as [body ->]. cbn [bind].
    rewrite validate_reports; [reflexivity|exact Hne].
  - intros b Hb Hnb. split; [auto|]. apply message_names. auto.
Qed.

Lemma C7_witness :
  (Template.p_is_base64 (Template.parse_lines Sample.plain_body) = false \/
   exists body,
     (raw <- Base64.b64decode
               (Str.join Template.newline
                  (Template.content_lines
                     (Template.parse_lines Sample.plain_body))) ;;
      Base64.decode_utf8 raw) = Ok body) /\
  (exists a,
     In a (Template.p_attachments (Template.parse_lines Sample.plain_body)) /\
     Sample.only_b (Template.path_join (lit "attachments") a) = false) /\
  Template._load_template Sample.only_b (lit "t.txt") (lit "attachments")
                          Sample.plain_body
  = Raise (FileNotFoundError
             (lit "Missing attachments: a.pdf in directory attachments")).
Proof.
  assert (H1 : Template.p_is_base64 (Template.parse_lines Sample.plain_body)
               = false \/
               exists body,
                 (raw <- Base64.b64decode
                           (Str.join Template.newline
                              (Template.content_lines
                                 (Template.parse_lines Sample.plain_body))) ;;
                  Base64.decode_utf8 raw) = Ok body)
    by (left; reflexivity).
  assert (H2 : exists a,
             In a (Template.p_attachments
                     (Template.parse_lines Sample.plain_body)) /\
             Sample.only_b (Template.path_join (lit "attachments") a) = false)
    by (exists (lit "a.pdf"); split; [left|]; reflexivity).
  split; [exact H1|]. split; [exact H2|].
  exact (proj1 (@C7_missing_attachments_reported Sample.only_b (lit "t.txt")
                  (lit "attachments") Sample.plain_body H1 H2)).
Defined.

(** C7 as stated fails for a template whose base64 body does not decode:
    both declared attachments are absent, and the load fails with the
    decoding error, before the attachments are looked at. *)
Lemma C7_counterexample :
  Template.p_attachments (Template.parse_lines Sample.broken_body)
  = [lit "a.pdf"; lit "b.pdf"] /\
  Template.missing_attachments Sample.empty_directory (lit "attachments")
    [lit "a.pdf"; lit "b.pdf"] = [lit "a.pdf"; lit "b.pdf"] /\
  Template._load_template Sample.empty_directory (lit "t.txt")
                          (lit "attachments") Sample.broken_body
  = Raise BinasciiError.
Proof. repeat split. Qed.

(** ** Placeholders *)

Section PlaceholderFacts.
Import Template.
Local Arguments Ascii.eqb : simpl never.

Lemma replace_from_skip (old new pre rest : str) :
  Str.replace_from old new (length pre) (pre ++ rest)
  = Str.replace_from old new 0 rest.
Proof.
  induction pre as [|c pre IH]; [|exact IH].
  destruct rest; reflexivity.
Qed.

Lemma placeholder_head (key : str) :
  placeholder key = "{"%char :: "{"%char :: "."%char :: key ++ lit "}}".
Proof. reflexivity. Qed.

(** The scan copies characters that are no opening brace. *)
Lemma replace_from_copy (key new pre rest : str) :
  without "{" pre ->
  Str.replace_from (placeholder key) new 0 (pre ++ rest)
  = pre ++ Str.replace_from (placeholder key) new 0 rest.
Proof.
  induction 1 as [|c pre Hc Hpre IH]; [reflexivity|].
  change ((c :: pre) ++ rest) with (c :: pre ++ rest).
  cbn [Str.replace_from]. rewrite placeholder_head at 1.
  cbn [Str.startswith].
  assert (E : Ascii.eqb "{" c = false).
  { apply Ascii.eqb_neq. congruence. }
  rewrite E. cbn [andb]. rewrite IH. reflexivity.
Qed.

(** Two names without a closing brace, each followed by two closing
    braces: one starts the other only when the names are equal. *)
Lemma name_prefix (key name rest : str) :
  without "}" key -> without "}" name ->
  Str.startswith (key ++ lit "}}") (name ++ lit "}}" ++ rest)
  = Str.eqb name key.
Proof.
  intros Hk. revert name.
  induction Hk as [|k key Hk Hkey IH]; intros name Hn.
  - destruct Hn as [|c name Hc _]; [reflexivity|].
    simpl. destruct (Ascii.eqb "}" c) eqn:E; [|reflexivity].
    apply Ascii.eqb_eq in E. congruence.
  - destruct Hn as [|c name Hc Hname].
    + simpl. destruct (Ascii.eqb k "}") eqn:E; [|reflexivity].
      apply Ascii.eqb_eq in E. congruence.
    + change ((k :: key) ++ lit "}}") with (k :: key ++ lit "}}").
      change ((c :: name) ++ lit "}}" ++ rest)
        with (c :: name ++ lit "}}" ++ rest).
      cbn [Str.startswith Str.eqb]. rewrite (IH name Hname).
      rewrite (Ascii.eqb_sym k c). reflexivity.
Qed.

Lemma placeholder_match (key name rest : str) :
  without "}" key -> without "}" name ->
  Str.startswith (placeholder key) (placeholder name ++ rest)
  = Str.eqb name key.
Proof.
  intros Hk Hn. rewrite !placeholder_head.
  change (("{"%char :: "{"%char :: "."%char :: name ++ lit "}}") ++ rest)
    with ("{"%char :: "{"%char :: "."%char :: (name ++ lit "}}") ++ rest).
  cbn [Str.startswith]. rewrite !Ascii.eqb_refl. cbn [andb].
  rewrite <- app_assoc. apply name_prefix; assumption.
Qed.

(** A placeholder of the key is replaced ... *)
Lemma replace_from_hit (key new rest : str) :
  Str.replace_from (placeholder key) new 0 (placeholder key ++ rest)
  = new ++ Str.replace_from (placeholder key) new 0 rest.
Proof.
  rewrite (placeholder_head key) at 2.
  change (("{"%char :: "{"%char :: "."%char :: key ++ lit "}}") ++ rest)
    with ("{"%char :: ("{"%char :: "."%char :: key ++ lit "}}") ++ rest).
  cbn [Str.replace_from].
  change ("{"%char :: ("{"%char :: "."%char :: key ++ lit "}}") ++ rest)
    with (placeholder key ++ rest).
  rewrite startswith_refl_app. f_equal.
  replace (length (placeholder key) - 1)
    with (length ("{"%char :: "."%char :: key ++ lit "}}"))
    by (rewrite placeholder_head; simpl; lia).
  apply replace_from_skip.
Qed.

(** ... and a placeholder of another name is copied. *)
Lemma replace_from_miss (key name new rest : str) :
  without "}" key -> without "{" name -> without "}" name ->
  Str.eqb name key = false ->
  Str.replace_from (placeholder key) new 0 (placeholder name ++ rest)
  = placeholder name ++ Str.replace_from (placeholder key) new 0 rest.
Proof.
  intros Hk Hn1 Hn2 Hne.
  pose proof (placeholder_match rest Hk Hn2) as Hm. rewrite Hne in Hm.
  rewrite (placeholder_head name) in *.
  change (("{"%char :: "{"%char :: "."%char :: name ++ lit "}}") ++ rest)
    with ("{"%char :: "{"%char :: ("."%char :: name ++ lit "}}") ++ rest)
    in *.
  cbn [Str.replace_from]. rewrite Hm.
  rewrite (placeholder_head key) at 1. cbn [Str.startswith].
  rewrite Ascii.eqb_refl. cbn [andb].
  change (Ascii.eqb "{" ".") with false. cbn [andb].
  rewrite replace_from_copy; [reflexivity|].
  constructor; [discriminate|]. apply Forall_app. split; [exact Hn1|].
  repeat constructor; discriminate.
Qed.

(** A single opening brace starts no placeholder. *)
Lemma single_brace_no_match (key : str) (ps : list piece) :
  ~ starts_brace ps ->
  Str.startswith (placeholder key) ("{"%char :: flat_map text_of_piece ps)
  = false.
Proof.
  intros H. rewrite placeholder_head.
  destruct ps as [|[c|name] ps]; cbn [Str.startswith flat_map text_of_piece app];
    rewrite Ascii.eqb_refl; cbn [andb].
  - reflexivity.
  - assert (E : Ascii.eqb "{" c = false).
    { apply Ascii.eqb_neq. intros Hc. apply H. symmetry. exact Hc. }
    rewrite E. reflexivity.
  - exfalso. apply H. exact I.
Qed.

(** One entry of the dictionary, on a well-formed text. *)
Lemma replace_subst1 (key value : str) (ps : list piece) :
  without "}" key -> well_formed ps ->
  Str.replace (placeholder key) value (text_of ps)
  = text_of (subst1 key value ps).
Proof.
  intros Hk.
  change (Str.replace (placeholder key) value (text_of ps))
    with (Str.replace_from (placeholder key) value 0 (text_of ps)).
  induction ps as [|p ps IH]; intros Hwf; [reflexivity|].
  unfold text_of, subst1 in *. cbn [flat_map]. rewrite flat_map_app.
  destruct p as [c|name]; cbn [well_formed] in Hwf.
  - destruct Hwf as [Hc Hps].
    cbn [text_of_piece flat_map app]. rewrite <- (IH Hps).
    destruct (Ascii.eqb c "{") eqn:E.
    + apply Ascii.eqb_eq in E. subst c. cbn [Str.replace_from].
      rewrite (single_brace_no_match key ps (Hc eq_refl)). reflexivity.
    + apply (@replace_from_copy key value [c]). repeat constructor.
      apply Ascii.eqb_neq. exact E.
  - destruct Hwf as (Hn1 & Hn2 & Hps). cbn [text_of_piece].
    destruct (Str.eqb name key) eqn:E.
    + apply str_eqb_eq in E. subst name.
      rewrite replace_from_hit, (IH Hps). f_equal.
      clear. induction value as [|c v IHv]; [reflexivity|].
      simpl. f_equal. exact IHv.
    + rewrite replace_from_miss by assumption. rewrite (IH Hps).
      cbn [flat_map text_of_piece]. rewrite app_nil_r. reflexivity.
Qed.

(** A value without an opening brace, put before a well-formed text. *)
Lemma value_well_formed (value : str) (ps : list piece) :
  without "{" value -> well_formed ps -> well_formed (map Chr value ++ ps).
Proof.
  intros Hv Hps. induction Hv as [|c v Hc Hv IH]; [exact Hps|].
  cbn [map app well_formed]. split; [|exact IH].
  intros E. contradiction.
Qed.

Lemma subst1_starts_brace (key value : str) (ps : list piece) :
  without "{" value ->
  starts_brace (subst1 key value ps) -> starts_brace ps.
Proof.
  intros Hv. destruct ps as [|[c|name] ps]; [intros []| |intros _; exact I].
  intros H. exact H.
Qed.

Lemma subst1_well_formed (key value : str) (ps : list piece) :
  without "{" value -> well_formed ps -> well_formed (subst1 key value ps).
Proof.
  intros Hv. induction ps as [|p ps IH]; intros Hwf; [exact I|].
  change (subst1 key value (p :: ps))
    with ((match p with
           | Chr _ => [p]
           | Hole name => if Str.eqb name key then map Chr value else [p]
           end) ++ subst1 key value ps).
  destruct p as [c|name]; cbn [well_formed] in Hwf.
  - destruct Hwf as [Hc Hps]. cbn [app well_formed]. split; [|exact (IH Hps)].
    intros E Hs. apply (Hc E).
    exact (subst1_starts_brace key ps Hv Hs).
  - destruct Hwf as (Hn1 & Hn2 & Hps).
    destruct (Str.eqb name key).
    + apply value_well_formed; [exact Hv|exact (IH Hps)].
    + cbn [app well_formed]. split; [exact Hn1|]. split; [exact Hn2|].
      exact (IH Hps).
Qed.

(** All entries, one after the other, amount to filling every placeholder
    from the dictionary at once. *)
Lemma fold_subst1_fill (m : list (str * str)) :
  forall ps,
    text_of (fold_left (fun ps kv => subst1 (fst kv) (snd kv) ps) m ps)
    = substitute m ps.
Proof.
  induction m as [|[k v] m IH]; intros ps.
  - unfold substitute, text_of. apply flat_map_ext. intros [c|name]; reflexivity.
  - cbn [fold_left fst snd]. rewrite IH. unfold substitute, subst1.
    induction ps as [|p ps IHps]; [reflexivity|].
    cbn [flat_map]. rewrite flat_map_app, IHps. f_equal.
    destruct p as [c|name]; [reflexivity|].
    cbn [fill lookup]. rewrite (str_eqb_sym_aux k name).
    destruct (Str.eqb name k); [|simpl; rewrite app_nil_r; reflexivity].
    clear. induction v as [|c v IHv]; [reflexivity|].
    simpl. f_equal. exact IHv.
Qed.

Lemma replace_placeholders_pieces (m : list (str * str)) :
  forall sp cp : list piece,
    well_formed sp -> well_formed cp ->
    (forall k v, In (k, v) m -> without "}" k /\ without "{" v) ->
    fold_left
      (fun sc kv =>
         (Str.replace (placeholder (fst kv)) (snd kv) (fst sc),
          Str.replace (placeholder (fst kv)) (snd kv) (snd sc)))
      m (text_of sp, text_of cp)
    = (substitute m sp, substitute m cp).
Proof.
  induction m as [|[k v] m IH]; intros sp cp Hs Hc Hm.
  - cbn [fold_left]. f_equal; symmetry; apply (fold_subst1_fill []).
  - destruct (Hm k v (or_introl eq_refl)) as [Hk Hv].
    cbn [fold_left fst snd].
    rewrite !replace_subst1 by assumption.
    rewrite IH.
    + rewrite <- (fold_subst1_fill ((k, v) :: m) sp).
      rewrite <- (fold_subst1_fill ((k, v) :: m) cp).
      cbn [fold_left fst snd]. rewrite !fold_subst1_fill. reflexivity.
    + apply subst1_well_formed; assumption.
    + apply subst1_well_formed; assumption.
    + intros k' v' H. apply Hm. right. exact H.
Qed.

End PlaceholderFacts.

Ltac plain_text :=
  repeat first
    [ apply Forall_nil
    | apply Forall_cons
    | split
    | exact I
    | (intros ?; discriminate)
    | (intros _ ?; discriminate)
    | (intros _ []) ].

(** C9 (amended).  For a template in whose subject and body two opening
    braces in a row occur only where a placeholder [{{.Name}}] starts,
    [Name] without braces (single braces, as in a style sheet, may stand
    anywhere else), and a substitution map whose keys hold no closing brace
    and whose values hold no opening brace: [replace_placeholders] puts the
    value of the key in place of every placeholder whose name is a key, in
    the subject and in the body, and leaves every other character, the
    placeholders of unknown names included, as it is; it raises nothing. *)
Theorem C9_placeholders_replaced :
  forall (t : Template.template) (m : list (str * str))
         (sp cp : list Template.piece),
    Template.subject t = Template.text_of sp ->
    Template.content t = Template.text_of cp ->
    Template.well_formed sp -> Template.well_formed cp ->
    (forall k v, In (k, v) m ->
                 Template.without "}" k /\ Template.without "{" v) ->
    Template.replace_placeholders t m
    = (Template.substitute m sp, Template.substitute m cp).
Proof.
  intros t m sp cp Hs Hc Hwfs Hwfc Hm.
  unfold Template.replace_placeholders. rewrite Hs, Hc.
  apply replace_placeholders_pieces; assumption.
Qed.

Lemma C9_witness :
  Template.subject Sample.styled = Template.text_of Sample.greeting_subject /\
  Template.content Sample.styled = Template.text_of Sample.styled_content /\
  Template.well_formed Sample.greeting_subject /\
  Template.well_formed Sample.styled_content /\
  (forall k v, In (k, v) Sample.honest ->
               Template.without "}" k /\ Template.without "{" v) /\
  Template.replace_placeholders Sample.styled Sample.honest
  = (lit "Hi Ann", lit "<style>p{color:red}</style>Dear Ann").
Proof.
  assert (H1 : Template.subject Sample.styled
               = Template.text_of Sample.greeting_subject) by reflexivity.
  assert (H2 : Template.content Sample.styled
               = Template.text_of Sample.styled_content) by reflexivity.
  assert (H3 : Template.well_formed Sample.greeting_subject).
  { cbv [Sample.greeting_subject lit list_ascii_of_string map app].
    cbn [Template.well_formed Template.starts_brace].
    unfold Template.without. plain_text. }
  assert (H4 : Template.well_formed Sample.styled_content).
  { cbv [Sample.styled_content lit list_ascii_of_string map app].
    cbn [Template.well_formed Template.starts_brace].
    unfold Template.without. plain_text. }
  assert (H5 : forall k v, In (k, v) Sample.honest ->
                 Template.without "}" k /\ Template.without "{" v).
  { intros k v [H|[H|[]]]; inversion H; subst;
      unfold Template.without; cbv [lit list_ascii_of_string]; plain_text. }
  repeat (split; [assumption|]).
  exact (@C9_placeholders_replaced Sample.styled Sample.honest
           Sample.greeting_subject Sample.styled_content H1 H2 H3 H4 H5).
Defined.

(** C9 as stated fails when a value spells a placeholder of a later key:
    the entries are applied one after the other, so the first name
    [{{.LastName}}] put into the greeting is replaced in turn, and the
    subject reads [Hi Lee] instead of [Hi {{.LastName}}]. *)
Lemma C9_counterexample :
  Template.subject Sample.greeting = Template.text_of Sample.greeting_subject /\
  Template.substitute Sample.crafted Sample.greeting_subject
  = lit "Hi {{.LastName}}" /\
  fst (Template.replace_placeholders Sample.greeting Sample.crafted)
  = lit "Hi Lee" /\
  fst (Template.replace_placeholders Sample.greeting Sample.crafted)
  <> Template.substitute Sample.crafted Sample.greeting_subject.
Proof.
  repeat split. vm_compute. discriminate.
Qed.

(** * Further properties *)

Unset Implicit Arguments.

(** ** The store keeps its keys *)

Section StoreInvariants.
Import Tracking.

Lemma NoDup_snoc {A} (x : A) (l : list A) :
  ~ In x l -> NoDup l -> NoDup (l ++ [x]).
Proof.
  intros Hx Hl. induction Hl as [|y l Hy Hl IH].
  - constructor; [intros []|constructor].
  - simpl. constructor.
    + rewrite in_app_iff. intros [H|[H|[]]]; [auto|].
      subst. apply Hx. left. reflexivity.
    + apply IH. intros H. apply Hx. right. exact H.
Qed.

Lemma has_key_in {R} (key : R -> str) (k : str) (t : list R) :
  has_key key k t = true <-> In k (map key t).
Proof.
  unfold has_key. rewrite existsb_exists, in_map_iff. split.
  - intros [r [Hr E]]. apply str_eqb_eq in E. eauto.
  - intros [r [E Hr]]. exists r. split; [exact Hr|].
    apply str_eqb_eq. exact E.
Qed.

Lemma insert_keeps_keys {R} (key : R -> str) (r : R) (t t' : list R) :
  insert key r t = Ok t' -> NoDup (map key t) -> NoDup (map key t').
Proof.
  unfold insert. destruct (has_key key (key r) t) eqn:E; [discriminate|].
  intros H Hnd. inversion H; subst. rewrite map_app.
  apply NoDup_snoc; [|exact Hnd].
  intros Hin. apply has_key_in in Hin. congruence.
Qed.

Lemma insert_fresh {R} (key : R -> str) (r : R) (t : list R) :
  ~ In (key r) (map key t) -> insert key r t = Ok (t ++ [r]).
Proof.
  intros H. unfold insert. destruct (has_key key (key r) t) eqn:E;
    [|reflexivity].
  apply has_key_in in E. contradiction.
Qed.

Lemma existsb_eqb_in (x : str) (l : list str) :
  existsb (Str.eqb x) l = true <-> In x l.
Proof.
  rewrite existsb_exists. split.
  - intros [y [Hy E]]. apply str_eqb_eq in E. subst. exact Hy.
  - intros H. exists x. split; [exact H|apply str_eqb_refl].
Qed.

Lemma distinct_NoDup (l : list str) : distinct l = true <-> NoDup l.
Proof.
  induction l as [|x l IH]; simpl.
  - split; [constructor|reflexivity].
  - rewrite andb_true_iff, negb_true_iff, IH. split.
    + intros [Hx Hl]. constructor; [|exact Hl].
      intros Hin. apply existsb_eqb_in in Hin. congruence.
    + intros H. inversion H; subst. split; [|assumption].
      destruct (existsb (Str.eqb x) l) eqn:E; [|reflexivity].
      apply existsb_eqb_in in E. contradiction.
Qed.

Lemma pixels_app (a b : list email_row) : pixels (a ++ b) = pixels a ++ pixels b.
Proof.
  induction a as [|e a IH]; [reflexivity|].
  simpl. destruct (tracking_pixel_id e); rewrite IH; reflexivity.
Qed.

Lemma pixels_map (f : email_row -> email_row) (l : list email_row) :
  (forall e, tracking_pixel_id (f e) = tracking_pixel_id e) ->
  pixels (map f l) = pixels l.
Proof.
  intros Hf. induction l as [|e l IH]; [reflexivity|].
  simpl. rewrite Hf, IH. reflexivity.
Qed.

Lemma pixels_in (p : str) (l : list email_row) :
  In p (pixels l) <-> exists e, In e l /\ tracking_pixel_id e = Some p.
Proof.
  induction l as [|e l IH]; simpl.
  - split; [intros []|intros [e [[] _]]].
  - destruct (tracking_pixel_id e) as [q|] eqn:E; simpl; rewrite IH; split.
    + intros [Hq|[e' [Ha Hb]]]; [subst q; exists e; auto|exists e'; auto].
    + intros [e' [[He|Ha] Hb]]; [subst e'; left; congruence|right; eauto].
    + intros [e' [Ha Hb]]. exists e'. auto.
    + intros [e' [[He|Ha] Hb]]; [subst e'; congruence|eauto].
Qed.

Lemma pixels_filter (f : email_row -> bool) (l : list email_row) :
  NoDup (pixels l) -> NoDup (pixels (filter f l)).
Proof.
  induction l as [|e l IH]; intros H; [exact H|].
  simpl in *. destruct (tracking_pixel_id e) as [p|] eqn:E.
  - inversion H; subst. destruct (f e); [|auto].
    simpl. rewrite E. constructor; [|auto].
    intros Hin. apply pixels_in in Hin as [e' [Ha Hb]].
    apply filter_In in Ha as [Ha _].
    match goal with Hn : ~ In p (pixels l) |- _ => apply Hn end.
    apply pixels_in. eauto.
  - destruct (f e); [|auto]. simpl. rewrite E. auto.
Qed.

(** Two rows of a table with the same beacon token are the same row. *)
Lemma same_pixel_same_row (l : list email_row) (e e' : email_row) (p : str) :
  NoDup (pixels l) -> In e l -> In e' l ->
  tracking_pixel_id e = Some p -> tracking_pixel_id e' = Some p -> e = e'.
Proof.
  induction l as [|x l IH]; intros Hnd He He' Hp Hp'; [destruct He|].
  simpl in Hnd.
  assert (Hone : forall y, In y l -> tracking_pixel_id y = Some p ->
                           tracking_pixel_id x = Some p -> False).
  { intros y Hy Hyp Hxp. rewrite Hxp in Hnd. inversion Hnd; subst.
    match goal with Hn : ~ In p (pixels l) |- _ => apply Hn end.
    apply pixels_in. eauto. }
  assert (Htail : NoDup (pixels l)).
  { destruct (tracking_pixel_id x); [inversion Hnd|]; assumption. }
  destruct He as [->|He], He' as [->|He'].
  - reflexivity.
  - exfalso. eauto.
  - exfalso. eauto.
  - apply IH; assumption.
Qed.

Lemma email_of_pixel_in (d : db) (p eid : str) :
  email_of_pixel d p = Some eid ->
  exists e, In e (emails d) /\ email_id e = eid /\
            tracking_pixel_id e = Some p.
Proof.
  unfold email_of_pixel.
  destruct (filter _ (emails d)) as [|e l] eqn:E; [discriminate|].
  intros H. inversion H; subst. exists e.
  assert (Hin : In e (filter
                        (fun e => match tracking_pixel_id e with
                                  | Some p0 => Str.eqb p0 p
                                  | None => false
                                  end) (emails d)))
    by (rewrite E; left; reflexivity).
  apply filter_In in Hin as [Hin Hp]. split; [exact Hin|]. split; [reflexivity|].
  destruct (tracking_pixel_id e) as [q|]; [|discriminate].
  apply str_eqb_eq in Hp. congruence.
Qed.

Lemma email_of_pixel_none (d : db) (p : str) :
  (forall e, In e (emails d) -> tracking_pixel_id e <> Some p) ->
  email_of_pixel d p = None.
Proof.
  intros H. destruct (email_of_pixel d p) as [eid|] eqn:E; [|reflexivity].
  apply email_of_pixel_in in E as [e [Hin [_ Hp]]].
  exfalso. exact (H e Hin Hp).
Qed.

(** With tokens pairwise different, a token leads to its message. *)
Lemma email_of_pixel_owner (d : db) (e : email_row) (p : str) :
  NoDup (pixels (emails d)) -> In e (emails d) ->
  tracking_pixel_id e = Some p ->
  email_of_pixel d p = Some (email_id e).
Proof.
  intros Hnd Hin Hp.
  destruct (email_of_pixel d p) as [eid|] eqn:E.
  - apply email_of_pixel_in in E as [e' [Hin' [<- Hp']]].
    rewrite (same_pixel_same_row _ _ _ _ Hnd Hin Hin' Hp Hp'). reflexivity.
  - exfalso. unfold email_of_pixel in E.
    destruct (filter _ (emails d)) as [|x l] eqn:F; [|discriminate].
    assert (Hf : In e (filter
                         (fun e => match tracking_pixel_id e with
                                   | Some p0 => Str.eqb p0 p
                                   | None => false
                                   end) (emails d))).
    { apply filter_In. split; [exact Hin|]. rewrite Hp. apply str_eqb_refl. }
    rewrite F in Hf. destruct Hf.
Qed.

Lemma ids_set_pixel (p eid : str) (l : list email_row) :
  map email_id (map (fun e => if Str.eqb (email_id e) eid
                              then set_pixel p e else e) l)
  = map email_id l.
Proof.
  rewrite map_map. apply map_ext. intros e.
  destruct (Str.eqb (email_id e) eid); reflexivity.
Qed.

Lemma ids_set_bounced (reason eid : str) (l : list email_row) :
  map email_id (map (fun e => if Str.eqb (email_id e) eid
                              then set_bounced reason e else e) l)
  = map email_id l.
Proof.
  rewrite map_map. apply map_ext. intros e.
  destruct (Str.eqb (email_id e) eid); reflexivity.
Qed.

Lemma pixels_set_bounced (reason eid : str) (l : list email_row) :
  pixels (map (fun e => if Str.eqb (email_id e) eid
                        then set_bounced reason e else e) l)
  = pixels l.
Proof.
  apply pixels_map. intros e.
  destruct (Str.eqb (email_id e) eid); reflexivity.
Qed.

Lemma NoDup_map_filter {R} (key : R -> str) (f : R -> bool) (l : list R) :
  NoDup (map key l) -> NoDup (map key (filter f l)).
Proof.
  induction l as [|x l IH]; intros H; [exact H|].
  simpl in *. inversion H; subst. destruct (f x); [|auto].
  simpl. constructor; [|auto].
  intros Hin. apply in_map_iff in Hin as [y [E Hy]].
  apply filter_In in Hy as [Hy _].
  match goal with Hn : ~ In (key x) (map key l) |- _ => apply Hn end.
  rewrite <- E. apply in_map. exact Hy.
Qed.

(** A call that returns keeps the keys of the store pairwise different. *)
Lemma run_keeps_keys (c : call) (d d' : db) :
  run c d = Ok d' -> keys_unique d -> keys_unique d'.
Proof.
  unfold keys_unique. intros H (Hi & Hp & Ho & Hc & Hb).
  destruct c; simpl in H.
  - inversion H; subst. simpl. repeat split; constructor.
  - unfold track_email_send in H.
    destruct (insert _ _ _) as [es|] eqn:E; simpl in H; inversion H; subst.
    simpl. pose proof (insert_keeps_keys _ _ _ _ E Hi) as Hi'.
    apply insert_ok in E. subst es.
    rewrite pixels_app. simpl. rewrite app_nil_r. auto.
  - unfold create_tracking_pixel in H.
    destruct (distinct _) eqn:E; simpl in H; inversion H; subst. simpl.
    rewrite ids_set_pixel. apply distinct_NoDup in E. auto.
  - unfold track_open in H. apply wrap_runtime_ok in H.
    destruct (email_of_pixel d pixel_id); [|inversion H; subst; auto].
    destruct (insert _ _ _) as [os|] eqn:E; simpl in H; inversion H; subst.
    simpl. pose proof (insert_keeps_keys _ _ _ _ E Ho). auto.
  - unfold track_click in H. apply wrap_runtime_ok in H.
    destruct (insert _ _ _) as [cs|] eqn:E; simpl in H; inversion H; subst.
    simpl. pose proof (insert_keeps_keys _ _ _ _ E Hc). auto.
  - unfold track_bounce in H. apply wrap_runtime_ok in H.
    destruct (insert _ _ _) as [bs|] eqn:E; simpl in H; inversion H; subst.
    simpl. pose proof (insert_keeps_keys _ _ _ _ E Hb).
    rewrite ids_set_bounced, pixels_set_bounced. auto.
  - unfold cleanup_old_data in H. simpl in H. inversion H; subst. simpl.
    repeat split; try apply NoDup_map_filter; try assumption.
    apply pixels_filter. exact Hp.
Qed.

Lemma run_keeps_attached (c : call) (d d' : db) :
  run c d = Ok d' -> opens_attached d -> opens_attached d'.
Proof.
  unfold opens_attached. intros H Ha.
  destruct c; simpl in H.
  - inversion H; subst. intros o [].
  - unfold track_email_send in H.
    destruct (insert _ _ _) as [es|] eqn:E; simpl in H; inversion H; subst.
    apply insert_ok in E. subst es. simpl. intros o Ho.
    rewrite map_app, in_app_iff. left. auto.
  - unfold create_tracking_pixel in H.
    destruct (distinct _); simpl in H; inversion H; subst. simpl.
    rewrite ids_set_pixel. exact Ha.
  - unfold track_open in H. apply wrap_runtime_ok in H.
    destruct (email_of_pixel d pixel_id) as [eid|] eqn:Ep;
      [|inversion H; subst; auto].
    destruct (insert _ _ _) as [os|] eqn:E; simpl in H; inversion H; subst.
    apply insert_ok in E. subst os. simpl. intros o Ho.
    apply in_app_iff in Ho as [Ho|[<-|[]]]; [auto|]. simpl.
    apply email_of_pixel_in in Ep as [e [Hin [<- _]]].
    apply in_map. exact Hin.
  - unfold track_click in H. apply wrap_runtime_ok in H.
    destruct (insert _ _ _); simpl in H; inversion H; subst. exact Ha.
  - unfold track_bounce in H. apply wrap_runtime_ok in H.
    destruct (insert _ _ _); simpl in H; inversion H; subst. simpl.
    rewrite ids_set_bounced. exact Ha.
  - unfold cleanup_old_data in H. simpl in H. inversion H; subst. simpl.
    intros o Ho. apply filter_In in Ho as [Ho Hk].
    apply negb_true_iff in Hk.
    specialize (Ha o Ho). apply in_map_iff in Ha as [e [He Hin]].
    apply in_map_iff. exists e. split; [exact He|].
    apply filter_In. split; [exact Hin|]. apply negb_true_iff.
    destruct (Str.ltb (sent_time e) cutoff) eqn:Eold; [|reflexivity].
    exfalso.
    assert (Hold : In (o_email_id o) (old_ids d cutoff)).
    { unfold old_ids. rewrite <- He. apply in_map.
      apply filter_In. split; assumption. }
    apply existsb_eqb_in in Hold. congruence.
Qed.

Lemma run_all_keeps (P : db -> Prop) :
  (forall c d d', run c d = Ok d' -> P d -> P d') ->
  forall cs d, P d -> P (run_all cs d).
Proof.
  intros Hstep. induction cs as [|c cs IH]; intros d Hd; [exact Hd|].
  simpl. destruct (run c d) as [d'|] eqn:E; apply IH; eauto.
Qed.

End StoreInvariants.

(** X1.  In a store built by any sequence of calls on a freshly
    constructed store, the message identifiers, the beacon tokens and the
    identifiers of the open, click and bounce rows are each pairwise
    different: a call that would repeat one raises and changes nothing. *)
Theorem X1_keys_stay_unique :
  forall cs : list Tracking.call,
    Tracking.keys_unique (Tracking.run_all cs Tracking.fresh).
Proof.
  intros cs. apply (run_all_keeps Tracking.keys_unique run_keeps_keys).
  repeat split; constructor.
Qed.

(** X2.  In a store built by any sequence of calls on a freshly
    constructed store, every open row names a message that is still in the
    store: opens are recorded for known tokens only, and the purge removes
    the opens of the messages it removes. *)
Theorem X2_opens_never_orphaned :
  forall cs : list Tracking.call,
    Tracking.opens_attached (Tracking.run_all cs Tracking.fresh).
Proof.
  intros cs. apply (run_all_keeps Tracking.opens_attached run_keeps_attached).
  intros o [].
Qed.

(** ** Opens, beacons and the statistics *)

Section StoreFacts.
Import Tracking.

Lemma db_eta (d : db) : mkDb (emails d) (opens d) (clicks d) (bounces d) = d.
Proof. destruct d; reflexivity. Qed.

Lemma map_id_on {A} (f : A -> A) (l : list A) :
  (forall x, In x l -> f x = x) -> map f l = l.
Proof.
  induction l as [|x l IH]; intros H; [reflexivity|].
  simpl. rewrite H by (left; reflexivity). f_equal.
  apply IH. intros y Hy. apply H. right. exact Hy.
Qed.

(** An open for a token no message carries is dropped. *)
Lemma track_open_unknown (d : db) (p : str) ua ip co u n :
  (forall e, In e (emails d) -> tracking_pixel_id e <> Some p) ->
  track_open d p ua ip co u n = Ok d.
Proof.
  intros H. unfold track_open. rewrite (email_of_pixel_none d p H).
  reflexivity.
Qed.

(** An open for the token of a message is recorded for that message. *)
Lemma track_open_owner (d : db) (e : email_row) (p : str) ua ip co u n :
  NoDup (pixels (emails d)) -> In e (emails d) ->
  tracking_pixel_id e = Some p ->
  ~ In u (map open_id (opens d)) ->
  exists row,
    track_open d p ua ip co u n
    = Ok (mkDb (emails d) (opens d ++ [row]) (clicks d) (bounces d)) /\
    o_email_id row = email_id e /\ open_id row = u.
Proof.
  intros Hnd Hin Hp Hu. unfold track_open.
  rewrite (email_of_pixel_owner d e p Hnd Hin Hp).
  rewrite insert_fresh by exact Hu. simpl.
  eexists. split; [reflexivity|]. split; reflexivity.
Qed.

Lemma track_open_result (d d' : db) (e : email_row) (p : str) ua ip co u n :
  NoDup (pixels (emails d)) -> In e (emails d) ->
  tracking_pixel_id e = Some p ->
  track_open d p ua ip co u n = Ok d' ->
  exists row,
    d' = mkDb (emails d) (opens d ++ [row]) (clicks d) (bounces d) /\
    o_email_id row = email_id e.
Proof.
  intros Hnd Hin Hp H. unfold track_open in H.
  rewrite (email_of_pixel_owner d e p Hnd Hin Hp) in H.
  apply wrap_runtime_ok in H.
  destruct (insert _ _ _) as [os|] eqn:E; simpl in H; inversion H; subst.
  apply insert_ok in E. subst os. eexists. split; reflexivity.
Qed.

(** *** Counting joined rows *)

Lemma count_some_app {A B} (a b : list (A * option B)) :
  count_some (a ++ b) = count_some a + count_some b.
Proof. unfold count_some. rewrite filter_app, length_app. reflexivity. Qed.

Lemma count_pairs_some {R} (sel : email_row -> bool) (e : email_row)
    (l : list R) :
  count_some (filter (fun r => sel (fst r)) (map (fun x => (e, Some x)) l))
  = if sel e then length l else 0.
Proof.
  induction l as [|x l IH]; [destruct (sel e); reflexivity|].
  simpl. destruct (sel e) eqn:E.
  - change (count_some ((e, Some x) :: ?t)) with (S (count_some t)).
    rewrite IH. reflexivity.
  - exact IH.
Qed.

Lemma count_pairs {R} (sel : email_row -> bool) (e : email_row) (l : list R) :
  length (filter (fun r => sel (fst r)) (map (fun x => (e, x)) l))
  = if sel e then length l else 0.
Proof.
  induction l as [|x l IH]; [destruct (sel e); reflexivity|].
  simpl. destruct (sel e) eqn:E; simpl; rewrite IH; reflexivity.
Qed.

(** The rows of a left join that have a right side are the rows of the
    inner join. *)
Lemma left_join_count {R} (fk : R -> str) (sel : email_row -> bool)
    (es : list email_row) (t : list R) :
  count_some (filter (fun r => sel (fst r)) (left_join fk es t))
  = length (filter (fun r => sel (fst r)) (inner_join fk es t)).
Proof.
  unfold left_join, inner_join.
  induction es as [|e es IH]; [reflexivity|].
  cbn [flat_map]. rewrite !filter_app, count_some_app, length_app, IH.
  f_equal. rewrite count_pairs.
  destruct (filter (fun x => Str.eqb (email_id e) (fk x)) t) as [|r l].
  - simpl. destruct (sel e); reflexivity.
  - apply (count_pairs_some sel e (r :: l)).
Qed.

(** One more row in the right table adds the rows of its messages. *)
Lemma inner_join_snoc {R} (fk : R -> str) (sel : email_row -> bool)
    (es : list email_row) (t : list R) (x : R) :
  length (filter (fun r => sel (fst r)) (inner_join fk es (t ++ [x])))
  = length (filter (fun r => sel (fst r)) (inner_join fk es t))
    + length (filter (fun e => sel e && Str.eqb (email_id e) (fk x)) es).
Proof.
  unfold inner_join.
  induction es as [|e es IH]; [reflexivity|].
  cbn [flat_map filter]. rewrite !filter_app, !length_app, IH, !count_pairs.
  rewrite length_app. cbn [filter].
  destruct (sel e), (Str.eqb (email_id e) (fk x)); simpl; lia.
Qed.

Lemma filter_and {A} (f g : A -> bool) (l : list A) :
  filter (fun x => f x && g x) l = filter f (filter g l).
Proof.
  induction l as [|x l IH]; [reflexivity|].
  simpl. destruct (g x); simpl; rewrite ?andb_false_r, ?andb_true_r;
    [destruct (f x)|]; rewrite IH; reflexivity.
Qed.

(** With identifiers pairwise different, an identifier selects its row. *)
Lemma filter_by_id (es : list email_row) (e0 : email_row) :
  NoDup (map email_id es) -> In e0 es ->
  filter (fun e => Str.eqb (email_id e) (email_id e0)) es = [e0].
Proof.
  induction es as [|e es IH]; intros Hnd Hin; [destruct Hin|].
  simpl in Hnd. inversion Hnd as [|? ? Hnot Hnd']; subst.
  assert (Hnone : ~ In (email_id e) (map email_id es) ->
                  filter (fun x => Str.eqb (email_id x) (email_id e)) es = []).
  { clear. intros Hn. induction es as [|y es IHes]; [reflexivity|].
    simpl. destruct (Str.eqb (email_id y) (email_id e)) eqn:E.
    - exfalso. apply Hn. left. apply str_eqb_eq. exact E.
    - apply IHes. intros H. apply Hn. right. exact H. }
  simpl. destruct Hin as [->|Hin].
  - rewrite str_eqb_refl, (Hnone Hnot). reflexivity.
  - destruct (Str.eqb (email_id e) (email_id e0)) eqn:E.
    + exfalso. apply str_eqb_eq in E. apply Hnot. rewrite E.
      apply in_map. exact Hin.
    + apply IH; assumption.
Qed.

Lemma one_owner (sel : email_row -> bool) (es : list email_row)
    (e0 : email_row) :
  NoDup (map email_id es) -> In e0 es ->
  length (filter (fun e => sel e && Str.eqb (email_id e) (email_id e0)) es)
  = if sel e0 then 1 else 0.
Proof.
  intros Hnd Hin. rewrite filter_and, (filter_by_id es e0 Hnd Hin).
  simpl. destruct (sel e0); reflexivity.
Qed.

Lemma no_owner (sel : email_row -> bool) (es : list email_row) (k : str) :
  ~ In k (map email_id es) ->
  filter (fun e => sel e && Str.eqb (email_id e) k) es = [].
Proof.
  intros Hn. induction es as [|e es IH]; [reflexivity|].
  simpl. destruct (Str.eqb (email_id e) k) eqn:E.
  - exfalso. apply Hn. left. apply str_eqb_eq. exact E.
  - rewrite andb_false_r. apply IH. intros H. apply Hn. right. exact H.
Qed.

(** The groups of a GROUP BY share out the rows. *)
Lemma fold_counts (groups : list (str * nat)) (a : nat) :
  fold_left (fun acc g => acc + snd g) groups a
  = a + fold_left (fun acc g => acc + snd g) groups 0.
Proof.
  revert a. induction groups as [|g groups IH]; intros a; simpl; [lia|].
  rewrite IH, (IH (snd g)). lia.
Qed.

Lemma filter_split_length {A} (f : A -> bool) (l : list A) :
  length (filter f l) + length (filter (fun x => negb (f x)) l) = length l.
Proof.
  induction l as [|x l IH]; [reflexivity|].
  simpl. destruct (f x); simpl; lia.
Qed.

Lemma sum_counts_group_by {R} (key : R -> str) (fuel : nat) :
  forall rows : list R,
    length rows <= fuel ->
    sum_counts (group_by key (@length R) rows fuel) = length rows.
Proof.
  unfold sum_counts.
  induction fuel as [|fuel IH]; intros rows Hl.
  - destruct rows; [reflexivity|simpl in Hl; lia].
  - destruct rows as [|r rows]; [reflexivity|].
    cbn [group_by fold_left snd]. rewrite fold_counts, IH.
    + apply (filter_split_length
               (fun x => Str.eqb (key x) (key r)) (r :: rows)).
    + pose proof (filter_split_length
                    (fun x => Str.eqb (key x) (key r)) (r :: rows)) as H.
      assert (1 <= length (filter (fun x => Str.eqb (key x) (key r))
                              (r :: rows))).
      { simpl. rewrite str_eqb_refl. simpl. lia. }
      simpl in Hl. simpl length in H at 3. lia.
Qed.

(** The counts of [get_campaign_stats], read off the tables. *)
Lemma stats_counts (d : db) campaign start_date end_date now st :
  get_campaign_stats d campaign start_date end_date now = Ok st ->
  let sel := selected campaign start_date end_date in
  total_sent st = length (filter sel (emails d)) /\
  unique_recipients st
  = count_distinct (map recipient_email (filter sel (emails d))) /\
  total_opens st
  = length (filter (fun r => sel (fst r))
              (inner_join o_email_id (emails d) (opens d))) /\
  total_clicks st
  = length (filter (fun r => sel (fst r))
              (inner_join c_email_id (emails d) (clicks d))) /\
  st_bounces st
  = length (filter (fun r => sel (fst r))
              (inner_join b_email_id (emails d) (bounces d))).
Proof.
  unfold get_campaign_stats. rewrite !rate_percentage. cbn [bind wrap_runtime].
  intros H. inversion H; subst; clear H. cbn zeta.
  cbn [total_sent unique_recipients total_opens total_clicks st_bounces].
  rewrite !left_join_count, sum_counts_group_by by apply Nat.le_refl.
  repeat split.
Qed.

(** Rows rewritten in place, keeping identifier and selection, join and
    count as before. *)
Lemma inner_join_map {R} (fk : R -> str) (sel : email_row -> bool)
    (u : email_row -> email_row) (es : list email_row) (t : list R) :
  (forall e, email_id (u e) = email_id e) -> (forall e, sel (u e) = sel e) ->
  length (filter (fun r => sel (fst r)) (inner_join fk (map u es) t))
  = length (filter (fun r => sel (fst r)) (inner_join fk es t)).
Proof.
  intros Hid Hsel. unfold inner_join.
  induction es as [|e es IH]; [reflexivity|].
  cbn [map flat_map]. rewrite !filter_app, !length_app, IH, !count_pairs.
  rewrite Hid, Hsel. reflexivity.
Qed.

Lemma filter_map_keep (sel : email_row -> bool) (u : email_row -> email_row)
    (f : email_row -> str) (es : list email_row) :
  (forall e, sel (u e) = sel e) -> (forall e, f (u e) = f e) ->
  map f (filter sel (map u es)) = map f (filter sel es).
Proof.
  intros Hsel Hf. induction es as [|e es IH]; [reflexivity|].
  simpl. rewrite Hsel. destruct (sel e); simpl; rewrite ?Hf, IH; reflexivity.
Qed.

Lemma selected_set_bounced campaign sd ed reason eid (e : email_row) :
  selected campaign sd ed
    (if Str.eqb (email_id e) eid then set_bounced reason e else e)
  = selected campaign sd ed e.
Proof. destruct (Str.eqb (email_id e) eid); reflexivity. Qed.

(** A click for an identifier of no message joins with nothing. *)
Lemma left_join_orphan {R} (fk : R -> str) (es : list email_row)
    (t : list R) (x : R) :
  ~ In (fk x) (map email_id es) ->
  left_join fk es (t ++ [x]) = left_join fk es t.
Proof.
  intros Hn. unfold left_join.
  induction es as [|e es IH]; [reflexivity|].
  cbn [flat_map]. rewrite IH by (intros H; apply Hn; right; exact H).
  rewrite filter_app. cbn [filter].
  destruct (Str.eqb (email_id e) (fk x)) eqn:E.
  - exfalso. apply Hn. left. apply str_eqb_eq. exact E.
  - rewrite app_nil_r. reflexivity.
Qed.

End StoreFacts.

(** X3.  [track_open] with a beacon token that no message of the store
    carries records nothing and raises nothing: the store is returned as
    it was. *)
Theorem X3_unknown_token_ignored :
  forall (d : Tracking.db) (pixel_id : str)
         (user_agent ip_address country : option str) (uuid now : str),
    (forall e, In e (Tracking.emails d) ->
               Tracking.tracking_pixel_id e <> Some pixel_id) ->
    Tracking.track_open d pixel_id user_agent ip_address country uuid now
    = Ok d.
Proof. exact track_open_unknown. Qed.

Lemma X3_witness :
  (forall e, In e (Tracking.emails Sample.store) ->
             Tracking.tracking_pixel_id e <> Some (lit "p9")) /\
  Tracking.track_open Sample.store (lit "p9") Sample.agent Sample.address None
                      (lit "o1") (lit "2024-05-01T11:00:00.000000")
  = Ok Sample.store.
Proof.
  assert (H : forall e, In e (Tracking.emails Sample.store) ->
                        Tracking.tracking_pixel_id e <> Some (lit "p9")).
  { intros e [<-|[<-|[]]] E; vm_compute in E; discriminate E. }
  split; [exact H|].
  exact (X3_unknown_token_ignored Sample.store (lit "p9") Sample.agent
           Sample.address None (lit "o1")
           (lit "2024-05-01T11:00:00.000000") H).
Defined.

(** X4.  In a store with pairwise different keys, a recorded open of a
    message adds exactly one to the [total_opens] of every statistics
    query that selects the message and nothing to the others; it changes
    neither [total_sent] nor [unique_opens]. *)
Theorem X4_open_counted_once :
  forall (d d' : Tracking.db) (e : Tracking.email_row) (pixel_id : str)
         (user_agent ip_address country : option str) (uuid now : str)
         (campaign : str) (start_date end_date : option str) (at_ : str),
    Tracking.keys_unique d ->
    In e (Tracking.emails d) ->
    Tracking.tracking_pixel_id e = Some pixel_id ->
    Tracking.track_open d pixel_id user_agent ip_address country uuid now
    = Ok d' ->
    exists st st',
      Tracking.get_campaign_stats d campaign start_date end_date at_ = Ok st /\
      Tracking.get_campaign_stats d' campaign start_date end_date at_
      = Ok st' /\
      Tracking.total_opens st'
      = Tracking.total_opens st
        + (if Tracking.selected campaign start_date end_date e
           then 1 else 0) /\
      Tracking.total_sent st' = Tracking.total_sent st /\
      Tracking.unique_opens st' = Tracking.unique_opens st.
Proof.
  intros d d' e p ua ip co u n campaign sd ed at_ Hk Hin Hp H.
  destruct Hk as (Hi & Hpx & _).
  destruct (track_open_result d d' e p ua ip co u n Hpx Hin Hp H)
    as (row & -> & Hrow).
  destruct (stats_total d campaign sd ed at_) as [st E].
  destruct (stats_total
              (Tracking.mkDb (Tracking.emails d) (Tracking.opens d ++ [row])
                             (Tracking.clicks d) (Tracking.bounces d))
              campaign sd ed at_) as [st' E'].
  exists st, st'. split; [exact E|]. split; [exact E'|].
  pose proof (unique_opens_ignores_opens _ _ _ _ _ E) as Hu.
  pose proof (unique_opens_ignores_opens _ _ _ _ _ E') as Hu'.
  apply stats_counts in E as (Hs & _ & Ho & _).
  apply stats_counts in E' as (Hs' & _ & Ho' & _).
  cbn [Tracking.emails Tracking.opens] in *.
  split; [|split; congruence].
  rewrite Ho', Ho, inner_join_snoc, Hrow, one_owner by assumption.
  reflexivity.
Qed.

Lemma X4_witness :
  Tracking.keys_unique Sample.store /\
  In Sample.mail1 (Tracking.emails Sample.store) /\
  Tracking.tracking_pixel_id Sample.mail1 = Some (lit "p1") /\
  Tracking.run Sample.first_open Sample.store = Ok Sample.opened_once /\
  exists st st',
    Sample.stats_of Sample.store = Ok st /\
    Sample.stats_of Sample.opened_once = Ok st' /\
    Tracking.total_opens st' = Tracking.total_opens st + 1.
Proof.
  assert (H1 : Tracking.keys_unique Sample.store).
  { split; [apply distinct_NoDup; reflexivity|].
    split; [apply distinct_NoDup; reflexivity|].
    repeat split; constructor. }
  assert (H2 : In Sample.mail1 (Tracking.emails Sample.store))
    by (left; reflexivity).
  assert (H3 : Tracking.tracking_pixel_id Sample.mail1 = Some (lit "p1"))
    by reflexivity.
  assert (H4 : Tracking.run Sample.first_open Sample.store
               = Ok Sample.opened_once) by (vm_compute; reflexivity).
  repeat (split; [assumption|]).
  destruct (X4_open_counted_once Sample.store Sample.opened_once Sample.mail1
              (lit "p1") Sample.agent Sample.address None (lit "o1")
              (lit "2024-05-01T11:00:00.000000") (lit "c1") None None
              (lit "2024-05-02T00:00:00.000000") H1 H2 H3 H4)
    as (st & st' & E & E' & Ho & _).
  exists st, st'. split; [exact E|]. split; [exact E'|]. exact Ho.
Defined.

(** X5.  In a store with pairwise different keys, a recorded bounce of a
    message leaves [total_sent] and [unique_recipients] of every
    statistics query as they were (the message stays counted once as
    sent), adds exactly one to the bounces of the queries that select the
    message, and marks the message [bounced] with the reason given. *)
Theorem X5_bounce_counted_once :
  forall (d d' : Tracking.db) (e : Tracking.email_row)
         (btype reason : str) (descr : option str) (uuid now : str)
         (campaign : str) (start_date end_date : option str) (at_ : str),
    Tracking.keys_unique d ->
    In e (Tracking.emails d) ->
    Tracking.track_bounce d (Tracking.email_id e) btype reason descr uuid now
    = Ok d' ->
    In (Tracking.set_bounced reason e) (Tracking.emails d') /\
    exists st st',
      Tracking.get_campaign_stats d campaign start_date end_date at_ = Ok st /\
      Tracking.get_campaign_stats d' campaign start_date end_date at_
      = Ok st' /\
      Tracking.total_sent st' = Tracking.total_sent st /\
      Tracking.unique_recipients st' = Tracking.unique_recipients st /\
      Tracking.st_bounces st'
      = Tracking.st_bounces st
        + (if Tracking.selected campaign start_date end_date e
           then 1 else 0).
Proof.
  intros d d' e btype reason descr u n campaign sd ed at_ Hk Hin H.
  destruct Hk as (Hi & _).
  unfold Tracking.track_bounce in H. apply wrap_runtime_ok in H.
  destruct (Tracking.insert _ _ _) as [bs|] eqn:Eb; simpl in H;
    inversion H; subst; clear H.
  apply insert_ok in Eb. subst bs. cbn [Tracking.emails]. split.
  { apply in_map_iff. exists e. split; [|exact Hin].
    rewrite str_eqb_refl. reflexivity. }
  set (upd := fun x => if Str.eqb (Tracking.email_id x) (Tracking.email_id e)
                       then Tracking.set_bounced reason x else x).
  destruct (stats_total d campaign sd ed at_) as [st E].
  destruct (stats_total
              (Tracking.mkDb (map upd (Tracking.emails d)) (Tracking.opens d)
                 (Tracking.clicks d)
                 (Tracking.bounces d ++
                  [Tracking.mkBounce u (Tracking.email_id e) n btype reason
                                     descr]))
              campaign sd ed at_) as [st' E'].
  exists st, st'. split; [exact E|]. split; [exact E'|].
  apply stats_counts in E as (Hs & Hr & _ & _ & Hb).
  apply stats_counts in E' as (Hs' & Hr' & _ & _ & Hb').
  cbn [Tracking.emails Tracking.bounces] in *.
  assert (Hsel : forall x, Tracking.selected campaign sd ed (upd x)
                           = Tracking.selected campaign sd ed x)
    by (intros x; apply selected_set_bounced).
  assert (Hid : forall x, Tracking.email_id (upd x) = Tracking.email_id x).
  { intros x. unfold upd.
    destruct (Str.eqb (Tracking.email_id x) (Tracking.email_id e));
      reflexivity. }
  assert (Hrec : forall x, Tracking.recipient_email (upd x)
                           = Tracking.recipient_email x).
  { intros x. unfold upd.
    destruct (Str.eqb (Tracking.email_id x) (Tracking.email_id e));
      reflexivity. }
  split; [|split].
  - rewrite Hs', Hs, <- !(length_map Tracking.email_id).
    rewrite (filter_map_keep _ upd Tracking.email_id _ Hsel Hid).
    reflexivity.
  - rewrite Hr', Hr.
    rewrite (filter_map_keep _ upd Tracking.recipient_email _ Hsel Hrec).
    reflexivity.
  - rewrite Hb', Hb, inner_join_snoc.
    rewrite (inner_join_map Tracking.b_email_id _ upd _ _ Hid Hsel).
    f_equal. cbn [Tracking.b_email_id].
    rewrite <- (one_owner (Tracking.selected campaign sd ed)
                  (Tracking.emails d) e Hi Hin).
    rewrite <- !(length_map Tracking.email_id).
    f_equal.
    apply (filter_map_keep
             (fun x => Tracking.selected campaign sd ed x
                       && Str.eqb (Tracking.email_id x) (Tracking.email_id e))
             upd Tracking.email_id).
    + intros x. rewrite Hsel, Hid. reflexivity.
    + exact Hid.
Qed.

Lemma X5_witness :
  Tracking.keys_unique Sample.store /\
  In Sample.mail1 (Tracking.emails Sample.store) /\
  Tracking.run Sample.a_bounce Sample.store = Ok Sample.bounced_once /\
  exists st st',
    Sample.stats_of Sample.store = Ok st /\
    Sample.stats_of Sample.bounced_once = Ok st' /\
    Tracking.total_sent st' = Tracking.total_sent st /\
    Tracking.st_bounces st' = Tracking.st_bounces st + 1.
Proof.
  assert (H1 : Tracking.keys_unique Sample.store).
  { split; [apply distinct_NoDup; reflexivity|].
    split; [apply distinct_NoDup; reflexivity|].
    repeat split; constructor. }
  assert (H2 : In Sample.mail1 (Tracking.emails Sample.store))
    by (left; reflexivity).
  assert (H3 : Tracking.run Sample.a_bounce Sample.store
               = Ok Sample.bounced_once) by (vm_compute; reflexivity).
  repeat (split; [assumption|]).
  destruct (X5_bounce_counted_once Sample.store Sample.bounced_once
              Sample.mail1 (lit "hard") (lit "mailbox full") None (lit "b1")
              (lit "2024-05-01T13:00:00.000000") (lit "c1") None None
              (lit "2024-05-02T00:00:00.000000") H1 H2 H3)
    as (_ & st & st' & E & E' & Hs & _ & Hb).
  exists st, st'. repeat (split; [assumption|]). exact Hb.
Defined.

(** X6.  After [cleanup_old_data] no message sent before the cut-off is
    left, no open, click or bounce row names a purged message, and a second
    purge with the same cut-off changes nothing. *)
Theorem X6_purge_complete :
  forall (d d' : Tracking.db) (cutoff : str),
    Tracking.cleanup_old_data d cutoff = Ok d' ->
    Tracking.old_ids d' cutoff = [] /\
    (forall o, In o (Tracking.opens d') ->
               ~ In (Tracking.o_email_id o) (Tracking.old_ids d cutoff)) /\
    (forall c, In c (Tracking.clicks d') ->
               ~ In (Tracking.c_email_id c) (Tracking.old_ids d cutoff)) /\
    (forall b, In b (Tracking.bounces d') ->
               ~ In (Tracking.b_email_id b) (Tracking.old_ids d cutoff)) /\
    Tracking.cleanup_old_data d' cutoff = Ok d'.
Proof.
  intros d d' cutoff H.
  unfold Tracking.cleanup_old_data in H. simpl in H.
  inversion H; subst; clear H.
  assert (Hold : forall l,
            filter (fun e => Str.ltb (Tracking.sent_time e) cutoff)
              (filter (fun e => negb (Str.ltb (Tracking.sent_time e) cutoff)) l)
            = []).
  { induction l as [|e l IH]; [reflexivity|].
    simpl. destruct (Str.ltb (Tracking.sent_time e) cutoff) eqn:E; simpl;
      [|rewrite E]; exact IH. }
  assert (Hid : forall (A : Type) (l : list A), filter (fun _ => true) l = l).
  { intros A l. induction l as [|x l IH]; [reflexivity|].
    simpl. rewrite IH. reflexivity. }
  split; [|split; [|split; [|split]]].
  - unfold Tracking.old_ids. cbn [Tracking.emails]. rewrite Hold. reflexivity.
  - intros o Ho Hin. cbn [Tracking.opens] in Ho.
    apply filter_In in Ho as [_ Hk]. apply negb_true_iff in Hk.
    apply existsb_eqb_in in Hin. congruence.
  - intros c Hc Hin. cbn [Tracking.clicks] in Hc.
    apply filter_In in Hc as [_ Hk]. apply negb_true_iff in Hk.
    apply existsb_eqb_in in Hin. congruence.
  - intros b Hb Hin. cbn [Tracking.bounces] in Hb.
    apply filter_In in Hb as [_ Hk]. apply negb_true_iff in Hk.
    apply existsb_eqb_in in Hin. congruence.
  - unfold Tracking.cleanup_old_data, Tracking.old_ids.
    cbn [Tracking.emails Tracking.opens Tracking.clicks Tracking.bounces
         wrap_runtime].
    rewrite Hold. cbn [map existsb negb]. rewrite !Hid.
    f_equal. f_equal.
    clear. induction (Tracking.emails d) as [|e l IH]; [reflexivity|].
    simpl. destruct (Str.ltb (Tracking.sent_time e) cutoff) eqn:E; simpl;
      [|rewrite E; simpl; f_equal]; exact IH.
Qed.

Lemma X6_witness :
  Tracking.cleanup_old_data Sample.opened_once
    (lit "2024-05-01T10:00:00.500000") = Ok Sample.purged /\
  Tracking.opens Sample.purged = [] /\
  map Tracking.email_id (Tracking.emails Sample.purged) = [lit "m2"] /\
  Tracking.cleanup_old_data Sample.purged (lit "2024-05-01T10:00:00.500000")
  = Ok Sample.purged.
Proof.
  assert (H : Tracking.cleanup_old_data Sample.opened_once
                (lit "2024-05-01T10:00:00.500000") = Ok Sample.purged)
    by (vm_compute; reflexivity).
  split; [exact H|]. split; [vm_compute; reflexivity|].
  split; [vm_compute; reflexivity|].
  exact (proj2 (proj2 (proj2 (proj2
           (X6_purge_complete Sample.opened_once Sample.purged
              (lit "2024-05-01T10:00:00.500000") H))))).
Defined.

(** X7.  [track_click] stores a click for any identifier, also one that no
    message carries (nothing is checked against the messages); such a
    click changes the statistics of no campaign. *)
Theorem X7_orphan_click_not_counted :
  forall (d d' : Tracking.db) (eid url : str)
         (user_agent ip_address country : option str) (uuid now : str),
    ~ In eid (map Tracking.email_id (Tracking.emails d)) ->
    Tracking.track_click d eid url user_agent ip_address country uuid now
    = Ok d' ->
    (exists row, Tracking.clicks d' = Tracking.clicks d ++ [row] /\
                 Tracking.c_email_id row = eid) /\
    forall campaign start_date end_date at_,
      Tracking.get_campaign_stats d' campaign start_date end_date at_
      = Tracking.get_campaign_stats d campaign start_date end_date at_.
Proof.
  intros d d' eid url ua ip co u n Hn H.
  unfold Tracking.track_click in H. apply wrap_runtime_ok in H.
  destruct (Tracking.insert _ _ _) as [cs|] eqn:E; simpl in H;
    inversion H; subst; clear H.
  apply insert_ok in E. subst cs. cbn [Tracking.clicks]. split.
  - eexists. split; reflexivity.
  - intros campaign sd ed at_. unfold Tracking.get_campaign_stats.
    cbn [Tracking.emails Tracking.opens Tracking.clicks Tracking.bounces].
    rewrite left_join_orphan by exact Hn. reflexivity.
Qed.

Lemma X7_witness :
  ~ In (lit "m9") (map Tracking.email_id (Tracking.emails Sample.store)) /\
  Tracking.track_click Sample.store (lit "m9") (lit "http://example.org/")
    Sample.agent Sample.address None (lit "k1")
    (lit "2024-05-01T11:30:00.000000") = Ok Sample.stray_click /\
  Sample.stats_of Sample.stray_click = Sample.stats_of Sample.store.
Proof.
  assert (H1 : ~ In (lit "m9")
                 (map Tracking.email_id (Tracking.emails Sample.store))).
  { intros [E|[E|[]]]; vm_compute in E; discriminate E. }
  assert (H2 : Tracking.track_click Sample.store (lit "m9")
                 (lit "http://example.org/") Sample.agent Sample.address None
                 (lit "k1") (lit "2024-05-01T11:30:00.000000")
               = Ok Sample.stray_click) by (vm_compute; reflexivity).
  split; [exact H1|]. split; [exact H2|].
  exact (proj2 (X7_orphan_click_not_counted Sample.store Sample.stray_click
                  (lit "m9") (lit "http://example.org/") Sample.agent
                  Sample.address None (lit "k1")
                  (lit "2024-05-01T11:30:00.000000") H1 H2)
               (lit "c1") None None (lit "2024-05-02T00:00:00.000000")).
Defined.

(** X8.  The beacon minted for a message of the store leads back to it:
    [generate_tracking_pixel] stores the token on the message and returns
    the image tag that carries it, and a later [track_open] with that
    token (and a new row identifier) records an open of that message. *)
Theorem X8_beacon_round_trip :
  forall (d d1 : Tracking.db) (eid tracking_domain token html : str)
         (user_agent ip_address country : option str) (uuid now : str),
    In eid (map Tracking.email_id (Tracking.emails d)) ->
    Tracking.generate_tracking_pixel d eid tracking_domain token
    = Ok (d1, html) ->
    ~ In uuid (map Tracking.open_id (Tracking.opens d1)) ->
    html = Tracking.pixel_html tracking_domain token /\
    exists row,
      Tracking.track_open d1 token user_agent ip_address country uuid now
      = Ok (Tracking.mkDb (Tracking.emails d1) (Tracking.opens d1 ++ [row])
                          (Tracking.clicks d1) (Tracking.bounces d1)) /\
      Tracking.o_email_id row = eid /\ Tracking.open_id row = uuid.
Proof.
  intros d d1 eid dom px html ua ip co u n Hin H Hu.
  unfold Tracking.generate_tracking_pixel, Tracking.create_tracking_pixel in H.
  destruct (Tracking.distinct _) eqn:Ed; simpl in H; inversion H; subst;
    clear H.
  split; [reflexivity|].
  apply distinct_NoDup in Ed.
  apply in_map_iff in Hin as [e [He Hin]].
  set (upd := fun x => if Str.eqb (Tracking.email_id x) eid
                       then Tracking.set_pixel px x else x) in *.
  assert (Hin' : In (upd e) (map upd (Tracking.emails d)))
    by (apply in_map; exact Hin).
  assert (Hpx : Tracking.tracking_pixel_id (upd e) = Some px).
  { unfold upd. rewrite He, str_eqb_refl. reflexivity. }
  assert (Hid : Tracking.email_id (upd e) = eid).
  { unfold upd. rewrite He, str_eqb_refl. exact He. }
  destruct (track_open_owner
              (Tracking.mkDb (map upd (Tracking.emails d)) (Tracking.opens d)
                             (Tracking.clicks d) (Tracking.bounces d))
              (upd e) px ua ip co u n Ed Hin' Hpx Hu)
    as (row & E & Hrow & Hu').
  exists row. split; [exact E|]. split; [congruence|exact Hu'].
Qed.

Lemma X8_witness :
  In (lit "m3") (map Tracking.email_id (Tracking.emails Sample.untracked)) /\
  Tracking.generate_tracking_pixel Sample.untracked (lit "m3")
    (lit "t.example.org") (lit "p3")
  = Ok (Sample.tracked, Tracking.pixel_html (lit "t.example.org") (lit "p3")) /\
  ~ In (lit "o1") (map Tracking.open_id (Tracking.opens Sample.tracked)) /\
  exists row,
    Tracking.track_open Sample.tracked (lit "p3") Sample.agent Sample.address
      None (lit "o1") (lit "2024-05-01T11:00:00.000000")
    = Ok (Tracking.mkDb (Tracking.emails Sample.tracked)
            (Tracking.opens Sample.tracked ++ [row])
            (Tracking.clicks Sample.tracked)
            (Tracking.bounces Sample.tracked)) /\
    Tracking.o_email_id row = lit "m3".
Proof.
  assert (H1 : In (lit "m3")
                 (map Tracking.email_id (Tracking.emails Sample.untracked)))
    by (left; reflexivity).
  assert (H2 : Tracking.generate_tracking_pixel Sample.untracked (lit "m3")
                 (lit "t.example.org") (lit "p3")
               = Ok (Sample.tracked,
                     Tracking.pixel_html (lit "t.example.org") (lit "p3")))
    by (vm_compute; reflexivity).
  assert (H3 : ~ In (lit "o1")
                 (map Tracking.open_id (Tracking.opens Sample.tracked)))
    by (intros []).
  repeat (split; [assumption|]).
  destruct (X8_beacon_round_trip Sample.untracked Sample.tracked (lit "m3")
              (lit "t.example.org") (lit "p3")
              (Tracking.pixel_html (lit "t.example.org") (lit "p3"))
              Sample.agent Sample.address None (lit "o1")
              (lit "2024-05-01T11:00:00.000000") H1 H2 H3)
    as (_ & row & E & Hrow & _).
  exists row. split; [exact E|exact Hrow].
Defined.

(** X9.  [create_tracking_pixel] for an identifier that no message carries
    raises nothing and returns the token, but stores nothing; an open sent
    with such a token is dropped. *)
Theorem X9_token_for_unknown_message :
  forall (d : Tracking.db) (eid token : str),
    ~ In eid (map Tracking.email_id (Tracking.emails d)) ->
    NoDup (Tracking.pixels (Tracking.emails d)) ->
    Tracking.create_tracking_pixel d eid token = Ok (d, token) /\
    (~ In token (Tracking.pixels (Tracking.emails d)) ->
     forall user_agent ip_address country uuid now,
       Tracking.track_open d token user_agent ip_address country uuid now
       = Ok d).
Proof.
  intros d eid px Hn Hnd. split.
  - unfold Tracking.create_tracking_pixel.
    rewrite (map_id_on _ (Tracking.emails d)).
    + apply distinct_NoDup in Hnd. rewrite Hnd. simpl. rewrite db_eta.
      reflexivity.
    + intros e He.
      destruct (Str.eqb (Tracking.email_id e) eid) eqn:E; [|reflexivity].
      exfalso. apply Hn. apply str_eqb_eq in E. rewrite <- E.
      apply in_map. exact He.
  - intros Hfresh ua ip co u n. apply track_open_unknown.
    intros e He Hp. apply Hfresh. apply pixels_in. eauto.
Qed.

Lemma X9_witness :
  ~ In (lit "m9") (map Tracking.email_id (Tracking.emails Sample.store)) /\
  NoDup (Tracking.pixels (Tracking.emails Sample.store)) /\
  Tracking.create_tracking_pixel Sample.store (lit "m9") (lit "p9")
  = Ok (Sample.store, lit "p9").
Proof.
  assert (H1 : ~ In (lit "m9")
                 (map Tracking.email_id (Tracking.emails Sample.store))).
  { intros [E|[E|[]]]; vm_compute in E; discriminate E. }
  assert (H2 : NoDup (Tracking.pixels (Tracking.emails Sample.store)))
    by (apply distinct_NoDup; reflexivity).
  split; [exact H1|]. split; [exact H2|].
  exact (proj1 (X9_token_for_unknown_message Sample.store (lit "m9")
                  (lit "p9") H1 H2)).
Defined.

(** ** A recorded send *)

Section SendFacts.
Import Tracking.

Lemma inner_join_new_email {R} (fk : R -> str) (es : list email_row)
    (e : email_row) (t : list R) :
  inner_join fk (es ++ [e]) t
  = inner_join fk es t
    ++ map (fun x => (e, x)) (filter (fun x => Str.eqb (email_id e) (fk x)) t).
Proof.
  unfold inner_join. rewrite flat_map_app. cbn [flat_map].
  rewrite app_nil_r. reflexivity.
Qed.

Lemma filter_none {A} (f : A -> bool) (l : list A) :
  (forall x, In x l -> f x = false) -> filter f l = [].
Proof.
  induction l as [|x l IH]; intros H; [reflexivity|].
  simpl. rewrite (H x) by (left; reflexivity).
  apply IH. intros y Hy. apply H. right. exact Hy.
Qed.

End SendFacts.

(** X10.  A send that [track_email_send] recorded is counted once: it adds
    exactly one to [total_sent] of the statistics queries that select it,
    by campaign and period, and nothing to the others; and in a store whose
    opens all belong to messages it starts without opens, so
    [total_opens] is as before. *)
Theorem X10_send_counted_once :
  forall (d d' : Tracking.db) (recipient template campaign : str)
         (meta : option str) (uuid now id : str)
         (c : str) (start_date end_date : option str) (at_ : str),
    Tracking.opens_attached d ->
    Tracking.track_email_send d recipient template campaign meta uuid now
    = Ok (d', id) ->
    id = uuid /\
    exists row st st',
      Tracking.emails d' = Tracking.emails d ++ [row] /\
      Tracking.email_id row = uuid /\
      Tracking.status row = lit "sent" /\
      Tracking.get_campaign_stats d c start_date end_date at_ = Ok st /\
      Tracking.get_campaign_stats d' c start_date end_date at_ = Ok st' /\
      Tracking.total_sent st'
      = Tracking.total_sent st
        + (if Tracking.selected c start_date end_date row then 1 else 0) /\
      Tracking.total_opens st' = Tracking.total_opens st.
Proof.
  intros d d' recipient template campaign meta uuid now id c sd ed at_ Ha H.
  unfold Tracking.track_email_send in H. apply wrap_runtime_ok in H.
  unfold Tracking.insert in H.
  destruct (Tracking.has_key _ _ _) eqn:Ek; simpl in H; inversion H; subst;
    clear H.
  split; [reflexivity|].
  set (row := Tracking.mkEmail id campaign recipient template now (lit "sent")
                               None None meta).
  destruct (stats_total d c sd ed at_) as [st E].
  destruct (stats_total
              (Tracking.mkDb (Tracking.emails d ++ [row]) (Tracking.opens d)
                             (Tracking.clicks d) (Tracking.bounces d))
              c sd ed at_) as [st' E'].
  exists row, st, st'.
  split; [reflexivity|]. split; [reflexivity|]. split; [reflexivity|].
  split; [exact E|]. split; [exact E'|].
  apply stats_counts in E as (Hs & _ & Ho & _).
  apply stats_counts in E' as (Hs' & _ & Ho' & _).
  cbn [Tracking.emails Tracking.opens] in *.
  split.
  - rewrite Hs', Hs, filter_app, length_app. cbn [filter].
    destruct (Tracking.selected c sd ed row); reflexivity.
  - rewrite Ho', Ho, inner_join_new_email.
    rewrite (filter_none
               (fun x => Str.eqb (Tracking.email_id row) (Tracking.o_email_id x))).
    + cbn [map]. rewrite app_nil_r. reflexivity.
    + intros o Hin. destruct (Str.eqb _ _) eqn:Eq; [|reflexivity].
      exfalso. apply str_eqb_eq in Eq. cbn [Tracking.email_id row] in Eq.
      specialize (Ha o Hin). rewrite <- Eq in Ha.
      apply (has_key_in Tracking.email_id) in Ha.
      cbn [Tracking.email_id] in Ek. congruence.
Qed.

Lemma X10_witness :
  Tracking.opens_attached Sample.opened_once /\
  Tracking.track_email_send Sample.opened_once (lit "cy@example.org")
    (lit "templates/hello.html") (lit "c1") None (lit "m3")
    (lit "2024-05-01T12:00:00.000000")
  = Ok (Tracking.mkDb
          (Tracking.emails Sample.opened_once
           ++ [Tracking.mkEmail (lit "m3") (lit "c1") (lit "cy@example.org")
                 (lit "templates/hello.html")
                 (lit "2024-05-01T12:00:00.000000") (lit "sent")
                 None None None])
          (Tracking.opens Sample.opened_once)
          (Tracking.clicks Sample.opened_once)
          (Tracking.bounces Sample.opened_once), lit "m3") /\
  exists st st',
    Sample.stats_of Sample.opened_once = Ok st /\
    Tracking.total_sent st = 2 /\ Tracking.total_sent st' = 3 /\
    Tracking.total_opens st' = Tracking.total_opens st.
Proof.
  assert (H1 : Tracking.opens_attached Sample.opened_once).
  { intros o [<-|[]]. left. reflexivity. }
  assert (H2 : Tracking.track_email_send Sample.opened_once
                 (lit "cy@example.org") (lit "templates/hello.html")
                 (lit "c1") None (lit "m3")
                 (lit "2024-05-01T12:00:00.000000")
               = Ok (Tracking.mkDb
                       (Tracking.emails Sample.opened_once
                        ++ [Tracking.mkEmail (lit "m3") (lit "c1")
                              (lit "cy@example.org")
                              (lit "templates/hello.html")
                              (lit "2024-05-01T12:00:00.000000") (lit "sent")
                              None None None])
                       (Tracking.opens Sample.opened_once)
                       (Tracking.clicks Sample.opened_once)
                       (Tracking.bounces Sample.opened_once), lit "m3"))
    by (vm_compute; reflexivity).
  split; [exact H1|]. split; [exact H2|].
  destruct (X10_send_counted_once Sample.opened_once _ (lit "cy@example.org")
              (lit "templates/hello.html") (lit "c1") None (lit "m3")
              (lit "2024-05-01T12:00:00.000000") (lit "m3") (lit "c1")
              None None (lit "2024-05-02T00:00:00.000000") H1 H2)
    as (_ & row & st & st' & Hd & Hid & _ & E & E' & Hs & Ho).
  exists st, st'. split; [exact E|].
  assert (Hrow : row = Tracking.mkEmail (lit "m3") (lit "c1")
                         (lit "cy@example.org") (lit "templates/hello.html")
                         (lit "2024-05-01T12:00:00.000000") (lit "sent")
                         None None None).
  { cbn [Tracking.emails] in Hd. apply app_inv_head in Hd.
    inversion Hd. reflexivity. }
  assert (H2s : Tracking.total_sent st = 2).
  { unfold Sample.stats_of in E. vm_compute in E. inversion E. reflexivity. }
  split; [exact H2s|]. split; [|exact Ho].
  rewrite Hs, H2s, Hrow. reflexivity.
Defined.

(** ** Templates *)

Section LoaderFacts.
Import Template.

Lemma parse_blank (st : parse_state) (blank : str) :
  strip blank = [] ->
  parse_line st blank
  = mkParse (p_subject st) (p_is_html st) (p_is_base64 st) (p_attachments st)
            false (content_lines st).
Proof.
  intros H. unfold parse_line. rewrite H.
  destruct st as [s h b a [|] c]; reflexivity.
Qed.

Lemma parse_body (post : list str) :
  forall st : parse_state,
    in_headers st = false ->
    fold_left parse_line post st
    = mkParse (p_subject st) (p_is_html st) (p_is_base64 st)
              (p_attachments st) false
              (content_lines st ++ filter nonempty (map strip post)).
Proof.
  induction post as [|raw post IH]; intros st Hh.
  - simpl. rewrite app_nil_r. destruct st; simpl in *; subst; reflexivity.
  - cbn [fold_left map filter]. unfold parse_line at 2. rewrite Hh.
    destruct (strip raw) as [|c line] eqn:E.
    + cbn [nonempty]. apply IH. exact Hh.
    + cbn [nonempty]. rewrite IH by reflexivity.
      cbn [p_subject p_is_html p_is_base64 p_attachments content_lines].
      rewrite <- app_assoc. reflexivity.
Qed.

Lemma filter_nil_all {A} (f : A -> bool) (l : list A) :
  filter (fun x => negb (f x)) l = [] -> Forall (fun x => f x = true) l.
Proof.
  induction l as [|x l IH]; intros H; [constructor|].
  simpl in H. destruct (f x) eqn:E; simpl in H; [|discriminate].
  constructor; [exact E|apply IH; exact H].
Qed.

Lemma replace_without (key value s : str) :
  without "{" s -> Str.replace (placeholder key) value s = s.
Proof.
  intros H. rewrite placeholder_head. unfold Str.replace.
  rewrite <- (placeholder_head key).
  pose proof (@replace_from_copy key value s [] H) as E.
  rewrite app_nil_r in E. cbn [Str.replace_from] in E.
  rewrite app_nil_r in E. exact E.
Qed.

End LoaderFacts.

(** X11.  The first blank line of a template file ends the headers for
    good: whatever follows it, also a line that starts with [Subject:],
    [Encoding:] or [Attachments:], changes neither the subject nor the flags
    nor the attachment list, and every later line that is not blank becomes
    a line of the body, stripped. *)
Theorem X11_blank_line_ends_headers :
  forall (pre : list str) (blank : str) (post : list str),
    Template.strip blank = [] ->
    let before := Template.parse_lines pre in
    let st := Template.parse_lines (pre ++ blank :: post) in
    Template.p_subject st = Template.p_subject before /\
    Template.p_is_html st = Template.p_is_html before /\
    Template.p_is_base64 st = Template.p_is_base64 before /\
    Template.p_attachments st = Template.p_attachments before /\
    Template.content_lines st
    = Template.content_lines before
      ++ filter Template.nonempty (map Template.strip post).
Proof.
  intros pre blank post H before st. unfold st, Template.parse_lines.
  rewrite fold_left_app. cbn [fold_left].
  rewrite (parse_blank _ blank H), parse_body by reflexivity.
  repeat split.
Qed.

Lemma X11_witness :
  Template.strip (lit "  " ++ Template.newline) = [] /\
  let st := Template.parse_lines
              (Sample.file_lines ["Subject: Invoice"]
               ++ (lit "  " ++ Template.newline)
               :: Sample.file_lines ["Subject: Hello"; "Encoding: base64"]) in
  Template.p_subject st = lit "Invoice" /\
  Template.p_is_base64 st = false /\
  Template.content_lines st = [lit "Subject: Hello"; lit "Encoding: base64"].
Proof.
  assert (H : Template.strip (lit "  " ++ Template.newline) = [])
    by (vm_compute; reflexivity).
  split; [exact H|].
  destruct (X11_blank_line_ends_headers
              (Sample.file_lines ["Subject: Invoice"])
              (lit "  " ++ Template.newline)
              (Sample.file_lines ["Subject: Hello"; "Encoding: base64"]) H)
    as (Hs & _ & Hb & _ & Hc).
  cbv zeta.
  split; [etransitivity; [exact Hs|vm_compute; reflexivity]|].
  split; [etransitivity; [exact Hb|vm_compute; reflexivity]|].
  etransitivity; [exact Hc|vm_compute; reflexivity].
Defined.

(** X12.  A template that was constructed has all its attachments: when
    [_load_template] returns, every path [get_attachment_paths] gives
    exists, and the template carries the path and the attachment directory
    it was built with. *)
Theorem X12_loaded_template_has_its_files :
  forall (exists_ : str -> bool) (path dir : str) (lines : list str)
         (t : Template.template),
    Template._load_template exists_ path dir lines = Ok t ->
    Forall (fun p => exists_ p = true) (Template.get_attachment_paths t) /\
    Template.template_path t = path /\ Template.attachment_dir t = dir.
Proof.
  intros exists_ path dir lines t H.
  unfold Template._load_template in H.
  destruct (if Template.p_is_base64 (Template.parse_lines lines)
            then _ else _) as [body|e]; simpl in H; [|discriminate].
  destruct (Template._validate_attachments exists_ _) eqn:V; simpl in H;
    inversion H; subst; clear H.
  split; [|split; reflexivity].
  unfold Template.get_attachment_paths.
  unfold Template._validate_attachments in V.
  cbn [Template.attachments Template.attachment_dir] in *.
  apply Forall_map.
  destruct (Template.p_attachments (Template.parse_lines lines))
    as [|a0 l0] eqn:Ea; [constructor|].
  destruct (Template.missing_attachments exists_ dir (a0 :: l0)) eqn:M;
    [|discriminate].
  apply (filter_nil_all (fun x => exists_ (Template.path_join dir x))).
  exact M.
Qed.

Lemma X12_witness :
  exists t,
    Template._load_template Sample.everything_there (lit "t.txt")
      (lit "attachments") Sample.plain_body = Ok t /\
    Template.get_attachment_paths t
    = [lit "attachments/a.pdf"; lit "attachments/b.pdf"] /\
    Forall (fun p => Sample.everything_there p = true)
           (Template.get_attachment_paths t).
Proof.
  eexists. split; [vm_compute; reflexivity|].
  split; [vm_compute; reflexivity|].
  refine (proj1 (X12_loaded_template_has_its_files Sample.everything_there
                   (lit "t.txt") (lit "attachments") Sample.plain_body _ _)).
  vm_compute; reflexivity.
Defined.

(** X13.  A subject and a body that hold no opening brace come out of
    [replace_placeholders] as they went in, for every substitution map,
    whatever its keys and values are. *)
Theorem X13_plain_text_untouched :
  forall (t : Template.template) (replacements : list (str * str)),
    Template.without "{" (Template.subject t) ->
    Template.without "{" (Template.content t) ->
    Template.replace_placeholders t replacements
    = (Template.subject t, Template.content t).
Proof.
  intros t m Hs Hc. unfold Template.replace_placeholders.
  induction m as [|[k v] m IH]; [reflexivity|].
  cbn [fold_left fst snd].
  rewrite (replace_without k v _ Hs), (replace_without k v _ Hc).
  exact IH.
Qed.

Lemma X13_witness :
  Template.without "{" (lit "Invoice") /\
  Template.without "{" (lit "Dear customer") /\
  Template.replace_placeholders
    (Template.mkTemplate (lit "t.txt") (lit "attachments") (lit "Invoice")
                         (lit "Dear customer") false false [])
    Sample.crafted
  = (lit "Invoice", lit "Dear customer").
Proof.
  assert (H1 : Template.without "{" (lit "Invoice")) by plain_text.
  assert (H2 : Template.without "{" (lit "Dear customer")) by plain_text.
  split; [exact H1|]. split; [exact H2|].
  exact (X13_plain_text_untouched
           (Template.mkTemplate (lit "t.txt") (lit "attachments")
              (lit "Invoice") (lit "Dear customer") false false [])
           Sample.crafted H1 H2).
Defined.

(** ** Routing during a send *)

Section RoutingFacts.
Import Sender.
Variable cfg : config.
Variable w : world.

Lemma unrouted_refl (st : state) : use_tor st = false -> unrouted_step st st.
Proof.
  intros H. split; [exact H|]. split; [reflexivity|].
  exists []. split; [symmetry; apply app_nil_r|reflexivity].
Qed.

Lemma unrouted_extend (st st1 st' : state) (evs : list event) :
  unrouted_step st1 st' ->
  refreshes st1 = refreshes st -> trace st1 = trace st ++ evs ->
  pacing evs = evs ->
  unrouted_step st st'.
Proof.
  intros (Hu & Hr' & evs' & Ht' & Hp') Hr Ht Hp.
  split; [exact Hu|]. split; [congruence|].
  exists (evs ++ evs'). split.
  - rewrite Ht', Ht, app_assoc. reflexivity.
  - rewrite (pacing_app evs evs'), Hp, Hp'. reflexivity.
Qed.

Lemma smtp_unrouted (n : nat) :
  forall st : state,
    use_tor st = false -> unrouted_step st (snd (smtp_loop cfg w n st)).
Proof.
  induction n as [|n IH]; intros st Hu; [apply unrouted_refl; exact Hu|].
  cbn [smtp_loop]. rewrite Hu. unfold attempt.
  destruct (transport w (attempts st)) eqn:Eo.
  - cbn [snd]. split; [exact Hu|]. split; [reflexivity|].
    exists [Attempt Delivered]. split; reflexivity.
  - destruct n as [|n'].
    + cbn [snd]. split; [exact Hu|]. split; [reflexivity|].
      exists [Attempt Disconnected]. split; reflexivity.
    + destruct (Qle_bool 0 (retry_delay cfg)).
      * cbn [log use_tor]. rewrite Hu.
        eapply (unrouted_extend st _ _
                  [Attempt Disconnected; RetryWait (retry_delay cfg)]);
          [apply IH; first [exact Hu|reflexivity|cbn; exact Hu]
          |reflexivity
          |cbn [log refreshes trace]; rewrite <- app_assoc; reflexivity
          |reflexivity].
      * cbn [snd]. split; [exact Hu|]. split; [reflexivity|].
        exists [Attempt Disconnected]. split; reflexivity.
  - destruct n as [|n'].
    + cbn [snd]. split; [exact Hu|]. split; [reflexivity|].
      exists [Attempt Faulted]. split; reflexivity.
    + destruct (Qle_bool 0 (retry_delay cfg)).
      * eapply (unrouted_extend st _ _
                  [Attempt Faulted; RetryWait (retry_delay cfg)]);
          [apply IH; first [exact Hu|reflexivity|cbn; exact Hu]
          |reflexivity
          |cbn [log refreshes trace]; rewrite <- app_assoc; reflexivity
          |reflexivity].
      * cbn [snd]. split; [exact Hu|]. split; [reflexivity|].
        exists [Attempt Faulted]. split; reflexivity.
Qed.

Lemma api_unrouted (n : nat) :
  forall st : state,
    use_tor st = false -> unrouted_step st (snd (api_loop cfg w n st)).
Proof.
  induction n as [|n IH]; intros st Hu; [apply unrouted_refl; exact Hu|].
  cbn [api_loop]. rewrite Hu. unfold attempt.
  destruct (transport w (attempts st)) eqn:Eo.
  - cbn [snd]. split; [exact Hu|]. split; [reflexivity|].
    exists [Attempt Delivered]. split; reflexivity.
  - destruct n as [|n'].
    + cbn [snd]. split; [exact Hu|]. split; [reflexivity|].
      exists [Attempt Disconnected]. split; reflexivity.
    + destruct (Qle_bool 0 (retry_delay cfg)).
      * eapply (unrouted_extend st _ _
                  [Attempt Disconnected; RetryWait (retry_delay cfg)]);
          [apply IH; first [exact Hu|reflexivity|cbn; exact Hu]
          |reflexivity
          |cbn [log refreshes trace]; rewrite <- app_assoc; reflexivity
          |reflexivity].
      * cbn [snd]. split; [exact Hu|]. split; [reflexivity|].
        exists [Attempt Disconnected]. split; reflexivity.
  - destruct n as [|n'].
    + cbn [snd]. split; [exact Hu|]. split; [reflexivity|].
      exists [Attempt Faulted]. split; reflexivity.
    + destruct (Qle_bool 0 (retry_delay cfg)).
      * eapply (unrouted_extend st _ _
                  [Attempt Faulted; RetryWait (retry_delay cfg)]);
          [apply IH; first [exact Hu|reflexivity|cbn; exact Hu]
          |reflexivity
          |cbn [log refreshes trace]; rewrite <- app_assoc; reflexivity
          |reflexivity].
      * cbn [snd]. split; [exact Hu|]. split; [reflexivity|].
        exists [Attempt Faulted]. split; reflexivity.
Qed.







End RoutingFacts.



(** X15.  A send that starts with routing off never turns it on and never
    touches the control port: on both paths the flag is off at the end,
    no refresh was requested, and the only effects are transport attempts
    and retry waits. *)
Theorem X15_unrouted_send_stays_unrouted :
  forall (cfg : Sender.config) (w : Sender.world) (st : Sender.state)
         (send : Sender.config -> Sender.world -> Sender.state ->
                 result unit * Sender.state),
    send = Sender._send_via_smtp \/ send = Sender._send_via_api ->
    Sender.use_tor st = false ->
    let st' := snd (send cfg w st) in
    Sender.use_tor st' = false /\
    Sender.refreshes st' = Sender.refreshes st /\
    exists evs,
      Sender.trace st' = Sender.trace st ++ evs /\ Sender.pacing evs = evs.
Proof.
  intros cfg w st send [->| ->] Hu st'; unfold st'.
  - unfold Sender._send_via_smtp. exact (smtp_unrouted cfg w _ st Hu).
  - unfold Sender._send_via_api. exact (api_unrouted cfg w _ st Hu).
Qed.

Lemma X15_witness :
  (Sender._send_via_smtp = Sender._send_via_smtp \/
   Sender._send_via_smtp = Sender._send_via_api) /\
  Sender.use_tor (Sender.start false) = false /\
  Sender.refreshes
    (snd (Sender._send_via_smtp Sample.three_tries Sample.second_time
            (Sender.start false))) = 0.
Proof.
  assert (H1 : Sender._send_via_smtp = Sender._send_via_smtp \/
               Sender._send_via_smtp = Sender._send_via_api)
    by (left; reflexivity).
  assert (H2 : Sender.use_tor (Sender.start false) = false) by reflexivity.
  split; [exact H1|]. split; [exact H2|].
  exact (proj1 (proj2 (X15_unrouted_send_stays_unrouted Sample.three_tries
                         Sample.second_time (Sender.start false)
                         Sender._send_via_smtp H1 H2))).
Defined.



(** ** The handler of the anonymising network *)

Section HandlerFacts.
Import Tor.


End HandlerFacts.

(** X17.  The refresh interval of [TorHandler.refresh_circuit] runs from
    the last new-circuit signal that was sent, whether or not the exit
    address changed afterwards: once an enabled handler whose interval has
    run out gets its signal through, every request made less than
    [refresh_interval] later returns [False] and does nothing. *)
Theorem X17_interval_runs_from_signal :
  forall (h : Tor.handler) (now : Q) (w : Tor.world),
    Tor.enabled h = true ->
    (Tor.refresh_interval h <= now - Tor.last_refresh h)%Q ->
    Tor.control w = Sender.ControlOk ->
    (0 <= Tor.circuit_timeout h)%Q ->
    let run := Tor.refresh_circuit h now w in
    let h' := snd (fst run) in
    In Tor.SignalNewnym (snd run) /\
    Tor.last_refresh h' = now /\
    forall (later : Q) (w' : Tor.world),
      (later - now < Tor.refresh_interval h)%Q ->
      Tor.refresh_circuit h' later w' = (Ok false, h', []).
Proof.
  intros h now w He Hi Hc _ run h'. unfold h', run, Tor.refresh_circuit.
  rewrite He, Hc. cbn [negb].
  destruct (Qlt_le_dec (now - Tor.last_refresh h) (Tor.refresh_interval h))
    as [Hlt|_]; [exfalso; exact (Qlt_not_le _ _ Hlt Hi)|].
  destruct (truthy (Tor.new_ip w) &&
            negb (Tor.opt_eqb (Tor.new_ip w) (Tor.old_ip w)));
    cbn [fst snd Tor.last_refresh Tor.enabled Tor.refresh_interval];
    (split; [simpl; auto|]); (split; [reflexivity|]);
    intros later w' Hl; rewrite ?He; cbn [negb];
    (destruct (Qlt_le_dec (later - now) (Tor.refresh_interval h))
      as [_|Hle]; [reflexivity|exfalso; exact (Qlt_not_le _ _ Hl Hle)]).
Qed.

Lemma X17_witness :
  Tor.enabled Sample.due = true /\
  (Tor.refresh_interval Sample.due <= 1000 - Tor.last_refresh Sample.due)%Q /\
  Tor.control Sample.same_exit = Sender.ControlOk /\
  (0 <= Tor.circuit_timeout Sample.due)%Q /\
  fst (fst (Tor.refresh_circuit Sample.due 1000 Sample.same_exit)) = Ok false /\
  Tor.refresh_circuit
    (snd (fst (Tor.refresh_circuit Sample.due 1000 Sample.same_exit)))
    1030 Sample.exit_changes
  = (Ok false,
     snd (fst (Tor.refresh_circuit Sample.due 1000 Sample.same_exit)), []).
Proof.
  assert (H1 : Tor.enabled Sample.due = true) by reflexivity.
  assert (H2 : (Tor.refresh_interval Sample.due
                <= 1000 - Tor.last_refresh Sample.due)%Q)
    by (vm_compute; discriminate).
  assert (H3 : Tor.control Sample.same_exit = Sender.ControlOk)
    by reflexivity.
  assert (H4 : (0 <= Tor.circuit_timeout Sample.due)%Q)
    by (vm_compute; discriminate).
  repeat (split; [assumption|]).
  split; [vm_compute; reflexivity|].
  apply (proj2 (proj2 (X17_interval_runs_from_signal Sample.due 1000
                         Sample.same_exit H1 H2 H3 H4))).
  vm_compute; reflexivity.
Defined.

(** X18.  A request that does not get through to the control port leaves
    no mark on the handler: no signal is sent, no settle time is waited
    and the handler, with the time of its last refresh, is as before, so
    the next request is not held back by this one.  It returns [False]
    unless failures are forced to be fatal, in which case a request that
    was due raises. *)
Theorem X18_failed_refresh_leaves_no_mark :
  forall (h : Tor.handler) (now : Q) (w : Tor.world),
    Tor.control w <> Sender.ControlOk ->
    let run := Tor.refresh_circuit h now w in
    snd (fst run) = h /\
    ~ In Tor.SignalNewnym (snd run) /\
    (forall s, ~ In (Tor.Sleep s) (snd run)) /\
    (Tor.force_tor h = false -> fst (fst run) = Ok false) /\
    (Tor.force_tor h = true -> Tor.enabled h = true ->
     (Tor.refresh_interval h <= now - Tor.last_refresh h)%Q ->
     fst (fst run) = Raise Tor.refresh_failed).
Proof.
  intros h now w Hc run. unfold run, Tor.refresh_circuit.
  destruct (Tor.enabled h); cbn [negb].
  - destruct (Qlt_le_dec (now - Tor.last_refresh h) (Tor.refresh_interval h))
      as [Hlt|Hle].
    + cbn [fst snd]. split; [reflexivity|]. split; [intros []|].
      split; [intros s []|]. split; [reflexivity|].
      intros _ _ Hi. exfalso. exact (Qlt_not_le _ _ Hlt Hi).
    + destruct (Tor.control w); [congruence| | |]; cbn [fst snd];
        (split; [reflexivity|]);
        (split; [simpl; intuition discriminate|]);
        (split; [intros s; simpl; intuition discriminate|]);
        (split; [intros ->; reflexivity|intros -> _ _; reflexivity]).
  - cbn [fst snd]. split; [reflexivity|]. split; [intros []|].
    split; [intros s []|]. split; [reflexivity|].
    intros _ Hf. discriminate Hf.
Qed.

Lemma X18_witness :
  Tor.control Sample.port_closed <> Sender.ControlOk /\
  Tor.refresh_circuit Sample.due 1000 Sample.port_closed
  = (Ok false, Sample.due, [Tor.ProbeIp]).
Proof.
  assert (H : Tor.control Sample.port_closed <> Sender.ControlOk)
    by (simpl; discriminate).
  split; [exact H|].
  destruct (X18_failed_refresh_leaves_no_mark Sample.due 1000
              Sample.port_closed H) as (Hh & _ & _ & Hr & _).
  specialize (Hr eq_refl).
  destruct (Tor.refresh_circuit Sample.due 1000 Sample.port_closed)
    as [[r h'] evs] eqn:E.
  cbn [fst snd] in Hh, Hr. subst r h'.
  f_equal. vm_compute in E. congruence.
Defined.



(** X26.  [TorHandler.verify_connection] returns [True] only when the
    connection check did not fail, the direct address is known and differs
    from the address seen through Tor, and [refresh_circuit] changed the
    exit address.  Because that refresh starts the refresh interval, a
    second verification made less than [refresh_interval] later never
    returns [True], whatever the network does: it returns [False], or
    raises when failures are forced to be fatal. *)
Theorem X26_verification_not_repeatable :
  forall (h h' : Tor.handler) (p : Tor.probing) (answers : nat -> Tor.answer)
         (original_ip tor_ip : option str) (now : Q) (w : Tor.world),
    (0 <= Tor.circuit_timeout h)%Q ->
    Tor.verify_connection h p answers original_ip tor_ip now w
    = (Ok true, h') ->
    (exists ip, original_ip = Some ip /\ tor_ip <> Some ip) /\
    (exists evs, Tor.refresh_circuit h now w = (Ok true, h', evs)) /\
    (forall e, fst (fst (Tor._test_tor_connection p answers)) <> Raise e) /\
    forall (p2 : Tor.probing) (answers2 : nat -> Tor.answer)
           (original2 tor2 : option str) (later : Q) (w2 : Tor.world),
      (later - now < Tor.refresh_interval h)%Q ->
      Tor.verify_connection h' p2 answers2 original2 tor2 later w2
      = (if Tor.force_tor h then Raise Tor.verification_failed else Ok false,
         h').
Proof.
  intros h h' p answers original_ip tor_ip now w _ H.
  unfold Tor.verify_connection in H.
  destruct (Tor._test_tor_connection p answers) as [[[res|e] n] evs] eqn:Et.
  2: { destruct (Tor.force_tor h); inversion H. }
  destruct original_ip as [ip|].
  2: { destruct (Tor.force_tor h); inversion H. }
  destruct (Tor.opt_eqb (Some ip) tor_ip) eqn:Eip.
  { destruct (Tor.force_tor h); inversion H. }
  destruct (Tor.refresh_circuit h now w) as [[[[|]|e] h1] evs1] eqn:Er;
    try (destruct (Tor.force_tor h); inversion H; fail).
  inversion H; subst h1; clear H.
  split.
  { exists ip. split; [reflexivity|]. intros ->.
    cbn [Tor.opt_eqb] in Eip. rewrite str_eqb_refl in Eip. discriminate Eip. }
  split; [exists evs1; reflexivity|].
  split; [intros e; cbn [fst]; discriminate|].
  (* the refresh that succeeded has set the time of the last refresh *)
  assert (Hh : Tor.enabled h' = true /\ Tor.last_refresh h' = now /\
               Tor.refresh_interval h' = Tor.refresh_interval h /\
               Tor.force_tor h' = Tor.force_tor h).
  { unfold Tor.refresh_circuit in Er.
    destruct (Tor.enabled h) eqn:Ee; cbn [negb] in Er; [|inversion Er].
    destruct (Qlt_le_dec (now - Tor.last_refresh h) (Tor.refresh_interval h));
      [inversion Er|].
    destruct (Tor.control w);
      try (destruct (Tor.force_tor h); inversion Er; fail).
    destruct (truthy (Tor.new_ip w) &&
              negb (Tor.opt_eqb (Tor.new_ip w) (Tor.old_ip w)));
      inversion Er; subst h'; cbn; auto. }
  destruct Hh as (He & Hl & Hi & Hf).
  intros p2 answers2 original2 tor2 later w2 Hlt.
  assert (Hr : Tor.refresh_circuit h' later w2 = (Ok false, h', [])).
  { unfold Tor.refresh_circuit. rewrite He, Hl, Hi. cbn [negb].
    destruct (Qlt_le_dec (later - now) (Tor.refresh_interval h))
      as [_|Hle]; [reflexivity|exfalso; exact (Qlt_not_le _ _ Hlt Hle)]. }
  unfold Tor.verify_connection. rewrite Hr, Hf.
  destruct (Tor._test_tor_connection p2 answers2) as [[[res2|e2] n2] evs2];
    [|reflexivity].
  destruct original2 as [ip2|]; [|reflexivity].
  destruct (Tor.opt_eqb (Some ip2) tor2); reflexivity.
Qed.

Lemma X26_witness :
  (0 <= Tor.circuit_timeout Sample.due)%Q /\
  exists h',
    Tor.verify_connection Sample.due Sample.three_probes Sample.third_confirms
      Sample.direct_address (Some (lit "185.220.101.1")) 1000
      Sample.port_open = (Ok true, h') /\
    Tor.verify_connection h' Sample.three_probes Sample.third_confirms
      Sample.direct_address (Some (lit "185.220.101.2")) 1030
      Sample.port_open = (Ok false, h').
Proof.
  assert (H1 : (0 <= Tor.circuit_timeout Sample.due)%Q)
    by (vm_compute; discriminate).
  split; [exact H1|].
  eexists. split; [vm_compute; reflexivity|].
  refine (proj2 (proj2 (proj2
            (X26_verification_not_repeatable Sample.due _ Sample.three_probes
               Sample.third_confirms Sample.direct_address
               (Some (lit "185.220.101.1")) 1000 Sample.port_open H1 _)))
            Sample.three_probes Sample.third_confirms Sample.direct_address
            (Some (lit "185.220.101.2")) 1030%Q Sample.port_open _).
  - vm_compute; reflexivity.
  - vm_compute; reflexivity.
Defined.

(** ** The campaign loop and its recipients *)

Section LoopFacts.
Import Campaign.
Variable cfg : settings.
Variable w : world.

Lemma returned_app (a b : list event) :
  returned (a ++ b) = returned a + returned b.
Proof. unfold returned. rewrite filter_app, length_app. reflexivity. Qed.

Lemma email_pauses_app (a b : list event) :
  email_pauses (a ++ b) = email_pauses a + email_pauses b.
Proof. unfold email_pauses. rewrite filter_app, length_app. reflexivity. Qed.

Lemma send_batch_pauses (t : str) (batch : list str) :
  forall n,
    email_pauses (fst (send_batch cfg w t batch n))
    = returned (fst (send_batch cfg w t batch n)).
Proof.
  induction batch as [|r batch IH]; intros n; [reflexivity|].
  cbn [send_batch].
  destruct (send_batch cfg w t batch (S n)) as [evs' n'] eqn:E.
  specialize (IH (S n)). rewrite E in IH. cbn [fst] in *.
  rewrite email_pauses_app, returned_app, IH.
  destruct (send_email w n t r); reflexivity.
Qed.

Lemma send_batches_pauses (t : str) (recipients : list str) (fuel : nat) :
  forall (i : Z) (n : nat),
    email_pauses (snd (fst (send_batches cfg w t recipients fuel i n)))
    = returned (snd (fst (send_batches cfg w t recipients fuel i n))).
Proof.
  induction fuel as [|fuel IH]; intros i n; [reflexivity|].
  cbn [send_batches].
  destruct (i <? Z.of_nat (length recipients))%Z; [|reflexivity].
  pose proof (send_batch_pauses t
                (firstn (Z.to_nat (batch_size cfg))
                        (skipn (Z.to_nat i) recipients)) n) as Hb.
  destruct (send_batch cfg w t _ n) as [evs n1].
  specialize (IH (i + batch_size cfg)%Z n1).
  destruct (send_batches cfg w t recipients fuel (i + batch_size cfg) n1)
    as [[sent evs'] n2].
  cbn [fst snd] in *.
  destruct (i + batch_size cfg <? Z.of_nat (length recipients))%Z;
    destruct (Qle_bool 0 (delay_between_batches cfg));
    cbn [andb negb fst snd];
    rewrite ?email_pauses_app, ?returned_app, ?Hb, ?IH; reflexivity.
Qed.

Lemma send_templates_pauses (recipients : list str) (templates : list str) :
  forall n,
    email_pauses (snd (send_templates cfg w templates recipients n))
    = returned (snd (send_templates cfg w templates recipients n)).
Proof.
  induction templates as [|t templates IH]; intros n; [reflexivity|].
  cbn [send_templates].
  destruct (loads w t); cbn [negb]; [|reflexivity].
  destruct (batch_size cfg =? 0)%Z; [reflexivity|].
  destruct (0 <? batch_size cfg)%Z.
  - pose proof (send_batches_pauses t recipients (length recipients) 0%Z n)
      as Hb.
    destruct (send_batches cfg w t recipients (length recipients) 0 n)
      as [[sent evs] n'].
    cbn [fst snd] in Hb. destruct sent as [u|e].
    + specialize (IH n').
      destruct (send_templates cfg w templates recipients n') as [r evs'].
      cbn [fst snd] in *.
      change (LoadTemplate t :: evs ++ evs')
        with ([LoadTemplate t] ++ evs ++ evs').
      rewrite !email_pauses_app, !returned_app, Hb, IH. reflexivity.
    + cbn [snd].
      change (LoadTemplate t :: evs) with ([LoadTemplate t] ++ evs).
      rewrite !email_pauses_app, !returned_app, Hb. reflexivity.
  - cbn beta iota. specialize (IH n).
    destruct (send_templates cfg w templates recipients n) as [r evs'].
    cbn [fst snd app] in *.
    change (LoadTemplate t :: evs') with ([LoadTemplate t] ++ evs').
    rewrite !email_pauses_app, !returned_app, IH. reflexivity.
Qed.

(** Without a positive batch size the loop over the templates only loads
    templates. *)
Lemma send_templates_no_size (recipients : list str) (templates : list str) :
  (batch_size cfg <= 0)%Z ->
  forall n,
    let run := send_templates cfg w templates recipients n in
    (forall e, In e (snd run) -> exists t, e = LoadTemplate t) /\
    ((batch_size cfg < 0)%Z -> forallb (loads w) templates = true ->
     run = (Ok tt, map LoadTemplate templates)).
Proof.
  intros Hb. induction templates as [|t templates IH]; intros n.
  - split; [intros e []|reflexivity].
  - cbn zeta. cbn [send_templates forallb].
    destruct (loads w t); cbn [negb andb].
    + destruct (batch_size cfg =? 0)%Z eqn:E0.
      * split; [|intros Hlt; apply Z.eqb_eq in E0; lia].
        intros e [<-|[]]. eexists. reflexivity.
      * assert (E1 : (0 <? batch_size cfg)%Z = false)
          by (apply Z.ltb_ge; exact Hb).
        rewrite E1. cbn beta iota. specialize (IH n). cbn zeta in IH.
        destruct (send_templates cfg w templates recipients n) as [r evs'].
        cbn [fst snd app] in *. destruct IH as [IH1 IH2]. split.
        -- intros e [<-|He]; [eexists; reflexivity|apply IH1; exact He].
        -- intros Hlt Hall. specialize (IH2 Hlt Hall).
           inversion IH2; subst. reflexivity.
    + split; [intros e []|intros _ Hf; discriminate Hf].
Qed.

Lemma one_recipient_steps (r t : str) :
  (0 < batch_size cfg)%Z ->
  template_steps cfg [r] t = [Load t; Deliver t r].
Proof.
  intros Hb. unfold template_steps. cbn [length chunks].
  destruct (Z.to_nat (batch_size cfg)) as [|k] eqn:E; [lia|].
  cbn [firstn skipn]. rewrite firstn_nil. reflexivity.
Qed.

Lemma check_targets_ok (targets : list record) :
  check_targets targets = Ok tt ->
  Forall (fun r => missing_fields r = []) targets.
Proof.
  induction targets as [|r rest IH]; intros H; [constructor|].
  cbn [check_targets] in H.
  destruct (missing_fields r) eqn:E; [|discriminate].
  constructor; [exact E|apply IH; exact H].
Qed.

Lemma check_targets_first (good : list record) (bad : record)
    (rest : list record) :
  Forall (fun r => missing_fields r = []) good ->
  missing_fields bad <> [] ->
  check_targets (good ++ bad :: rest)
  = Raise (ValueError
             (lit "Recipient " ++ get bad (lit "email") (lit "unknown")
              ++ lit " missing required fields: "
              ++ repr_fields (missing_fields bad))).
Proof.
  intros Hg Hb. induction Hg as [|r good Hr Hg IH].
  - cbn [app check_targets].
    destruct (missing_fields bad); [congruence|reflexivity].
  - cbn [app check_targets]. rewrite Hr. exact IH.
Qed.

Lemma complete_has_fields (r : record) :
  missing_fields r = [] ->
  forall f, In f required_fields -> has_field r f = true.
Proof.
  unfold missing_fields. intros H f Hf.
  destruct (has_field r f) eqn:E; [reflexivity|].
  assert (Hin : In f (filter (fun f => negb (has_field r f)) required_fields)).
  { apply filter_In. split; [exact Hf|]. rewrite E. reflexivity. }
  rewrite H in Hin. destruct Hin.
Qed.

End LoopFacts.

(** X20.  A batch size that is not positive sends nothing: whatever the
    templates and recipients, [send_email] is never called and no pause is
    made.  With a negative size the run loads every template and ends
    normally; with size [0] it raises [ValueError] as soon as the first
    template is loaded. *)
Theorem X20_no_batch_size_no_mail :
  forall (cfg : Campaign.settings) (w : Campaign.world) (test_mode : bool)
         (templates recipients : list str),
    (Campaign.batch_size cfg <= 0)%Z ->
    let run := Campaign.dispatch cfg w test_mode templates recipients in
    (forall e, In e (snd run) -> exists t, e = Campaign.LoadTemplate t) /\
    ((Campaign.batch_size cfg < 0)%Z ->
     forallb (Campaign.loads w) templates = true ->
     run = (Ok tt, map Campaign.LoadTemplate templates)) /\
    (Campaign.batch_size cfg = 0%Z ->
     forall t rest,
       templates = t :: rest -> Campaign.loads w t = true ->
       run = (Raise Campaign.range_step_zero, [Campaign.LoadTemplate t])).
Proof.
  intros cfg w test_mode templates recipients Hb run.
  unfold run, Campaign.dispatch.
  destruct (send_templates_no_size cfg w
              (if test_mode then firstn 1 recipients else recipients)
              templates Hb 0) as [H1 H2].
  split; [exact H1|]. split; [exact H2|].
  intros H0 t rest -> Hl. cbn [Campaign.send_templates].
  rewrite Hl, H0. reflexivity.
Qed.

Lemma X20_witness :
  (Campaign.batch_size Sample.no_batches <= 0)%Z /\
  Campaign.dispatch Sample.no_batches Sample.all_fine false
    Sample.two_templates Sample.three_recipients
  = (Raise Campaign.range_step_zero, [Campaign.LoadTemplate (lit "t1.html")]) /\
  (Campaign.batch_size Sample.backwards <= 0)%Z /\
  Campaign.dispatch Sample.backwards Sample.all_fine false
    Sample.two_templates Sample.three_recipients
  = (Ok tt, map Campaign.LoadTemplate Sample.two_templates).
Proof.
  assert (H1 : (Campaign.batch_size Sample.no_batches <= 0)%Z)
    by (simpl; lia).
  assert (H2 : (Campaign.batch_size Sample.backwards <= 0)%Z)
    by (simpl; lia).
  split; [exact H1|]. split.
  - apply (proj2 (proj2 (X20_no_batch_size_no_mail Sample.no_batches
                           Sample.all_fine false Sample.two_templates
                           Sample.three_recipients H1))
             eq_refl (lit "t1.html") [lit "t2.txt"] eq_refl eq_refl).
  - split; [exact H2|].
    apply (proj1 (proj2 (X20_no_batch_size_no_mail Sample.backwards
                           Sample.all_fine false Sample.two_templates
                           Sample.three_recipients H2))).
    + simpl; lia.
    + reflexivity.
Defined.

(** X21.  In every run of the campaign loop the pause between messages is
    made exactly once for each call of [send_email] that returned: a send
    that raised is followed by no pause, and no pause is made otherwise. *)
Theorem X21_pause_after_each_sent_message :
  forall (cfg : Campaign.settings) (w : Campaign.world) (test_mode : bool)
         (templates recipients : list str),
    Campaign.email_pauses
      (snd (Campaign.dispatch cfg w test_mode templates recipients))
    = Campaign.returned
        (snd (Campaign.dispatch cfg w test_mode templates recipients)).
Proof.
  intros cfg w test_mode templates recipients. unfold Campaign.dispatch.
  apply send_templates_pauses.
Qed.

(** X22.  In test mode, with a positive batch size, every template that
    loads is sent once, to the first recipient of the file and to nobody
    else, and no pause between batches is made. *)
Theorem X22_test_mode_first_recipient_only :
  forall (cfg : Campaign.settings) (w : Campaign.world)
         (templates : list str) (first : str) (others : list str),
    (0 < Campaign.batch_size cfg)%Z ->
    Campaign.skeleton
      (snd (Campaign.dispatch cfg w true templates (first :: others)))
    = flat_map (fun t => [Campaign.Load t; Campaign.Deliver t first])
               (Campaign.loaded w templates).
Proof.
  intros cfg w templates first others Hb. unfold Campaign.dispatch.
  cbn [firstn].
  assert (Hone : Qle_bool 0 (Campaign.delay_between_batches cfg) = true \/
                 (Z.of_nat (length [first]) <= Campaign.batch_size cfg)%Z)
    by (right; cbn [length]; lia).
  destruct (@send_templates_skeleton cfg w [first] templates 0 Hb Hone)
    as [H _].
  rewrite H. clear H.
  induction (Campaign.loaded w templates) as [|t l IH]; [reflexivity|].
  cbn [flat_map]. rewrite IH, (one_recipient_steps cfg first t Hb).
  reflexivity.
Qed.

Lemma X22_witness :
  (0 < Campaign.batch_size Sample.scenario)%Z /\
  Campaign.skeleton
    (snd (Campaign.dispatch Sample.scenario Sample.all_fine true
            Sample.two_templates Sample.three_recipients))
  = [ Campaign.Load (lit "t1.html");
      Campaign.Deliver (lit "t1.html") (lit "ann@example.org");
      Campaign.Load (lit "t2.txt");
      Campaign.Deliver (lit "t2.txt") (lit "ann@example.org") ].
Proof.
  assert (H : (0 < Campaign.batch_size Sample.scenario)%Z) by (simpl; lia).
  split; [exact H|].
  exact (X22_test_mode_first_recipient_only Sample.scenario Sample.all_fine
           Sample.two_templates (lit "ann@example.org")
           [lit "bob@example.org"; lit "cy@example.org"] H).
Defined.

(** X23.  [load_recipients] returns the targets of the file unchanged, and
    only when every one of them has the keys [email], [first_name] and
    [last_name]; otherwise it raises [ValueError] for the first target that
    lacks one, naming its address ([unknown] without one) and the keys it
    lacks, and looks at no later target. *)
Theorem X23_recipients_checked :
  forall (path : str),
    (forall file targets,
       Campaign.load_recipients path file = Ok targets ->
       file = Some (Some targets) /\
       Forall (fun r => forall f, In f Campaign.required_fields ->
                                  Campaign.has_field r f = true) targets) /\
    (forall good bad rest,
       Forall (fun r => Campaign.missing_fields r = []) good ->
       Campaign.missing_fields bad <> [] ->
       Campaign.load_recipients path (Some (Some (good ++ bad :: rest)))
       = Raise (ValueError
                  (lit "Recipient "
                   ++ Campaign.get bad (lit "email") (lit "unknown")
                   ++ lit " missing required fields: "
                   ++ Campaign.repr_fields (Campaign.missing_fields bad)))).
Proof.
  intros path. split.
  - intros file targets H. unfold Campaign.load_recipients in H.
    destruct file as [[ts|]|]; try discriminate H.
    destruct (Campaign.check_targets ts) as [[]|e] eqn:E; simpl in H;
      [|discriminate H].
    inversion H; subst. split; [reflexivity|].
    apply check_targets_ok in E.
    eapply Forall_impl; [|exact E].
    intros r Hr. apply complete_has_fields. exact Hr.
  - intros good bad rest Hg Hb. unfold Campaign.load_recipients.
    rewrite (check_targets_first good bad rest Hg Hb). reflexivity.
Qed.

Lemma X23_witness :
  Campaign.load_recipients (lit "recipients.json")
    (Some (Some [Sample.ann])) = Ok [Sample.ann] /\
  Forall (fun r => Campaign.missing_fields r = []) [Sample.ann] /\
  Campaign.missing_fields Sample.bob <> [] /\
  Campaign.load_recipients (lit "recipients.json")
    (Some (Some ([Sample.ann] ++ Sample.bob :: [[]])))
  = Raise (ValueError
             (lit "Recipient bob@example.org missing required fields: ['last_name']")).
Proof.
  assert (H1 : Campaign.load_recipients (lit "recipients.json")
                 (Some (Some [Sample.ann])) = Ok [Sample.ann])
    by (vm_compute; reflexivity).
  assert (H2 : Forall (fun r => Campaign.missing_fields r = []) [Sample.ann])
    by (constructor; [vm_compute; reflexivity|constructor]).
  assert (H3 : Campaign.missing_fields Sample.bob <> [])
    by (vm_compute; discriminate).
  split; [exact H1|]. split; [exact H2|]. split; [exact H3|].
  etransitivity;
    [exact (proj2 (X23_recipients_checked (lit "recipients.json"))
              [Sample.ann] Sample.bob [[]] H2 H3)
    |vm_compute; reflexivity].
Defined.

(** ** What goes into a message *)

Section MessageFacts.
Import Tracking.

Lemma track_send_result (d d' : db) (rcp tpl c : str) (meta : option str)
    (uuid now id : str) :
  track_email_send d rcp tpl c meta uuid now = Ok (d', id) ->
  id = uuid /\
  d' = mkDb (emails d ++ [mkEmail uuid c rcp tpl now (lit "sent")
                                  None None meta])
            (opens d) (clicks d) (bounces d).
Proof.
  intros H. unfold track_email_send in H. apply wrap_runtime_ok in H.
  destruct (insert _ _ _) as [es|] eqn:E; simpl in H; inversion H; subst.
  apply insert_ok in E. subst es. split; reflexivity.
Qed.

Lemma mint_result (d d' : db) (eid dom px html : str) :
  generate_tracking_pixel d eid dom px = Ok (d', html) ->
  html = pixel_html dom px /\
  NoDup (pixels (emails d')) /\
  d' = mkDb (map (fun e => if Str.eqb (email_id e) eid
                           then set_pixel px e else e) (emails d))
            (opens d) (clicks d) (bounces d).
Proof.
  intros H. unfold generate_tracking_pixel, create_tracking_pixel in H.
  destruct (distinct _) eqn:Ed; simpl in H; inversion H; subst; clear H.
  apply distinct_NoDup in Ed. split; [reflexivity|].
  split; [exact Ed|reflexivity].
Qed.

(** [s.replace(old, new)] where [old] does not occur. *)
Lemma replace_absent (old new s : str) :
  old <> [] -> Str.contains old s = false -> Str.replace old new s = s.
Proof.
  intros Hne. destruct old as [|o old]; [congruence|].
  unfold Str.replace. induction s as [|c s IH]; intros H; [reflexivity|].
  cbn [Str.contains] in H. apply orb_false_iff in H as [Hs Hc].
  cbn [Str.replace_from]. rewrite Hs, IH by exact Hc. reflexivity.
Qed.

End MessageFacts.

(** X24.  Without a tracker, a campaign identifier or a tracking URL,
    [send_email] sends what [replace_placeholders] returns, as it is: no
    link is rewritten and no beacon is added or minted.  Without a tracker
    or a campaign identifier the store is not touched at all. *)
Theorem X24_untracked_message_is_plain :
  forall (tracker : bool) (d : Tracking.db) (t : Template.template)
         (r : Message.recipient) (url tracking_url campaign_id : option str)
         (landing_page uuid_email uuid_pixel now : str)
         (p : Message.prepared),
    Message.prepare tracker d t r url tracking_url campaign_id landing_page
                    uuid_email uuid_pixel now = Ok p ->
    tracker = false \/ truthy tracking_url = false \/
    truthy campaign_id = false ->
    (Message.m_subject p, Message.m_content p)
    = Template.replace_placeholders t
        (Message.replacements r url tracking_url landing_page) /\
    Tracking.pixels (Tracking.emails (Message.store p))
    = Tracking.pixels (Tracking.emails d) /\
    (tracker = false \/ truthy campaign_id = false ->
     Message.store p = d /\ Message.email_id p = None).
Proof.
  intros tracker d t r url tracking_url campaign_id landing ue up now p H Hoff.
  unfold Message.prepare in H.
  set (sc := Template.replace_placeholders t _) in *.
  destruct campaign_id as [[|c campaign]|]; destruct tracker;
    cbn [bind fst snd] in H;
    try (inversion H; subst; cbn [Message.m_subject Message.m_content
                                  Message.store Message.email_id];
         (split; [symmetry; apply surjective_pairing|]);
         (split; [reflexivity|]); intros _; split; reflexivity).
  (* a tracker and a campaign identifier: the tracking URL is missing *)
  destruct Hoff as [Ht|[Hu|Hc]]; [discriminate Ht| |discriminate Hc].
  destruct (Tracking.track_email_send d (Message.email r)
              (Template.template_path t) (c :: campaign) None ue now)
    as [[d1 id]|e] eqn:Es; cbn [bind fst snd] in H; [|discriminate H].
  apply track_send_result in Es as [-> ->].
  assert (Hp : p = Message.mkPrepared
                     (Tracking.mkDb
                        (Tracking.emails d ++
                         [Tracking.mkEmail ue (c :: campaign)
                            (Message.email r) (Template.template_path t) now
                            (lit "sent") None None None])
                        (Tracking.opens d) (Tracking.clicks d)
                        (Tracking.bounces d))
                     (Some ue) (fst sc) (snd sc)).
  { destruct ue as [|e0 id0]; destruct tracking_url as [[|u dom]|];
      try discriminate Hu; inversion H; reflexivity. }
  subst p. cbn [Message.m_subject Message.m_content Message.store
                Message.email_id Tracking.emails].
  split; [symmetry; apply surjective_pairing|]. split.
  - rewrite pixels_app. cbn. apply app_nil_r.
  - intros [Ht|Hc]; discriminate.
Qed.

Lemma X24_witness :
  Message.prepare true Sample.store Sample.plain_mail Sample.to_ann
    (Some (lit "http://example.org/")) None (Some (lit "c1")) []
    (lit "m3") (lit "p3") (lit "2024-05-01T12:00:00.000000")
  = Ok (Message.mkPrepared
          (Tracking.mkDb
             (Tracking.emails Sample.store ++
              [Tracking.mkEmail (lit "m3") (lit "c1") (lit "ann@example.org")
                 (lit "templates/hello.txt")
                 (lit "2024-05-01T12:00:00.000000") (lit "sent")
                 None None None]) [] [] [])
          (Some (lit "m3")) (lit "Hi Ann")
          (lit "Dear Ann, see http://example.org/")) /\
  (true = false \/ truthy None = false \/ truthy (Some (lit "c1")) = false) /\
  Tracking.pixels
    (Tracking.emails Sample.store ++
     [Tracking.mkEmail (lit "m3") (lit "c1") (lit "ann@example.org")
        (lit "templates/hello.txt") (lit "2024-05-01T12:00:00.000000")
        (lit "sent") None None None])
  = Tracking.pixels (Tracking.emails Sample.store).
Proof.
  assert (H1 : Message.prepare true Sample.store Sample.plain_mail
                 Sample.to_ann (Some (lit "http://example.org/")) None
                 (Some (lit "c1")) [] (lit "m3") (lit "p3")
                 (lit "2024-05-01T12:00:00.000000")
               = Ok (Message.mkPrepared
                       (Tracking.mkDb
                          (Tracking.emails Sample.store ++
                           [Tracking.mkEmail (lit "m3") (lit "c1")
                              (lit "ann@example.org")
                              (lit "templates/hello.txt")
                              (lit "2024-05-01T12:00:00.000000") (lit "sent")
                              None None None]) [] [] [])
                       (Some (lit "m3")) (lit "Hi Ann")
                       (lit "Dear Ann, see http://example.org/")))
    by (vm_compute; reflexivity).
  assert (H2 : true = false \/ truthy None = false \/
               truthy (Some (lit "c1")) = false)
    by (right; left; reflexivity).
  split; [exact H1|]. split; [exact H2|].
  exact (proj1 (proj2 (X24_untracked_message_is_plain true Sample.store
                         Sample.plain_mail Sample.to_ann
                         (Some (lit "http://example.org/")) None
                         (Some (lit "c1")) [] (lit "m3") (lit "p3")
                         (lit "2024-05-01T12:00:00.000000") _ H1 H2))).
Defined.

(** X25.  For a tracked message (tracker, campaign identifier and tracking
    URL given) whose tracking calls succeed, [send_email] always mints a
    beacon token and stores it on the message, so that an open with the
    token is attributed to it; but the beacon itself goes into the content
    only in front of a closing body tag of an HTML template.  A plain-text template, and an HTML
    template whose content has no closing body tag, are sent with the
    links rewritten and without beacon. *)
Theorem X25_beacon_needs_body_close :
  forall (d : Tracking.db) (t : Template.template) (r : Message.recipient)
         (url : option str)
         (tracking_url campaign landing_page uuid_email uuid_pixel now : str)
         (p : Message.prepared),
    tracking_url <> [] -> campaign <> [] -> uuid_email <> [] ->
    Message.prepare true d t r url (Some tracking_url) (Some campaign)
                    landing_page uuid_email uuid_pixel now = Ok p ->
    let plain :=
      snd (Template.replace_placeholders t
             (Message.replacements r url (Some tracking_url) landing_page)) in
    let linked :=
      Tracking.re_sub (Tracking.replace_link uuid_email tracking_url) 0
                      plain in
    Message.email_id p = Some uuid_email /\
    Tracking.email_of_pixel (Message.store p) uuid_pixel = Some uuid_email /\
    (Template.is_html t = false \/
     Str.contains Message.body_close linked = false ->
     Message.m_content p = linked) /\
    (Template.is_html t = true ->
     Message.m_content p
     = Str.replace Message.body_close
         (Tracking.pixel_html tracking_url uuid_pixel ++ Message.body_close)
         linked).
Proof.
  intros d t r url dom campaign landing ue up now p Hd Hc Hu H plain linked.
  unfold Message.prepare in H.
  destruct campaign as [|c campaign]; [congruence|].
  destruct dom as [|u dom]; [congruence|].
  destruct ue as [|e0 id0]; [congruence|].
  destruct (Tracking.track_email_send d (Message.email r)
              (Template.template_path t) (c :: campaign) None (e0 :: id0) now)
    as [[d1 id]|e] eqn:Es; cbn [bind fst snd] in H; [|discriminate H].
  apply track_send_result in Es as [-> ->].
  unfold Tracking.generate_tracking_links in H.
  cbn [wrap_runtime bind] in H.
  fold plain in H. fold linked in H.
  destruct (Tracking.generate_tracking_pixel _ _ _ _) as [[d2 html]|e] eqn:Ep;
    cbn [bind fst snd] in H; [|discriminate H].
  apply mint_result in Ep as (-> & Hnd & ->).
  inversion H; subst p; clear H.
  cbn [Message.email_id Message.store Message.m_content].
  split; [reflexivity|]. split; [|split].
  - set (row := Tracking.mkEmail (e0 :: id0) (c :: campaign) (Message.email r)
                  (Template.template_path t) now (lit "sent") None None None).
    apply (email_of_pixel_owner _ (Tracking.set_pixel up row) up Hnd).
    + cbn [Tracking.emails]. rewrite map_app. apply in_or_app. right.
      cbn [map]. cbn [Tracking.email_id row]. rewrite str_eqb_refl.
      left. reflexivity.
    + reflexivity.
  - intros [Hh|Hno].
    + rewrite Hh. reflexivity.
    + destruct (Template.is_html t); [|reflexivity].
      assert (Hb : Message.body_close <> []) by discriminate.
      exact (replace_absent Message.body_close _ linked Hb Hno).
  - intros ->. reflexivity.
Qed.

Lemma X25_witness :
  lit "t.example.org" <> [] /\ lit "c1" <> [] /\ lit "m3" <> [] /\
  exists p,
    Message.prepare true Sample.store Sample.html_fragment Sample.to_ann
      None (Some (lit "t.example.org")) (Some (lit "c1")) []
      (lit "m3") (lit "p3") (lit "2024-05-01T12:00:00.000000") = Ok p /\
    Message.m_content p = lit "<p>Dear Ann</p>" /\
    Tracking.email_of_pixel (Message.store p) (lit "p3") = Some (lit "m3").
Proof.
  assert (H1 : lit "t.example.org" <> []) by discriminate.
  assert (H2 : lit "c1" <> []) by discriminate.
  assert (H3 : lit "m3" <> []) by discriminate.
  repeat (split; [assumption|]).
  destruct (Message.prepare true Sample.store Sample.html_fragment
              Sample.to_ann None (Some (lit "t.example.org"))
              (Some (lit "c1")) [] (lit "m3") (lit "p3")
              (lit "2024-05-01T12:00:00.000000")) as [p|e] eqn:E;
    [|vm_compute in E; discriminate E].
  exists p. split; [reflexivity|].
  destruct (X25_beacon_needs_body_close Sample.store Sample.html_fragment
              Sample.to_ann None (lit "t.example.org") (lit "c1") []
              (lit "m3") (lit "p3") (lit "2024-05-01T12:00:00.000000") p
              H1 H2 H3 E) as (_ & Ho & Hplain & _).
  split; [|exact Ho].
  rewrite Hplain; [vm_compute; reflexivity|].
  right. vm_compute. reflexivity.
Defined.
